(** * Verification of the segmentation, extraction and evaluation core

    The three Python modules [chunking.py], [metadata_extraction.py] and
    [benchmark.py] are embedded as Rocq functions and their documented
    properties are settled against that embedding. Later sections embed
    [extract_numbers] of [text_extraction.py], [add_chunks] of
    [vector_db_fixed.py] and the filters of [retriever.py], with the
    embedder, the collection and the search as parameters.

    Modelling conventions.
    - A Python [str] is a [string]; every [ascii] is read as the code point
      U+0000..U+00FF it numbers (CPython's one-byte string kind), so the
      character classes, [lower] and [strip] below are exact on that range.
    - A Python [int] is a [Z].
    - A [while] loop is a fuelled iteration of its body: [None] means that the
      guard still holds when the fuel is spent.
    - A Python [float] obtained with [float(...)] from a decimal literal is
      the rational number the literal denotes ([Q], lowest terms); the floats
      of the metrics, which go through [np.log2], are real numbers. *)

From Stdlib Require Import ZArith List Ascii String Lia QArith Reals Lra Bool DecimalString.
From Stdlib Require DecimalZ DecimalPos.
From stdpp Require Import gmap strings.
Import ListNotations.

Open Scope string_scope.
Open Scope list_scope.
Open Scope Z_scope.

(** ** Python primitives used by the sources *)

Module Py.

(** [len(s)] *)
Definition len (s : string) : Z := Z.of_nat (String.length s).

(** [len(l)] for a list *)
Definition llen {A} (l : list A) : Z := Z.of_nat (List.length l).

(** Index clamping of a slice bound ([PySlice_AdjustIndices], step 1). *)
Definition adjust_index (n i : Z) : Z :=
  if i <? 0 then Z.max 0 (i + n) else Z.min i n.

(** [l[start:stop]] on the characters of a string or the items of a list. *)
Definition lslice {A} (l : list A) (start stop : Z) : list A :=
  let n := Z.of_nat (List.length l) in
  let a := adjust_index n start in
  let b := adjust_index n stop in
  firstn (Z.to_nat (b - a)) (skipn (Z.to_nat a) l).

(** [s[start:stop]] *)
Definition slice (s : string) (start stop : Z) : string :=
  string_of_list_ascii (lslice (list_ascii_of_string s) start stop).

(** [l[:k]] *)
Definition slice_to {A} (l : list A) (k : Z) : list A := lslice l 0 k.

(** [Py_UNICODE_ISSPACE] on U+0000..U+00FF: TAB..CR, FS..US, SPACE, NEL, NBSP. *)
Definition is_space (c : ascii) : bool :=
  let n := N_of_ascii c in
  ((9 <=? n) && (n <=? 13) || (28 <=? n) && (n <=? 32) || (n =? 133) || (n =? 160))%N.

(** [Py_UNICODE_ISDECIMAL] on U+0000..U+00FF: the digits 0..9 only. *)
Definition is_digit (c : ascii) : bool :=
  let n := N_of_ascii c in ((48 <=? n) && (n <=? 57))%N.

(** [str.lower()] on one code point of U+0000..U+00FF: A..Z and the
    upper-case letters U+00C0..U+00DE (U+00D7, the multiplication sign,
    apart) move up by 32. *)
Definition lower_code (n : N) : N :=
  (if (65 <=? n) && (n <=? 90) then n + 32
   else if (192 <=? n) && (n <=? 222) && negb (n =? 215) then n + 32
   else n)%N.

Definition lower_char (c : ascii) : ascii := ascii_of_N (lower_code (N_of_ascii c)).

(** [s.lower()] *)
Fixpoint lower (s : string) : string :=
  match s with
  | EmptyString => EmptyString
  | String c r => String (lower_char c) (lower r)
  end.

Fixpoint lstrip_list (l : list ascii) : list ascii :=
  match l with
  | c :: r => if is_space c then lstrip_list r else l
  | [] => []
  end.

(** [s.strip()]: leading and trailing white space removed. *)
Definition strip (s : string) : string :=
  string_of_list_ascii
    (rev (lstrip_list (rev (lstrip_list (list_ascii_of_string s))))).

(** Index of the last item of [l] equal to [c]. *)
Fixpoint last_index (c : ascii) (l : list ascii) : option nat :=
  match l with
  | [] => None
  | x :: r =>
      match last_index c r with
      | Some i => Some (S i)
      | None => if Ascii.eqb x c then Some 0%nat else None
      end
  end.

(** [s.rfind(c, start, stop)] for a one-character needle [c], the only way
    the sources call it: the bounds are adjusted as [ADJUST_INDICES] does,
    an empty window gives -1, otherwise the highest index in the window
    holding [c], or -1. *)
Definition rfind (s : string) (c : ascii) (start stop : Z) : Z :=
  let n := len s in
  let e := if n <? stop then n
           else if stop <? 0 then Z.max 0 (stop + n) else stop in
  let b := if start <? 0 then Z.max 0 (start + n) else start in
  if e - b <? 1 then -1
  else
    match last_index c (firstn (Z.to_nat (e - b))
                          (skipn (Z.to_nat b) (list_ascii_of_string s))) with
    | Some i => b + Z.of_nat i
    | None => -1
    end.

(** [sub in s] *)
Fixpoint contains (s sub : string) : bool :=
  if String.prefix sub s then true
  else match s with
       | EmptyString => false
       | String _ r => contains r sub
       end.

(** [str(n)] for an integer, as an f-string prints it. *)
Definition str_of_int (n : Z) : string := NilZero.string_of_int (Z.to_int n).

(** Truthiness of a string: [if s:]. *)
Definition truthy (s : string) : bool :=
  match s with EmptyString => false | _ => true end.

(** Exceptions that the modelled code can meet. *)
Inductive exn : Type := ZeroDivisionError | ValueError | TypeError.

(** The outcome of a call that may raise. *)
Inductive result (A : Type) : Type :=
| Ok (a : A)
| Raise (e : exn).
Arguments Ok {A} a.
Arguments Raise {A} e.

Definition bind {A B} (x : result A) (f : A -> result B) : result B :=
  match x with
  | Ok a => f a
  | Raise e => Raise e
  end.

End Py.

Notation "'let*' x ':=' c1 'in' c2" := (Py.bind c1 (fun x => c2))
  (at level 10, x name, c1 at level 100, c2 at level 200).

(** ** chunking.py *)

Module Chunking.
Import Py.

(** The object built by [DocumentChunker.__init__]. *)
Record DocumentChunker : Type := {
  chunk_size : Z;
  overlap : Z
}.

(** [DocumentChunker(chunk_size, overlap)]: both arguments are stored as
    they come. *)
Definition init (chunk_size overlap : Z) : DocumentChunker :=
  {| chunk_size := chunk_size; overlap := overlap |}.

(** [DocumentChunker()] with the default arguments. *)
Definition init_default : DocumentChunker := init 500 50.

(** One chunk dictionary: keys "id", "content", "start_char", "end_char",
    "length". *)
Record Chunk : Type := {
  chunk_id : string;
  chunk_content : string;
  start_char : Z;
  end_char : Z;
  chunk_length : Z
}.

(** The local variables of [chunk_text] that live across iterations. *)
Record loop_state : Type := {
  chunks : list Chunk;
  start : Z;
  chunk_count : Z
}.

Definition period : ascii := "."%char.
Definition newline : ascii := ascii_of_nat 10.

(** The end of the slice chosen in one iteration (lines 41-52). *)
Definition choose_end (self : DocumentChunker) (text : string) (start : Z) : Z :=
  let end_ := Z.min (start + chunk_size self) (len text) in
  if end_ <? len text then
    let last_period := rfind text period start end_ in
    let last_newline := rfind text newline start end_ in
    if start <? last_period then last_period + 1
    else if start <? last_newline then last_newline + 1
    else end_
  else end_.

(** The body of the [while] loop (lines 40-67). *)
Definition loop_body (self : DocumentChunker) (text chunk_id_prefix : string)
    (st : loop_state) : loop_state :=
  let end_ := choose_end self text (start st) in
  let chunk_text := strip (slice text (start st) end_) in
  let st' :=
    if truthy chunk_text then
      {| chunks := chunks st ++
           [ {| chunk_id := chunk_id_prefix +:+ "_chunk_" +:+ str_of_int (chunk_count st);
                chunk_content := chunk_text;
                start_char := start st;
                end_char := end_;
                chunk_length := len chunk_text |} ];
         start := start st;
         chunk_count := chunk_count st + 1 |}
    else st in
  {| chunks := chunks st';
     start := end_ - overlap self;
     chunk_count := chunk_count st' |}.

(** [while start < len(text): body], at most [fuel] iterations. *)
Fixpoint while_loop (fuel : nat) (self : DocumentChunker)
    (text chunk_id_prefix : string) (st : loop_state) : option loop_state :=
  if start st <? len text then
    match fuel with
    | O => None
    | S fuel' =>
        while_loop fuel' self text chunk_id_prefix
          (loop_body self text chunk_id_prefix st)
    end
  else Some st.

Definition initial_state : loop_state :=
  {| chunks := []; start := 0; chunk_count := 0 |}.

(** [DocumentChunker.chunk_text(text, chunk_id_prefix)]. *)
Definition chunk_text (fuel : nat) (self : DocumentChunker)
    (text chunk_id_prefix : string) : option (list Chunk) :=
  option_map chunks (while_loop fuel self text chunk_id_prefix initial_state).

(** The state after [n] iterations of the body, guard not consulted. *)
Fixpoint iterate (n : nat) (self : DocumentChunker)
    (text chunk_id_prefix : string) (st : loop_state) : loop_state :=
  match n with
  | O => st
  | S n' => iterate n' self text chunk_id_prefix (loop_body self text chunk_id_prefix st)
  end.

(** The chunk that the first iteration emits when it takes a whole text. *)
Definition whole_text_chunk (text pre : string) : Chunk :=
  {| chunk_id := pre +:+ "_chunk_0";
     chunk_content := strip text;
     start_char := 0;
     end_char := len text;
     chunk_length := len (strip text) |}.

End Chunking.

(** ** The fragment of Python's [re] that metadata_extraction.py uses *)

Module Regex.
Import Py.

(** Pattern syntax. Every pattern of the source is compiled with
    [re.IGNORECASE], so a literal matches its character in either case.
    A non-capturing group [(?:...)] is plain nesting. *)
Inductive regex : Type :=
| Eps
| Lit (code : N)
| Digit
| Space
| Seq (r1 r2 : regex)
| Alt (r1 r2 : regex)
| Opt (r : regex)
| Star (r : regex)
| Plus (r : regex)
| Group (n : nat) (r : regex).

(** Capture bindings, the latest first. *)
Definition caps : Type := list (nat * list ascii).

Definition cont (X : Type) : Type := list ascii -> caps -> option X.

(** A literal of the pattern against a character of the text, cases
    folded. On U+0000..U+00FF this is the whole of [re.IGNORECASE]; beyond
    that range, which the strings here do not hold, a literal can have
    further partners (the micro sign matches the Greek letter mu). *)
Definition ci_eq (code : N) (c : ascii) : bool :=
  (lower_code (N_of_ascii c) =? lower_code code)%N.

(** Greedy repetition of a matcher [m]: one more round first, the
    continuation when that fails. A round that consumes nothing is not
    repeated. *)
Fixpoint star_loop {X} (m : list ascii -> caps -> cont X -> option X)
    (fuel : nat) (s : list ascii) (cs : caps) (k : cont X) : option X :=
  match fuel with
  | O => k s cs
  | S fuel' =>
      match m s cs (fun s1 cs1 =>
                      if (List.length s1 <? List.length s)%nat
                      then star_loop m fuel' s1 cs1 k else None) with
      | Some x => Some x
      | None => k s cs
      end
  end.

(** Backtracking matcher in continuation-passing style: [rmatch r s cs k]
    matches [r] at the head of [s] and hands the rest of the text to [k];
    when [k] fails the next way of matching [r] is tried (the left
    alternative before the right one, the longer repetition before the
    shorter one). *)
Fixpoint rmatch {X} (r : regex) (s : list ascii) (cs : caps) (k : cont X)
    {struct r} : option X :=
  match r with
  | Eps => k s cs
  | Lit n =>
      match s with
      | c :: s' => if ci_eq n c then k s' cs else None
      | [] => None
      end
  | Digit =>
      match s with
      | c :: s' => if is_digit c then k s' cs else None
      | [] => None
      end
  | Space =>
      match s with
      | c :: s' => if is_space c then k s' cs else None
      | [] => None
      end
  | Seq r1 r2 => rmatch r1 s cs (fun s1 cs1 => rmatch r2 s1 cs1 k)
  | Alt r1 r2 =>
      match rmatch r1 s cs k with
      | Some x => Some x
      | None => rmatch r2 s cs k
      end
  | Opt r1 =>
      match rmatch r1 s cs k with
      | Some x => Some x
      | None => k s cs
      end
  | Star r1 => star_loop (rmatch r1) (S (List.length s)) s cs k
  | Plus r1 =>
      rmatch r1 s cs
        (fun s1 cs1 => star_loop (rmatch r1) (S (List.length s1)) s1 cs1 k)
  | Group n r1 =>
      rmatch r1 s cs
        (fun s1 cs1 =>
           k s1 ((n, firstn (List.length s - List.length s1) s) :: cs1))
  end.

(** Number of capturing groups of a pattern. *)
Fixpoint groups (r : regex) : nat :=
  match r with
  | Eps | Lit _ | Digit | Space => 0
  | Seq r1 r2 | Alt r1 r2 => groups r1 + groups r2
  | Opt r1 | Star r1 | Plus r1 => groups r1
  | Group _ r1 => S (groups r1)
  end.

(** Text of group [n]; a group that took no part in the match gives "". *)
Fixpoint group_text (n : nat) (cs : caps) : string :=
  match cs with
  | [] => ""
  | (m, t) :: rest => if (m =? n)%nat then string_of_list_ascii t else group_text n rest
  end.

(** One element of the list that [re.findall] returns. *)
Inductive findall_item : Type :=
| ItemStr (s : string)
| ItemTuple (l : list string).

(** The element for one match: the whole match without groups, the group
    with one group, the tuple of the groups with more. *)
Definition item_of (r : regex) (matched : list ascii) (cs : caps) : findall_item :=
  match groups r with
  | O => ItemStr (string_of_list_ascii matched)
  | S O => ItemStr (group_text 1 cs)
  | n => ItemTuple (map (fun i => group_text i cs) (seq 1 n))
  end.

(** Matches of [r] in [s], left to right, not overlapping. After a match
    the scan goes on where it ended (one character further when the match
    was empty, which no pattern of the source allows). *)
Fixpoint findall_list (fuel : nat) (r : regex) (s : list ascii) : list findall_item :=
  match fuel with
  | O => []
  | S fuel' =>
      match rmatch r s [] (fun s1 cs1 => Some (s1, cs1)) with
      | Some (s1, cs1) =>
          item_of r (firstn (List.length s - List.length s1) s) cs1 ::
            (if (List.length s1 <? List.length s)%nat then findall_list fuel' r s1
             else match s with
                  | [] => []
                  | _ :: t => findall_list fuel' r t
                  end)
      | None =>
          match s with
          | [] => []
          | _ :: t => findall_list fuel' r t
          end
      end
  end.

(** [re.findall(pattern, text, re.IGNORECASE)] *)
Definition findall (r : regex) (text : string) : list findall_item :=
  let s := list_ascii_of_string text in
  findall_list (S (List.length s)) r s.

(** Pattern builders. *)
Fixpoint word (w : string) : regex :=
  match w with
  | EmptyString => Eps
  | String c EmptyString => Lit (N_of_ascii c)
  | String c rest => Seq (Lit (N_of_ascii c)) (word rest)
  end.

Fixpoint seq_of (rs : list regex) : regex :=
  match rs with
  | [] => Eps
  | [r] => r
  | r :: rest => Seq r (seq_of rest)
  end.

Fixpoint alt_of (rs : list regex) : regex :=
  match rs with
  | [] => Eps
  | [r] => r
  | r :: rest => Alt r (alt_of rest)
  end.

(** [len(item)] and [item[i]] on an element of a [findall] result. *)
Definition item_len (it : findall_item) : Z :=
  match it with
  | ItemStr s => len s
  | ItemTuple l => llen l
  end.

Definition item_get (it : findall_item) (i : nat) : string :=
  match it with
  | ItemStr s => string_of_list_ascii (firstn 1 (skipn i (list_ascii_of_string s)))
  | ItemTuple l => nth i l ""
  end.

(** The texts that a pattern denotes, captures aside. *)
Fixpoint lang (r : regex) (t : list ascii) : Prop :=
  match r with
  | Eps => t = []
  | Lit n => exists c, t = [c] /\ ci_eq n c = true
  | Digit => exists c, t = [c] /\ is_digit c = true
  | Space => exists c, t = [c] /\ is_space c = true
  | Seq r1 r2 => exists t1 t2, t = t1 ++ t2 /\ lang r1 t1 /\ lang r2 t2
  | Alt r1 r2 => lang r1 t \/ lang r2 t
  | Opt r1 => t = [] \/ lang r1 t
  | Star r1 => exists ts, t = concat ts /\ Forall (lang r1) ts
  | Plus r1 => exists t1 ts, t = t1 ++ concat ts /\ lang r1 t1 /\ Forall (lang r1) ts
  | Group _ r1 => lang r1 t
  end.

(** The numbers of the capturing groups of a pattern. *)
Fixpoint group_ids (r : regex) : list nat :=
  match r with
  | Eps | Lit _ | Digit | Space => []
  | Seq r1 r2 | Alt r1 r2 => group_ids r1 ++ group_ids r2
  | Opt r1 | Star r1 | Plus r1 => group_ids r1
  | Group n r1 => n :: group_ids r1
  end.

(** [cs1] is [cs] with bindings added in front, all for groups in [ids]. *)
Definition extends (ids : list nat) (cs cs1 : caps) : Prop :=
  exists added, cs1 = added ++ cs /\ Forall (fun b => In (fst b) ids) added.

End Regex.
(** ** metadata_extraction.py *)

Module MetadataExtraction.
Import Py Regex.

(** Value of a run of decimal digits, [None] when another character occurs. *)
Fixpoint digits_value (acc : Z) (l : list ascii) : option Z :=
  match l with
  | [] => Some acc
  | c :: r =>
      if is_digit c
      then digits_value (10 * acc + (Z.of_N (N_of_ascii c) - 48)) r
      else None
  end.

(** The text before the first period and, when there is one, the text
    after it. *)
Fixpoint split_period (l : list ascii) : list ascii * option (list ascii) :=
  match l with
  | [] => ([], None)
  | c :: r =>
      if Ascii.eqb c "."%char then ([], Some r)
      else let (a, b) := split_period r in (c :: a, b)
  end.

(** [float(s)] on the arguments the extractor passes: texts captured by the
    numeric groups of its patterns, or one character of such a text. They
    hold digits and periods only; on them [float] accepts digits with at
    most one period and at least one digit, and raises [ValueError]
    otherwise. The value is the number that the digits denote; CPython
    rounds it to the nearest double, which is left out here. *)
Definition py_float (s : string) : result Q :=
  let (ip, fp) := split_period (list_ascii_of_string s) in
  let frac := match fp with Some f => f | None => [] end in
  match ip ++ frac with
  | [] => Raise ValueError
  | ds =>
      match digits_value 0 ds with
      | Some v => Ok (Qred (v # Z.to_pos (10 ^ Z.of_nat (List.length frac))))
      | None => Raise ValueError
      end
  end.

(** The extractor object: [self.microorganisms]. *)
Record MetadataExtractor : Type := {
  microorganisms : list string
}.

Definition o_acute : string := String (ascii_of_nat 243) "".
Definition a_acute : string := String (ascii_of_nat 225) "".
Definition micro_sign : N := 181.
Definition en_dash : N := 8211.

(** [MetadataExtractor.__init__] *)
Definition init : MetadataExtractor :=
  {| microorganisms :=
       [ "Zygosaccharomyces bailii"; "E. coli"; "Salmonella"; "Listeria";
         "Staphylococcus aureus"; "Clostridium"; "Pseudomonas"; "Bacillus";
         "levadura"; "bacteria"; "hongo"; "moho";
         "pat" +:+ o_acute +:+ "geno" ] |}.

(** [\d+\.?\d*] *)
Definition number : regex :=
  seq_of [Plus Digit; Opt (Lit (N_of_ascii ".")); Star Digit].

(** [0\.\d+] *)
Definition fraction : regex :=
  seq_of [word "0"; word "."; Plus Digit].

(** [(?:–|-|to)?] *)
Definition range_separator : regex :=
  Opt (alt_of [Lit en_dash; word "-"; word "to"]).

(** The two pH patterns, in the order of the source. *)
Definition ph_patterns : list regex :=
  [ seq_of [ word "pH"; Star Space;
             Opt (alt_of [word "="; word ":"; word "between"; word "of"]);
             Star Space; Group 1 number; Star Space; range_separator;
             Star Space; Group 2 number ];
    seq_of [ word "pH"; Star Space;
             Opt (alt_of [word "="; word ":"; word "of"]);
             Star Space; Group 1 number ] ].

(** [(?:aW|aw|water\s*activity)] *)
Definition aw_keyword : regex :=
  alt_of [word "aW"; word "aw"; seq_of [word "water"; Star Space; word "activity"]].

(** The two water-activity patterns, in the order of the source. *)
Definition aw_patterns : list regex :=
  [ seq_of [ aw_keyword; Star Space;
             Opt (alt_of [word "="; word ":"; word "between"; word "of"]);
             Star Space; Group 1 fraction; Star Space; range_separator;
             Star Space; Group 2 fraction ];
    seq_of [ aw_keyword; Star Space;
             Opt (alt_of [word "="; word ":"; word "of"]);
             Star Space; Group 1 fraction ] ].

(** The concentration pattern: a number (group 1), optional white space,
    and one of the units ppm, mg/kg, %, g/kg, micro-L/g (group 2). *)
Definition concentration_pattern : regex :=
  seq_of [ Group 1 number; Star Space;
           Group 2 (alt_of [ word "ppm"; word "mg/kg"; word "%"; word "g/kg";
                             seq_of [Lit micro_sign; word "L/g"] ]) ].

(** What a range/value rule returns: the dictionary with the two bounds or
    the one with the single value. *)
Inductive measure : Type :=
| Range (vmin vmax : Q)
| Value (v : Q).

(** The loop over the patterns that [extract_ph_range] and [extract_aw]
    share word for word: the first match of the first pattern that matches
    is read as a pair when [len(matches[0]) == 2] and as one number
    otherwise; a [ValueError] of [float] (or a [TypeError] in the second
    branch) moves on to the next pattern. *)
Fixpoint scan_patterns (patterns : list regex) (text : string) : result (option measure) :=
  match patterns with
  | [] => Ok None
  | pattern :: rest =>
      match findall pattern text with
      | [] => scan_patterns rest text
      | m0 :: _ =>
          if item_len m0 =? 2 then
            match (let* lo := py_float (item_get m0 0) in
                   let* hi := py_float (item_get m0 1) in
                   Ok (Range lo hi)) with
            | Ok v => Ok (Some v)
            | Raise ValueError => scan_patterns rest text
            | Raise e => Raise e
            end
          else
            match (match m0 with
                   | ItemStr s => py_float s
                   | ItemTuple _ => Raise TypeError
                   end) with
            | Ok v => Ok (Some (Value v))
            | Raise ValueError | Raise TypeError => scan_patterns rest text
            | Raise e => Raise e
            end
      end
  end.

(** [extract_ph_range]: [Range] is [{"ph_min", "ph_max"}], [Value] is
    [{"ph_value"}]. *)
Definition extract_ph_range (self : MetadataExtractor) (text : string)
  : result (option measure) := scan_patterns ph_patterns text.

(** [extract_aw]: [Range] is [{"aw_min", "aw_max"}], [Value] is
    [{"aw_value"}]. *)
Definition extract_aw (self : MetadataExtractor) (text : string)
  : result (option measure) := scan_patterns aw_patterns text.

(** [{"concentration_value", "concentration_unit"}] *)
Record concentration : Type := {
  concentration_value : Q;
  concentration_unit : string
}.

(** [extract_concentration]: no handler around [float] here. *)
Definition extract_concentration (self : MetadataExtractor) (text : string)
  : result (option concentration) :=
  match findall concentration_pattern text with
  | [] => Ok None
  | m0 :: _ =>
      let* v := py_float (item_get m0 0) in
      Ok (Some {| concentration_value := v; concentration_unit := item_get m0 1 |})
  end.

(** The entries of [names] whose lower-case form occurs in the lower-case
    text, in the order of [names]; [None] when there is none. *)
Definition mentions (names : list string) (text : string) : option (list string) :=
  match List.filter (fun name => contains (lower text) (lower name)) names with
  | [] => None
  | found => Some found
  end.

(** [extract_microorganism] *)
Definition extract_microorganism (self : MetadataExtractor) (text : string)
  : option (list string) := mentions (microorganisms self) text.

(** The local list of [extract_conservant]. *)
Definition conservants_list : list string :=
  [ "benzoato"; "sorbato"; "nisina"; "extracto"; "aceite esencial";
    "essential oil"; "eugenol"; "carvacrol"; "timol";
    a_acute +:+ "cido s" +:+ o_acute +:+ "rbico";
    a_acute +:+ "cido benzoico" ].

(** [extract_conservant] *)
Definition extract_conservant (self : MetadataExtractor) (text : string)
  : option (list string) := mentions conservants_list text.

(** The dictionary stored under "extracted_metadata". *)
Record ExtractedMetadata : Type := {
  ph : option measure;
  aw : option measure;
  concentration_of : option concentration;
  microorganisms_of : option (list string);
  conservants_of : option (list string);
  has_numeric_data : bool
}.

(** [bool(x)] for an optional dictionary that is not empty when present. *)
Definition bool_of_option {A} (x : option A) : bool :=
  match x with Some _ => true | None => false end.

(** The metadata dictionary built from the text (lines 189-196): the six
    entries are evaluated in the order of the source, the concentration
    rule twice. *)
Definition extract_metadata (self : MetadataExtractor) (text : string)
  : result ExtractedMetadata :=
  let* v_ph := extract_ph_range self text in
  let* v_aw := extract_aw self text in
  let* v_conc := extract_concentration self text in
  let v_micro := extract_microorganism self text in
  let v_cons := extract_conservant self text in
  let* v_conc2 := extract_concentration self text in
  Ok {| ph := v_ph; aw := v_aw; concentration_of := v_conc;
        microorganisms_of := v_micro; conservants_of := v_cons;
        has_numeric_data := bool_of_option v_conc2 |}.

(** Values held by a chunk dictionary. *)
Inductive pyval : Type :=
| VStr (s : string)
| VInt (n : Z)
| VMeta (m : ExtractedMetadata).

(** A chunk dictionary. *)
Abbreviation chunk_dict := (gmap string pyval).

(** The objects of a run: the extractor and the store of chunk
    dictionaries, addressed by their position. *)
Record world : Type := {
  extractor : MetadataExtractor;
  store : list chunk_dict
}.

(** [extract_chunk_metadata(chunk)]: [chunk] is the address of the input
    dictionary. [chunk.get("content", "")] is read, the metadata is built
    and a new dictionary [{**chunk, "extracted_metadata": metadata}] is
    allocated; its address is returned. Searching a content that is not a
    string raises [TypeError]. *)
Definition extract_chunk_metadata (w : world) (chunk : nat) : result (nat * world) :=
  match store w !! chunk with
  | None => Raise TypeError
  | Some d =>
      match default (VStr "") (d !! "content") with
      | VStr text =>
          let* metadata := extract_metadata (extractor w) text in
          Ok (List.length (store w),
              {| extractor := extractor w;
                 store := store w ++ [ <["extracted_metadata" := VMeta metadata]> d ] |})
      | _ => Raise TypeError
      end
  end.

(** [process_chunks(chunks)]: the chunks are processed in order and the
    addresses of the new dictionaries collected. *)
Fixpoint process_chunks (w : world) (chunks : list nat) : result (list nat * world) :=
  match chunks with
  | [] => Ok ([], w)
  | chunk :: rest =>
      let* r := extract_chunk_metadata w chunk in
      let* rs := process_chunks (snd r) rest in
      Ok (fst r :: fst rs, snd rs)
  end.

(** The text of the extraction example. *)
Definition sample : string :=
  "pH 4.2 aW 0.97, 800 ppm Sodium Benzoate inhibits Zygosaccharomyces bailii".

(** The store after a successful call on the dictionary [d]. *)
Definition with_metadata (w : world) (d : chunk_dict) (m : ExtractedMetadata) : world :=
  {| extractor := extractor w;
     store := store w ++ [ <["extracted_metadata" := VMeta m]> d ] |}.

(** Two chunk dictionaries with the sample as content, and a world that
    holds them. *)
Definition sample_chunk_a : chunk_dict :=
  <["id" := VStr "a_chunk_0"]> {[ "content" := VStr sample ]}.

Definition sample_chunk_b : chunk_dict :=
  <["start_char" := VInt 7]>
    (<["id" := VStr "b_chunk_3"]> {[ "content" := VStr sample ]}).

Definition sample_world : world :=
  {| extractor := init; store := [sample_chunk_a; sample_chunk_b] |}.

End MetadataExtraction.
(** ** benchmark.py *)

Module Benchmark.
Import Py.

(** One retrieved document: the keys "id", "content" and
    "similarity_score" of the dictionaries that the retriever returns. *)
Record Retrieved : Type := {
  r_id : string;
  r_content : string;
  similarity_score : R
}.

(** [rid in relevant] *)
Definition is_relevant (relevant : list string) (rid : string) : bool :=
  existsb (String.eqb rid) relevant.

(** [sum(1 for rid in retrieved_ids if rid in relevant)] *)
Definition count_relevant (retrieved_ids relevant : list string) : Z :=
  llen (List.filter (is_relevant relevant) retrieved_ids).

(** [a / b] on two integers: true division, [ZeroDivisionError] on a zero
    divisor. *)
Definition truediv (a b : Z) : result R :=
  if b =? 0 then Raise ZeroDivisionError else Ok (IZR a / IZR b)%R.

(** [calculate_precision_at_k] *)
Definition calculate_precision_at_k (retrieved : list Retrieved)
    (relevant : list string) (k : Z) : result R :=
  let retrieved_ids := map r_id (slice_to retrieved k) in
  let relevant_retrieved := count_relevant retrieved_ids relevant in
  if 0 <? k then truediv relevant_retrieved k else Ok 0%R.

(** [calculate_recall_at_k] *)
Definition calculate_recall_at_k (retrieved : list Retrieved)
    (relevant : list string) (k : Z) : result R :=
  let retrieved_ids := map r_id (slice_to retrieved k) in
  let relevant_retrieved := count_relevant retrieved_ids relevant in
  if 0 <? llen relevant then truediv relevant_retrieved (llen relevant) else Ok 0%R.

(** The loop of [calculate_mrr] over [enumerate(retrieved, rank)]. *)
Fixpoint mrr_loop (rank : Z) (retrieved : list Retrieved) (relevant : list string)
  : result R :=
  match retrieved with
  | [] => Ok 0%R
  | result :: rest =>
      if is_relevant relevant (r_id result) then truediv 1 rank
      else mrr_loop (rank + 1) rest relevant
  end.

(** [calculate_mrr] *)
Definition calculate_mrr (retrieved : list Retrieved) (relevant : list string)
  : result R := mrr_loop 1 retrieved relevant.

(** [np.log2] *)
Definition np_log2 (x : R) : R := (ln x / ln 2)%R.

(** [1 / np.log2(rank + 1)] *)
Definition discount (rank : Z) : R := (1 / np_log2 (IZR (rank + 1)))%R.

(** The loop of [calculate_ndcg] that accumulates [dcg] over
    [enumerate(items, rank)]. *)
Fixpoint dcg_loop (dcg : R) (rank : Z) (items : list Retrieved)
    (relevant : list string) : R :=
  match items with
  | [] => dcg
  | result :: rest =>
      dcg_loop (if is_relevant relevant (r_id result)
                then (dcg + discount rank)%R else dcg)
               (rank + 1) rest relevant
  end.

(** [range(a, b)] *)
Definition py_range (a b : Z) : list Z :=
  map (fun i => a + Z.of_nat i) (seq 0 (Z.to_nat (b - a))).

(** [sum(...)] over floats *)
Definition py_sum (l : list R) : R := fold_left Rplus l 0%R.

(** The ideal DCG of [calculate_ndcg]. *)
Definition ideal_dcg (relevant : list string) (k : Z) : R :=
  py_sum (map discount (py_range 1 (Z.min (llen relevant) k + 1))).

(** [calculate_ndcg]; the divisions are numpy float divisions, which do not
    raise. *)
Definition calculate_ndcg (retrieved : list Retrieved) (relevant : list string)
    (k : Z) : R :=
  let dcg := dcg_loop 0%R 1 (slice_to retrieved k) relevant in
  let idcg := ideal_dcg relevant k in
  if Rlt_dec 0 idcg then (dcg / idcg)%R else 0%R.

(** [np.mean] of a list of floats. *)
Definition np_mean (l : list R) : R := (py_sum l / INR (List.length l))%R.

(** The metrics dictionary of one query. *)
Record MetricRecord : Type := {
  query : string;
  num_relevant : Z;
  num_retrieved : Z;
  precision_at_5 : R;
  precision_at_10 : R;
  recall_at_5 : R;
  recall_at_10 : R;
  mrr : R;
  ndcg_at_5 : R;
  ndcg_at_10 : R;
  avg_similarity_score : R
}.

(** The benchmark object: [self.retriever] (its [retrieve] method, taken as
    a function of the query and [n_results]) and [self.results]. *)
Record RAGBenchmark : Type := {
  retriever : string -> Z -> list Retrieved;
  results : list MetricRecord
}.

(** [RAGBenchmark.__init__] *)
Definition init (retriever : string -> Z -> list Retrieved) : RAGBenchmark :=
  {| retriever := retriever; results := [] |}.

(** [evaluate_query]: the record is appended to [self.results] and
    returned. *)
Definition evaluate_query (self : RAGBenchmark) (query : string)
    (relevant_ids : list string) (k : Z) : result (MetricRecord * RAGBenchmark) :=
  let retrieved := retriever self query (k * 2) in
  let* p5 := calculate_precision_at_k retrieved relevant_ids 5 in
  let* p10 := calculate_precision_at_k retrieved relevant_ids 10 in
  let* r5 := calculate_recall_at_k retrieved relevant_ids 5 in
  let* r10 := calculate_recall_at_k retrieved relevant_ids 10 in
  let* rr := calculate_mrr retrieved relevant_ids in
  let metrics :=
    {| query := query;
       num_relevant := llen relevant_ids;
       num_retrieved := llen retrieved;
       precision_at_5 := p5;
       precision_at_10 := p10;
       recall_at_5 := r5;
       recall_at_10 := r10;
       mrr := rr;
       ndcg_at_5 := calculate_ndcg retrieved relevant_ids 5;
       ndcg_at_10 := calculate_ndcg retrieved relevant_ids 10;
       avg_similarity_score :=
         match retrieved with
         | [] => 0%R
         | _ => np_mean (map similarity_score retrieved)
         end |} in
  Ok (metrics, {| retriever := retriever self; results := results self ++ [metrics] |}).

(** Values of the aggregate dictionary. *)
Inductive aggval : Type :=
| AInt (n : Z)
| AFloat (x : R)
| AStr (s : string).

(** Nearest integer, ties to the even one. *)
Definition round_half_even (x : R) : Z :=
  let n := Int_part x in
  let f := frac_part x in
  if Rlt_dec f (1 / 2) then n
  else if Rlt_dec (1 / 2) f then n + 1
  else if Z.even n then n else n + 1.

(** [round(x, ndigits)] on a float. *)
Definition py_round (x : R) (ndigits : Z) : R :=
  (IZR (round_half_even (x * IZR (10 ^ ndigits))) / IZR (10 ^ ndigits))%R.

(** The body of the rounding loop: floats are rounded to 4 digits, other
    values stay. *)
Definition round_if_float (v : aggval) : aggval :=
  match v with
  | AFloat x => AFloat (py_round x 4)
  | _ => v
  end.

(** [get_aggregated_metrics]: the returned dictionary, and the object as the
    call leaves it. *)
Definition get_aggregated_metrics (self : RAGBenchmark)
  : gmap string aggval * RAGBenchmark :=
  match results self with
  | [] => ({[ "error" := AStr "No results to aggregate" ]}, self)
  | rs =>
      let n_queries := llen rs in
      let aggregated : gmap string aggval :=
        <[ "avg_similarity_score" := AFloat (np_mean (map avg_similarity_score rs)) ]>
        (<[ "avg_ndcg_at_10" := AFloat (np_mean (map ndcg_at_10 rs)) ]>
        (<[ "avg_ndcg_at_5" := AFloat (np_mean (map ndcg_at_5 rs)) ]>
        (<[ "avg_mrr" := AFloat (np_mean (map mrr rs)) ]>
        (<[ "avg_recall_at_10" := AFloat (np_mean (map recall_at_10 rs)) ]>
        (<[ "avg_recall_at_5" := AFloat (np_mean (map recall_at_5 rs)) ]>
        (<[ "avg_precision_at_10" := AFloat (np_mean (map precision_at_10 rs)) ]>
        (<[ "avg_precision_at_5" := AFloat (np_mean (map precision_at_5 rs)) ]>
        {[ "total_queries" := AInt n_queries ]}))))))) in
      (round_if_float <$> aggregated, self)
  end.

(** The loop of [evaluate_multiple_queries]; [evaluate_query] is called
    with its default [k = 5]. *)
Fixpoint evaluate_all (self : RAGBenchmark)
    (query_relevance_pairs : list (string * list string)) : result RAGBenchmark :=
  match query_relevance_pairs with
  | [] => Ok self
  | (query, relevant_ids) :: rest =>
      let* r := evaluate_query self query relevant_ids 5 in
      evaluate_all (snd r) rest
  end.

(** [evaluate_multiple_queries] *)
Definition evaluate_multiple_queries (self : RAGBenchmark)
    (query_relevance_pairs : list (string * list string))
  : result (gmap string aggval * RAGBenchmark) :=
  let* self' := evaluate_all self query_relevance_pairs in
  Ok (get_aggregated_metrics self').

(** The gain of one retrieved item at a rank, and the DCG as the sum of the
    gains from a rank on; [dcg_loop] adds them up in this order. *)
Definition gain (relevant : list string) (rank : Z) (result : Retrieved) : R :=
  if is_relevant relevant (r_id result) then discount rank else 0%R.

Fixpoint dcg_sum (rank : Z) (items : list Retrieved) (relevant : list string) : R :=
  match items with
  | [] => 0%R
  | result :: rest => (gain relevant rank result + dcg_sum (rank + 1) rest relevant)%R
  end.

(** A retrieved document known by its id alone, for the examples. *)
Definition doc (rid : string) : Retrieved :=
  {| r_id := rid; r_content := ""; similarity_score := 0%R |}.

End Benchmark.
(** ** More Python primitives *)

Module PyMore.
Import Py.

(** The characters of [strip s]. *)
Definition strip_list (l : list ascii) : list ascii :=
  rev (lstrip_list (rev (lstrip_list l))).

(** [s[n:]] for a count [n] of characters. *)
Fixpoint drop (n : nat) (s : string) : string :=
  match n, s with
  | O, _ => s
  | S n', String _ r => drop n' r
  | S _, EmptyString => EmptyString
  end.

(** The scan of [str.replace] for a needle that is not empty: at an
    occurrence the replacement is written and the scan jumps over it,
    elsewhere one character is copied. *)
Fixpoint replace_loop (fuel : nat) (s old new : string) : string :=
  match fuel with
  | O => s
  | S fuel' =>
      if String.prefix old s
      then new +:+ replace_loop fuel' (drop (String.length old) s) old new
      else match s with
           | EmptyString => EmptyString
           | String c r => String c (replace_loop fuel' r old new)
           end
  end.

(** [new] written after every character, the way [replace] treats the
    empty needle. *)
Fixpoint interleave (s new : string) : string :=
  match s with
  | EmptyString => EmptyString
  | String c r => String c (new +:+ interleave r new)
  end.

(** [s.replace(old, new)]: every occurrence of [old], left to right and
    without overlap. *)
Definition replace (s old new : string) : string :=
  match old with
  | EmptyString => new +:+ interleave s new
  | _ => replace_loop (String.length s) s old new
  end.

(** [sep.join(items)] *)
Fixpoint join (sep : string) (items : list string) : string :=
  match items with
  | [] => ""
  | [x] => x
  | x :: rest => x +:+ sep +:+ join sep rest
  end.

End PyMore.

(** ** Vocabulary for the properties of the chunk sequence *)

Module ChunkingSpec.
Import Py Chunking.

(** The id that [chunk_text] gives to the chunk it emits as number [n]. *)
Definition nth_chunk_id (pre : string) (n : nat) : string :=
  pre +:+ "_chunk_" +:+ str_of_int (Z.of_nat n).

(** Chunks that follow one another from [lo] on: each one starts where the
    one before it ended, or later, and ends after its own start. *)
Fixpoint ordered_from (lo : Z) (l : list Chunk) : Prop :=
  match l with
  | [] => True
  | c :: r => lo <= start_char c /\ start_char c < end_char c /\ ordered_from (end_char c) r
  end.

(** The end of the last chunk, [lo] when there is none. *)
Fixpoint span_end (lo : Z) (l : list Chunk) : Z :=
  match l with
  | [] => lo
  | c :: r => span_end (end_char c) r
  end.

(** The character at offset [i] of a text, for [0 <= i < len(text)]. *)
Definition char_at (text : string) (i : Z) : option ascii :=
  if i <? 0 then None else nth_error (list_ascii_of_string text) (Z.to_nat i).

(** Offset [i] lies in the range of chunk [c]. *)
Definition covers (c : Chunk) (i : Z) : Prop := start_char c <= i < end_char c.

(** What every emitted chunk satisfies with respect to the text. *)
Definition well_formed_chunk (text : string) (c : Chunk) : Prop :=
  chunk_content c <> ""
  /\ chunk_content c = strip (slice text (start_char c) (end_char c))
  /\ chunk_length c = len (chunk_content c)
  /\ strip (chunk_content c) = chunk_content c.

(** The chunks are numbered as they come. *)
Definition numbered (pre : string) (st : loop_state) : Prop :=
  chunk_count st = llen (chunks st)
  /\ map chunk_id (chunks st)
     = map (nth_chunk_id pre) (seq 0 (List.length (chunks st))).

(** The offsets of a chunk cut from [text] with chunks of at most [size]
    characters. *)
Definition within_bounds (text : string) (size : Z) (c : Chunk) : Prop :=
  0 <= start_char c /\ start_char c < end_char c /\ end_char c <= len text
  /\ end_char c - start_char c <= size
  /\ chunk_length c <= size.

(** Every character before [upto] that is not white space lies in a chunk. *)
Definition covered_upto (text : string) (upto : Z) (l : list Chunk) : Prop :=
  forall (i : Z) (c : ascii),
    i < upto -> char_at text i = Some c -> is_space c = false ->
    Exists (fun ch => covers ch i) l.

(** The invariant of the loop of [chunk_text] when there is no overlap. *)
Definition tiling (self : DocumentChunker) (text : string) (st : loop_state) : Prop :=
  0 <= start st <= len text
  /\ ordered_from 0 (chunks st)
  /\ span_end 0 (chunks st) <= start st
  /\ Forall (within_bounds text (chunk_size self)) (chunks st)
  /\ covered_upto text (start st) (chunks st).

End ChunkingSpec.
(** ** chunking.py: documents and statistics *)

Module ChunkDocuments.
Import Py PyMore Chunking.

(** A loaded document: the keys "filename", "path", "content" and
    "metadata" of the dictionaries that the ingestion produces. *)
Record Document : Type := {
  filename : string;
  path : string;
  content : string;
  doc_metadata : gmap string string
}.

(** A chunk dictionary after [chunk.update(...)]: the chunk and the four
    keys "source_file", "source_path", "doc_title", "doc_author". *)
Record DocChunk : Type := {
  chunk : Chunk;
  source_file : string;
  source_path : string;
  doc_title : string;
  doc_author : string
}.

(** [doc["filename"].replace(".pdf", "")] *)
Definition doc_prefix (doc : Document) : string := replace (filename doc) ".pdf" "".

(** [chunk.update({...})] with the fields of [doc]. *)
Definition stamp (doc : Document) (c : Chunk) : DocChunk :=
  {| chunk := c;
     source_file := filename doc;
     source_path := path doc;
     doc_title := default "Unknown" (doc_metadata doc !! "title");
     doc_author := default "Unknown" (doc_metadata doc !! "author") |}.

(** The inner loop of [chunk_documents] over the chunks of one document. *)
Fixpoint stamp_loop (doc : Document) (doc_chunks : list Chunk)
    (all_chunks : list DocChunk) : list DocChunk :=
  match doc_chunks with
  | [] => all_chunks
  | c :: rest => stamp_loop doc rest (all_chunks ++ [stamp doc c])
  end.

(** The outer loop of [chunk_documents]; every call of [chunk_text] gets
    [fuel] iterations. *)
Fixpoint documents_loop (fuel : nat) (self : DocumentChunker)
    (documents : list Document) (all_chunks : list DocChunk)
  : option (list DocChunk) :=
  match documents with
  | [] => Some all_chunks
  | doc :: rest =>
      match chunk_text fuel self (content doc) (doc_prefix doc) with
      | None => None
      | Some doc_chunks =>
          documents_loop fuel self rest (stamp_loop doc doc_chunks all_chunks)
      end
  end.

(** [DocumentChunker.chunk_documents(documents)] *)
Definition chunk_documents (fuel : nat) (self : DocumentChunker)
    (documents : list Document) : option (list DocChunk) :=
  documents_loop fuel self documents [].

(** The chunks of one document, stamped. *)
Definition doc_chunks (fuel : nat) (self : DocumentChunker) (doc : Document)
  : option (list DocChunk) :=
  option_map (map (stamp doc)) (chunk_text fuel self (content doc) (doc_prefix doc)).

(** Fuel that lets the loop of [chunk_text] finish on every document when
    there is no overlap: the length of the longest content. *)
Definition enough_fuel (documents : list Document) : nat :=
  Z.to_nat (fold_right Z.max 0 (map (fun doc => len (content doc)) documents)).

(** Provenance of a stamped chunk: the fields of the document it was cut
    from, and a well-formed chunk of that document's content. *)
Definition cut_from (doc : Document) (dc : DocChunk) : Prop :=
  source_file dc = filename doc
  /\ source_path dc = path doc
  /\ doc_title dc = default "Unknown" (doc_metadata doc !! "title")
  /\ doc_author dc = default "Unknown" (doc_metadata doc !! "author")
  /\ ChunkingSpec.well_formed_chunk (content doc) (chunk dc)
  /\ exists n : nat, chunk_id (chunk dc) = ChunkingSpec.nth_chunk_id (doc_prefix doc) n.

(** Two documents for the examples: one with a title, one without content. *)
Definition report_doc : Document :=
  {| filename := "report.pdf"; path := "data/pdfs/report.pdf";
     content := "Sentence one. Sentence two.";
     doc_metadata := {[ "title" := "Report" ]} |}.

Definition blank_doc : Document :=
  {| filename := "blank.pdf"; path := "data/pdfs/blank.pdf";
     content := ""; doc_metadata := ∅ |}.

(** A second file with the same prefix as [report_doc]. *)
Definition report_copy : Document :=
  {| filename := "report.pdf.pdf"; path := "data/pdfs/report.pdf.pdf";
     content := "Another text."; doc_metadata := ∅ |}.

(** Values of the statistics dictionary. *)
Inductive statval : Type :=
| SInt (n : Z)
| SFloat (x : R).

(** [sum(...)] over integers *)
Definition sum_z (l : list Z) : Z := fold_left Z.add l 0.

(** [min(...)] and [max(...)] over a sequence with first item [x]. *)
Definition min_z (x : Z) (l : list Z) : Z := fold_left Z.min l x.
Definition max_z (x : Z) (l : list Z) : Z := fold_left Z.max l x.

(** [len(set(items))] *)
Definition count_distinct (items : list string) : Z :=
  Z.of_nat (size (list_to_set items : gset string)).

(** [chunk["length"]] of a stamped chunk. *)
Definition length_of (c : DocChunk) : Z := chunk_length (chunk c).

(** [DocumentChunker.get_stats(chunks)] *)
Definition get_stats (chunks : list DocChunk) : result (gmap string statval) :=
  match chunks with
  | [] => Ok (<["avg_chunk_size" := SInt 0]> {[ "total_chunks" := SInt 0 ]})
  | first :: others =>
      let total_chunks := llen chunks in
      let* avg_size := Benchmark.truediv (sum_z (map length_of chunks)) total_chunks in
      let min_size := min_z (length_of first) (map length_of others) in
      let max_size := max_z (length_of first) (map length_of others) in
      let unique_docs := count_distinct (map source_file chunks) in
      let* per_document :=
        (if 0 <? unique_docs
         then let* q := Benchmark.truediv total_chunks unique_docs in
              Ok (SFloat (Benchmark.py_round q 2))
         else Ok (SInt 0)) in
      Ok (<["chunks_per_document" := per_document]>
          (<["max_chunk_size" := SInt max_size]>
          (<["min_chunk_size" := SInt min_size]>
          (<["avg_chunk_size" := SFloat (Benchmark.py_round avg_size 2)]>
          (<["unique_documents" := SInt unique_docs]>
          {[ "total_chunks" := SInt total_chunks ]})))))
  end.

End ChunkDocuments.
(** ** Vocabulary for the properties of the metrics *)

Module BenchmarkSpec.
Import Py Benchmark.

(** The sum of the discounts of [h] consecutive ranks from [rank] on. *)
Fixpoint discount_sum (rank : Z) (h : nat) : R :=
  match h with
  | O => 0%R
  | S h' => (discount rank + discount_sum (rank + 1) h')%R
  end.

(** The number of relevant items of a list of retrieved items. *)
Definition hits (relevant : list string) (items : list Retrieved) : nat :=
  List.length (List.filter (fun r => is_relevant relevant (r_id r)) items).

(** The float entries of the aggregate dictionary: the key and the field
    of the records that it averages. *)
Definition aggregate_fields : list (string * (MetricRecord -> R)) :=
  [ ("avg_precision_at_5", precision_at_5);
    ("avg_precision_at_10", precision_at_10);
    ("avg_recall_at_5", recall_at_5);
    ("avg_recall_at_10", recall_at_10);
    ("avg_mrr", mrr);
    ("avg_ndcg_at_5", ndcg_at_5);
    ("avg_ndcg_at_10", ndcg_at_10);
    ("avg_similarity_score", avg_similarity_score) ].

(** A retriever for the examples: two documents whatever the query. *)
Definition two_docs (query : string) (n_results : Z) : list Retrieved :=
  [doc "a"; doc "x"].

End BenchmarkSpec.
(** ** Vocabulary for the properties of the extraction; text_extraction.py *)

Module ExtractionSpec.
Import Py Regex MetadataExtraction.




(** A water activity as the patterns allow it: from 0 to 1. The texts
    captured are below 1; [float] may round one with many nines up to 1. *)
Definition in_unit_interval (q : Q) : Prop := (0 <= q)%Q /\ (q <= 1)%Q.

Definition unit_interval_measure (m : measure) : Prop :=
  match m with
  | Value v => in_unit_interval v
  | Range lo hi => in_unit_interval lo /\ in_unit_interval hi
  end.

Definition nonnegative_measure (m : measure) : Prop :=
  match m with
  | Value v => (0 <= v)%Q
  | Range lo hi => (0 <= lo)%Q /\ (0 <= hi)%Q
  end.

(** A chunk dictionary that [extract_chunk_metadata] accepts in the store
    [w]: the address is valid and the content, when present, is a string. *)
Definition readable (w : world) (c : nat) : Prop :=
  exists (d : gmap string pyval) (text : string),
    store w !! c = Some d /\ default (VStr "") (d !! "content") = VStr text.

(** The dictionary at address [o] is the one at address [c] with the
    metadata of its content added. *)
Definition annotated (w w' : world) (c o : nat) : Prop :=
  exists (d : gmap string pyval) (text : string) (m : ExtractedMetadata),
    store w !! c = Some d
    /\ default (VStr "") (d !! "content") = VStr text
    /\ extract_metadata (extractor w) text = Ok m
    /\ store w' !! o = Some (<["extracted_metadata" := VMeta m]> d).

End ExtractionSpec.

Module TextExtraction.
Import Py Regex MetadataExtraction.

(** [[float(m) for m in items]] *)
Fixpoint floats_of (items : list findall_item) : result (list Q) :=
  match items with
  | [] => Ok []
  | m :: rest =>
      let* x := (match m with
                 | ItemStr s => py_float s
                 | ItemTuple _ => Raise TypeError
                 end) in
      let* xs := floats_of rest in
      Ok (x :: xs)
  end.

(** [TextExtractor.extract_numbers]: the pattern is the one that
    [MetadataExtractor] uses for a number, without group. *)
Definition extract_numbers (text : string) : result (list Q) :=
  floats_of (findall number text).

End TextExtraction.

(** ** vector_db_fixed.py: adding chunks to the collection *)

Module VectorDb.
Import Py PyMore Chunking ChunkDocuments MetadataExtraction.

(** A value of a metadata dictionary of the collection: the strings and
    integers that [add_chunks] stores, and the booleans that a filter of
    the retriever may hold. *)
Inductive meta_value : Type :=
| MStr (s : string)
| MInt (n : Z)
| MBool (b : bool).

Abbreviation metadata_dict := (gmap string meta_value).

(** A chunk as the pipeline hands it to [add_chunks]: the dictionary that
    [chunk_documents] built, with the key "extracted_metadata" when
    [process_chunks] has added it. On such a dictionary [str] and [int]
    return the string and the integer they are given. *)
Record StoredChunk : Type := {
  doc_chunk : DocChunk;
  extracted : option ExtractedMetadata
}.

(** [",".join(names[:3])] under the key [key], when [names] is a list that
    is not empty: [if extracted.get(key): ...]. *)
Definition add_names (key : string) (names : option (list string))
    (metadata : metadata_dict) : metadata_dict :=
  match names with
  | Some (n :: ns) => <[key := MStr (join "," (slice_to (n :: ns) 3))]> metadata
  | _ => metadata
  end.

(** [metadata[key] = "true"] when [found] is a dictionary. *)
Definition add_flag {A} (key : string) (found : option A)
    (metadata : metadata_dict) : metadata_dict :=
  if bool_of_option found then <[key := MStr "true"]> metadata else metadata.

(** The metadata that [add_chunks] prepares for one chunk. *)
Definition chunk_metadata (c : StoredChunk) : metadata_dict :=
  let metadata : metadata_dict :=
    <["chunk_length" := MInt (chunk_length (chunk (doc_chunk c)))]>
      (<["doc_title" := MStr (doc_title (doc_chunk c))]>
         (<["source_file" := MStr (source_file (doc_chunk c))]> ∅)) in
  match extracted c with
  | Some m =>
      add_names "conservants" (conservants_of m)
        (add_names "microorganisms" (microorganisms_of m)
           (add_flag "has_aw" (aw m) (add_flag "has_ph" (ph m) metadata)))
  | None => metadata
  end.

(** The items of [range(start, stop, step)] for a step that is not zero. *)
Fixpoint range_loop (fuel : nat) (i stop step : Z) : list Z :=
  match fuel with
  | O => []
  | S fuel' =>
      if (if 0 <? step then i <? stop else stop <? i)
      then i :: range_loop fuel' (i + step) stop step
      else []
  end.

(** [range(start, stop, step)]: [ValueError] on a zero step. The range
    holds at most [|stop - start|] items. *)
Definition py_range_step (start stop step : Z) : result (list Z) :=
  if step =? 0 then Raise ValueError
  else Ok (range_loop (Z.to_nat (Z.abs (stop - start))) start stop step).

Section AddChunks.

(** The two services that [add_chunks] calls. [encode contents] is
    [self.embedder.encode(contents).tolist()], [None] when it raises;
    [collection_add] gives the collection after the call of
    [self.collection.add], whether it returned or raised: the handler only
    prints. *)
Variable embedding : Type.
Variable encode : list string -> option (list embedding).
Variable collection : Type.
Variable collection_add :
  collection -> list string -> list embedding -> list string ->
  list metadata_dict -> collection.

(** The body of the loop of [add_chunks] for one batch. *)
Definition add_batch (col : collection) (batch : list StoredChunk) : collection :=
  let ids := map (fun c => chunk_id (chunk (doc_chunk c))) batch in
  let contents := map (fun c => chunk_content (chunk (doc_chunk c))) batch in
  let metadatas := map chunk_metadata batch in
  match encode contents with
  | None => col
  | Some embeddings_list => collection_add col ids embeddings_list contents metadatas
  end.

(** The batches of the loop, one for every item of the range. *)
Definition batch_at (chunks : list StoredChunk) (batch_size i : Z) : list StoredChunk :=
  lslice chunks i (i + batch_size).

(** [VectorDatabase.add_chunks(chunks, batch_size)], from the collection
    [col] to the collection after the call. *)
Definition add_chunks (col : collection) (chunks : list StoredChunk)
    (batch_size : Z) : result collection :=
  match chunks with
  | [] => Ok col
  | _ =>
      let total_chunks := llen chunks in
      let* starts := py_range_step 0 total_chunks batch_size in
      Ok (fold_left (fun col i => add_batch col (batch_at chunks batch_size i))
            starts col)
  end.

End AddChunks.

(** [(total_chunks + batch_size - 1) // batch_size], the number of batches
    that the progress line announces. *)
Definition total_batches (chunks : list StoredChunk) (batch_size : Z) : Z :=
  (llen chunks + batch_size - 1) / batch_size.

(** A chunk of a report, numbered [n], and simple stand-ins for the two
    services: lengths for embeddings, the list of the ids added for the
    collection. *)
Definition stored_sample (n : Z) (m : option ExtractedMetadata) : StoredChunk :=
  {| doc_chunk :=
       {| chunk := {| chunk_id := "report_chunk_" +:+ str_of_int n;
                      chunk_content := "Sentence.";
                      start_char := 0; end_char := 9; chunk_length := 9 |};
          source_file := "report.pdf"; source_path := "data/pdfs/report.pdf";
          doc_title := "Report"; doc_author := "Unknown" |};
     extracted := m |}.

Definition sample_encode (contents : list string) : option (list nat) :=
  Some (map String.length contents).

Definition sample_collection_add (col ids : list string) (embeddings : list nat)
    (documents : list string) (metadatas : list metadata_dict) : list string :=
  col ++ ids.

End VectorDb.

(** ** retriever.py *)

Module Retriever.
Import Py VectorDb.

(** One formatted result of [VectorDatabase.search]: the keys "id",
    "content", "metadata", "similarity_score" and "distance". The two
    scores are floats that are numbers. *)
Record SearchResult : Type := {
  result_id : string;
  result_content : string;
  metadata : metadata_dict;
  similarity_score : Q;
  distance : Q
}.

(** [a == b] on metadata values: strings with strings, and integers and
    booleans as numbers ([True == 1]). *)
Definition py_eq (a b : meta_value) : bool :=
  match a, b with
  | MStr s, MStr t => String.eqb s t
  | MInt n, MInt m => n =? m
  | MBool x, MBool y => Bool.eqb x y
  | MBool x, MInt n | MInt n, MBool x => (if x then 1 else 0) =? n
  | _, _ => false
  end.

(** The loop over [metadata_filter.items()] with its [break]: the value of
    [match] after the loop. *)
Fixpoint filter_loop (items : list (string * meta_value)) (md : metadata_dict) : bool :=
  match items with
  | [] => true
  | (key, value) :: rest =>
      match md !! key with
      | None => false
      | Some v => if negb (py_eq v value) then false else filter_loop rest md
      end
  end.

(** The loop over [all_results] of [retrieve_with_metadata]. *)
Fixpoint results_loop (all_results : list SearchResult)
    (metadata_filter : list (string * meta_value)) (filtered : list SearchResult)
  : list SearchResult :=
  match all_results with
  | [] => filtered
  | result :: rest =>
      results_loop rest metadata_filter
        (if filter_loop metadata_filter (metadata result)
         then filtered ++ [result] else filtered)
  end.

(** [r["metadata"].get("source_file") == source_file] *)
Definition from_source (source_file : string) (r : SearchResult) : bool :=
  match metadata r !! "source_file" with
  | Some v => py_eq v (MStr source_file)
  | None => false
  end.

Section SimpleRetriever.

(** [self.vector_db.search(query, n_results=...)]: the vector database is
    whatever was given to the constructor. *)
Variable search : string -> Z -> list SearchResult.

(** [SimpleRetriever.retrieve] *)
Definition retrieve (query : string) (n_results : Z) : list SearchResult :=
  search query n_results.

(** [SimpleRetriever.retrieve_with_threshold] *)
Definition retrieve_with_threshold (query : string) (threshold : Q) (n_results : Z)
  : list SearchResult :=
  List.filter (fun r => Qle_bool threshold (similarity_score r)) (search query n_results).

(** [SimpleRetriever.retrieve_by_source] *)
Definition retrieve_by_source (query source_file : string) (n_results : Z)
  : list SearchResult :=
  slice_to (List.filter (from_source source_file) (search query (n_results * 2)))
    n_results.

(** [SimpleRetriever.retrieve_with_metadata]; [metadata_filter] is the list
    of the items of the dictionary. *)
Definition retrieve_with_metadata (query : string)
    (metadata_filter : list (string * meta_value)) (n_results : Z)
  : list SearchResult :=
  slice_to (results_loop (search query (n_results * 3)) metadata_filter []) n_results.

End SimpleRetriever.

(** A result meets a condition of a filter: the key is there and its value
    is equal to the one asked for. *)
Definition meets (md : metadata_dict) (condition : string * meta_value) : Prop :=
  exists v, md !! fst condition = Some v /\ py_eq v (snd condition) = true.

(** A result meets all the conditions of a filter. *)
Definition satisfies (metadata_filter : list (string * meta_value))
    (r : SearchResult) : bool :=
  forallb (fun condition =>
             match metadata r !! fst condition with
             | Some v => py_eq v (snd condition)
             | None => false
             end) metadata_filter.

(** The metadata of a result is the one that [add_chunks] prepared for
    some chunk. *)
Definition stored_by_add_chunks (r : SearchResult) : Prop :=
  exists c, metadata r = chunk_metadata c.

(** What a metadata dictionary holds under a flag: nothing, or "true". *)
Definition flag_like (key : string) (md : metadata_dict) : Prop :=
  md !! key = None \/ md !! key = Some (MStr "true").

(** A search that finds one chunk in whose text a pH was read. *)
Definition sample_metadata : MetadataExtraction.ExtractedMetadata :=
  {| MetadataExtraction.ph := Some (MetadataExtraction.Value (21 # 5));
     MetadataExtraction.aw := None;
     MetadataExtraction.concentration_of := None;
     MetadataExtraction.microorganisms_of := Some ["Listeria"; "moho"];
     MetadataExtraction.conservants_of := None;
     MetadataExtraction.has_numeric_data := true |}.

Definition sample_search (query : string) (n_results : Z) : list SearchResult :=
  [ {| result_id := "report_chunk_0"; result_content := "Sentence.";
       metadata := chunk_metadata (stored_sample 0 (Some sample_metadata));
       similarity_score := 9 # 10; distance := 1 # 10 |} ].

End Retriever.

(** ** metadata_extraction.py: statistics *)

Module ExtractionStats.
Import Py MetadataExtraction ChunkDocuments.

(** [c.get("extracted_metadata", {})] as far as the four counts use it:
    the metadata record, nothing for the default [{}], and [None] when the
    value under the key is not a dictionary, on which [.get] raises
    [AttributeError]. *)
Definition extracted_metadata_of (c : chunk_dict) : option (option ExtractedMetadata) :=
  match c !! "extracted_metadata" with
  | None => Some None
  | Some (VMeta m) => Some (Some m)
  | Some _ => None
  end.

(** Truthiness of the four fields: a dictionary that is there is not
    empty, a list may be. *)
Definition has_ph (m : ExtractedMetadata) : bool := bool_of_option (ph m).
Definition has_aw (m : ExtractedMetadata) : bool := bool_of_option (aw m).
Definition has_names (names : option (list string)) : bool :=
  match names with Some (_ :: _) => true | _ => false end.
Definition has_microorganisms (m : ExtractedMetadata) : bool :=
  has_names (microorganisms_of m).
Definition has_conservants (m : ExtractedMetadata) : bool :=
  has_names (conservants_of m).

(** [sum(1 for c in chunks if c.get("extracted_metadata", {}).get(field))];
    [None] when a [.get] raises. *)
Fixpoint count_with (field : ExtractedMetadata -> bool) (chunks : list chunk_dict)
  : option Z :=
  match chunks with
  | [] => Some 0
  | c :: rest =>
      match extracted_metadata_of c with
      | None => None
      | Some e =>
          match count_with field rest with
          | None => None
          | Some n =>
              Some ((if match e with Some m => field m | None => false end
                     then 1 else 0) + n)
          end
      end
  end.

(** [MetadataExtractor.get_stats(chunks)]; [None] for the
    [AttributeError]. *)
Definition get_stats (chunks : list chunk_dict) : option (gmap string statval) :=
  match count_with has_ph chunks, count_with has_aw chunks,
        count_with has_microorganisms chunks, count_with has_conservants chunks with
  | Some chunks_with_ph, Some chunks_with_aw,
    Some chunks_with_microorg, Some chunks_with_conservants =>
      Some (<["metadata_coverage_pct" :=
                match chunks with
                | [] => SInt 0
                | _ => SFloat (Benchmark.py_round
                                 (IZR (chunks_with_ph + chunks_with_aw
                                       + chunks_with_microorg + chunks_with_conservants)
                                  / IZR (llen chunks * 4) * 100) 2)
                end]>
            (<["chunks_with_conservants" := SInt chunks_with_conservants]>
            (<["chunks_with_microorganisms" := SInt chunks_with_microorg]>
            (<["chunks_with_aw" := SInt chunks_with_aw]>
            (<["chunks_with_ph" := SInt chunks_with_ph]>
            {[ "total_chunks" := SInt (llen chunks) ]})))))
  | _, _, _, _ => None
  end.

(** The value under "extracted_metadata", when there is one, is a metadata
    dictionary. *)
Definition carries_metadata (c : chunk_dict) : Prop :=
  c !! "extracted_metadata" = None
  \/ exists m, c !! "extracted_metadata" = Some (VMeta m).

(** The keys of the four counts. *)
Definition count_keys : list string :=
  [ "chunks_with_ph"; "chunks_with_aw"; "chunks_with_microorganisms";
    "chunks_with_conservants" ].

End ExtractionStats.
(** ** Facts about the Python primitives *)

Module PyFacts.
Import Py.

Lemma len_nonneg (s : string) : 0 <= len s.
Proof. unfold len. lia. Qed.

Lemma len_empty_iff (s : string) : len s = 0 <-> s = "".
Proof.
  unfold len. destruct s as [|c r]; simpl; split; intros H;
    try reflexivity; try discriminate; lia.
Qed.

Lemma len_pos_iff (s : string) : 0 < len s <-> s <> "".
Proof.
  pose proof (len_nonneg s) as Hn. pose proof (len_empty_iff s) as [H1 H2].
  split.
  - intros Hp Heq. apply H2 in Heq. lia.
  - intros Hne. destruct (Z.eq_dec (len s) 0) as [E|E]; [now apply H1 in E | lia].
Qed.

Lemma length_list_ascii_of_string (s : string) :
  List.length (list_ascii_of_string s) = String.length s.
Proof. induction s as [|c r IH]; simpl; congruence. Qed.

Lemma last_index_lt (c : ascii) (l : list ascii) (i : nat) :
  last_index c l = Some i -> (i < List.length l)%nat.
Proof.
  revert i. induction l as [|x r IH]; simpl; intros i H; [discriminate|].
  destruct (last_index c r) as [j|] eqn:E.
  - injection H as <-. specialize (IH j eq_refl). lia.
  - destruct (Ascii.eqb x c); [injection H as <-; lia | discriminate].
Qed.

(** Whatever the bounds, [rfind] answers -1 or an index of the string. *)
Lemma rfind_upper (s : string) (c : ascii) (a b : Z) :
  rfind s c a b + 1 <= len s.
Proof.
  pose proof (len_nonneg s) as Hn. unfold rfind.
  set (n := len s) in *.
  set (e := if n <? b then n else if b <? 0 then Z.max 0 (b + n) else b).
  set (lo := if a <? 0 then Z.max 0 (a + n) else a).
  assert (He : e <= n).
  { subst e. destruct (Z.ltb_spec n b) as [E1|E1]; [lia|].
    destruct (Z.ltb_spec b 0) as [E2|E2]; lia. }
  destruct (Z.ltb_spec (e - lo) 1) as [E|E]; [lia|].
  destruct (last_index c _) as [i|] eqn:Hi; [|lia].
  apply last_index_lt in Hi.
  pose proof (firstn_le_length (Z.to_nat (e - lo))
                (skipn (Z.to_nat lo) (list_ascii_of_string s))) as Hf.
  lia.
Qed.

(** The whole list is the slice from 0 to its length. *)
Lemma lslice_whole {A} (l : list A) : lslice l 0 (Z.of_nat (List.length l)) = l.
Proof.
  unfold lslice, adjust_index.
  set (n := Z.of_nat (List.length l)).
  assert (Hn : 0 <= n) by (subst n; lia).
  replace (0 <? 0) with false by reflexivity.
  destruct (Z.ltb_spec n 0) as [E|E]; [lia|].
  replace (Z.min 0 n) with 0 by lia.
  replace (Z.min n n) with n by lia.
  replace (Z.to_nat 0) with 0%nat by reflexivity. simpl skipn.
  replace (Z.to_nat (n - 0)) with (List.length l) by (subst n; lia).
  apply firstn_all.
Qed.

Lemma slice_whole (s : string) : slice s 0 (len s) = s.
Proof.
  unfold slice, len. rewrite <- length_list_ascii_of_string, lslice_whole.
  apply string_of_list_ascii_of_string.
Qed.

End PyFacts.

Module ChunkingExamples.
Import Py Chunking.

Example ex_empty : chunk_text 0 init_default "" "doc" = Some [].
Proof. reflexivity. Qed.

Example ex_hello_no_overlap :
  chunk_text 3 (init 10 0) "hello" "doc"
  = Some [ {| chunk_id := "doc_chunk_0"; chunk_content := "hello";
              start_char := 0; end_char := 5; chunk_length := 5 |} ].
Proof. vm_compute. reflexivity. Qed.

Example ex_hello_overlap : chunk_text 50 (init 10 2) "hello" "doc" = None.
Proof. vm_compute. reflexivity. Qed.

Example ex_sentences :
  option_map (map chunk_content)
    (chunk_text 20 (init 16 0) "Sentence one. Sentence two. Sentence three." "d")
  = Some ["Sentence one."; "Sentence two."; "Sentence three."].
Proof. vm_compute. reflexivity. Qed.

End ChunkingExamples.

(** ** Properties of chunking.py *)

Module ChunkingProofs.
Import Py PyFacts Chunking.

(** The slice end chosen by an iteration never passes the end of the text. *)
Lemma choose_end_le_len (self : DocumentChunker) (text : string) (s : Z) :
  choose_end self text s <= len text.
Proof.
  unfold choose_end.
  pose proof (rfind_upper text period s (Z.min (s + chunk_size self) (len text))).
  pose proof (rfind_upper text newline s (Z.min (s + chunk_size self) (len text))).
  destruct (Z.ltb_spec (Z.min (s + chunk_size self) (len text)) (len text)); [|lia].
  destruct (s <? rfind text period _ _); [lia|].
  destruct (s <? rfind text newline _ _); lia.
Qed.

(** With a positive chunk size the chosen end lies after the cursor. *)
Lemma choose_end_gt_start (self : DocumentChunker) (text : string) (s : Z) :
  0 < chunk_size self -> s < len text -> s < choose_end self text s.
Proof.
  intros Hc Hs. unfold choose_end.
  destruct (Z.ltb_spec (Z.min (s + chunk_size self) (len text)) (len text)); [|lia].
  destruct (Z.ltb_spec s (rfind text period s (Z.min (s + chunk_size self) (len text))));
    [lia|].
  destruct (Z.ltb_spec s (rfind text newline s (Z.min (s + chunk_size self) (len text))));
    lia.
Qed.

Lemma start_loop_body (self : DocumentChunker) (text pre : string) (st : loop_state) :
  start (loop_body self text pre st) = choose_end self text (start st) - overlap self.
Proof. reflexivity. Qed.

(** Once the loop is entered with a positive overlap, the guard holds for
    ever: every iteration leaves the cursor before the end of the text. *)
Lemma while_loop_never_exits (self : DocumentChunker) (text pre : string) :
  1 <= overlap self ->
  forall (fuel : nat) (st : loop_state),
    start st < len text -> while_loop fuel self text pre st = None.
Proof.
  intros Hov. induction fuel as [|fuel IH]; intros st Hst; simpl.
  - destruct (Z.ltb_spec (start st) (len text)); [reflexivity | lia].
  - destruct (Z.ltb_spec (start st) (len text)); [|lia].
    apply IH. rewrite start_loop_body.
    pose proof (choose_end_le_len self text (start st)). lia.
Qed.

(** The same fact on the iterates of the body. *)
Lemma guard_holds_after_iterations (self : DocumentChunker) (text pre : string) :
  1 <= overlap self ->
  forall (n : nat) (st : loop_state),
    start st < len text -> start (iterate n self text pre st) < len text.
Proof.
  intros Hov. induction n as [|n IH]; intros st Hst; simpl; [exact Hst|].
  apply IH. rewrite start_loop_body.
  pose proof (choose_end_le_len self text (start st)). lia.
Qed.

(** Without overlap the cursor moves forward at every iteration, and the
    loop ends within [len text] iterations. *)
Lemma while_loop_terminates_no_overlap (self : DocumentChunker) (text pre : string) :
  0 < chunk_size self -> overlap self = 0 ->
  forall (fuel : nat) (st : loop_state),
    len text - start st <= Z.of_nat fuel ->
    exists st', while_loop fuel self text pre st = Some st'.
Proof.
  intros Hc Hov. induction fuel as [|fuel IH]; intros st Hm; simpl.
  - destruct (Z.ltb_spec (start st) (len text)); [lia | eauto].
  - destruct (Z.ltb_spec (start st) (len text)); [|eauto].
    apply IH. rewrite start_loop_body, Hov.
    pose proof (choose_end_gt_start self text (start st) Hc). lia.
Qed.

(** So [chunk_text] returns for every text when the overlap is 0. *)
Lemma chunk_text_returns_no_overlap (self : DocumentChunker) (text pre : string) :
  0 < chunk_size self -> overlap self = 0 ->
  exists l, chunk_text (Z.to_nat (len text)) self text pre = Some l.
Proof.
  intros Hc Hov.
  destruct (while_loop_terminates_no_overlap self text pre Hc Hov
              (Z.to_nat (len text)) initial_state) as [st' E].
  - simpl. pose proof (len_nonneg text). lia.
  - exists (chunks st'). unfold chunk_text. now rewrite E.
Qed.

Lemma chunk_text_empty (self : DocumentChunker) (pre : string) (fuel : nat) :
  chunk_text fuel self "" pre = Some [].
Proof. destruct fuel; reflexivity. Qed.

(** A text shorter than the chunk size is taken whole by the first
    iteration. *)
Lemma choose_end_short (self : DocumentChunker) (text : string) :
  len text < chunk_size self -> choose_end self text 0 = len text.
Proof.
  intros H. unfold choose_end.
  rewrite Z.min_r by lia. now rewrite Z.ltb_irrefl.
Qed.

Lemma while_loop_exit (self : DocumentChunker) (text pre : string)
    (fuel : nat) (st : loop_state) :
  len text <= start st -> while_loop fuel self text pre st = Some st.
Proof.
  intros H. destruct fuel; simpl;
    destruct (Z.ltb_spec (start st) (len text)); (reflexivity || lia).
Qed.

Lemma chunk_text_diverges (self : DocumentChunker) (text pre : string) (fuel : nat) :
  1 <= overlap self -> text <> "" -> chunk_text fuel self text pre = None.
Proof.
  intros Hov Hne. unfold chunk_text.
  rewrite (while_loop_never_exits self text pre Hov fuel initial_state);
    [reflexivity|].
  simpl. now apply len_pos_iff.
Qed.

Lemma chunk_text_short_no_overlap (self : DocumentChunker) (text pre : string)
    (fuel : nat) :
  overlap self = 0 -> text <> "" -> len text < chunk_size self ->
  chunk_text (S fuel) self text pre
  = Some (if truthy (strip text) then [whole_text_chunk text pre] else []).
Proof.
  intros Hov Hne Hlt. apply len_pos_iff in Hne.
  unfold chunk_text. simpl while_loop.
  destruct (Z.ltb_spec 0 (len text)) as [_|]; [|lia].
  rewrite while_loop_exit.
  - unfold loop_body. simpl start. rewrite choose_end_short by assumption.
    rewrite slice_whole. simpl.
    destruct (truthy (strip text)); reflexivity.
  - rewrite start_loop_body. simpl start.
    rewrite choose_end_short by assumption. lia.
Qed.

(** C1. Under a configuration that satisfies the precondition
    (chunk_size > 0 and 0 <= overlap < chunk_size) the loop of [chunk_text]
    does not terminate as soon as the overlap is positive and the text is
    not empty: the last slice ends at [len(text)], the cursor is set back
    to [len(text) - overlap] and the guard [start < len(text)] holds again,
    for ever. Whatever the fuel, no chunk sequence is returned. *)
Theorem chunk_text_never_returns_with_overlap
    (self : DocumentChunker) (text pre : string) (fuel : nat) :
  0 < chunk_size self -> 0 < overlap self < chunk_size self -> text <> "" ->
  chunk_text fuel self text pre = None.
Proof.
  intros _ Hov Hne. apply chunk_text_diverges; [lia | exact Hne].
Qed.

Lemma chunk_text_never_returns_with_overlap_witness :
  (0 < chunk_size (init 10 2)
   /\ 0 < overlap (init 10 2) < chunk_size (init 10 2)
   /\ "hello" <> "")
  /\ chunk_text 1000 (init 10 2) "hello" "doc" = None.
Proof.
  assert (H1 : 0 < chunk_size (init 10 2)) by (simpl; lia).
  assert (H2 : 0 < overlap (init 10 2) < chunk_size (init 10 2)) by (simpl; lia).
  assert (H3 : "hello" <> "") by discriminate.
  split; [auto|].
  exact (chunk_text_never_returns_with_overlap (init 10 2) "hello" "doc" 1000 H1 H2 H3).
Defined.






(** C6, as the code behaves. The empty text gives the empty chunk sequence
    under every configuration. A text that is not empty and shorter than
    chunk_size, segmented without overlap, is consumed by one iteration:
    when it holds a character that is not white space the result is exactly
    one chunk, numbered 0, from offset 0 to [len(text)], whose content is
    the text with its leading and trailing white space removed; when it
    holds white space only, no chunk is emitted. *)
Theorem chunk_text_edge_cases :
  (forall (self : DocumentChunker) (pre : string) (fuel : nat),
      chunk_text fuel self "" pre = Some [])
  /\ (forall (self : DocumentChunker) (text pre : string) (fuel : nat),
        0 < chunk_size self -> overlap self = 0 ->
        text <> "" -> len text < chunk_size self ->
        chunk_text (S fuel) self text pre
        = Some (if truthy (strip text)
                then [ {| chunk_id := pre +:+ "_chunk_0";
                          chunk_content := strip text;
                          start_char := 0;
                          end_char := len text;
                          chunk_length := len (strip text) |} ]
                else [])).
Proof.
  split.
  - intros. apply chunk_text_empty.
  - intros self text pre fuel _ Hov Hne Hlt.
    now apply chunk_text_short_no_overlap.
Qed.

Lemma chunk_text_edge_cases_witness :
  (0 < chunk_size (init 10 0) /\ overlap (init 10 0) = 0
   /\ " hello " <> "" /\ len " hello " < chunk_size (init 10 0))
  /\ chunk_text 1 (init 10 0) " hello " "doc"
     = Some [ {| chunk_id := "doc_chunk_0"; chunk_content := "hello";
                 start_char := 0; end_char := 7; chunk_length := 5 |} ].
Proof.
  assert (H1 : 0 < chunk_size (init 10 0)) by (simpl; lia).
  assert (H2 : overlap (init 10 0) = 0) by reflexivity.
  assert (H3 : " hello " <> "") by discriminate.
  assert (H4 : len " hello " < chunk_size (init 10 0)) by (vm_compute; reflexivity).
  split; [auto|].
  exact (proj2 chunk_text_edge_cases (init 10 0) " hello " "doc" 0%nat H1 H2 H3 H4).
Defined.

(** C6 as stated fails: a text made of one space is not empty and shorter
    than chunk_size = 10, the configuration (10, 0) satisfies the
    precondition, and no chunk is returned. *)
Lemma chunk_text_blank_text_no_chunk :
  (0 < chunk_size (init 10 0)
   /\ 0 <= overlap (init 10 0) < chunk_size (init 10 0)
   /\ " " <> "" /\ len " " < chunk_size (init 10 0))
  /\ chunk_text 1 (init 10 0) " " "doc" = Some []
  /\ ~ (exists (fuel : nat) (c : Chunk),
           chunk_text fuel (init 10 0) " " "doc" = Some [c]).
Proof.
  split; [|split].
  - repeat split; (simpl; lia) || discriminate || (vm_compute; reflexivity).
  - vm_compute. reflexivity.
  - intros [fuel [c H]]. destruct fuel as [|fuel].
    + vm_compute in H. discriminate.
    + rewrite chunk_text_short_no_overlap in H;
        [ vm_compute in H; discriminate | reflexivity | discriminate
        | vm_compute; reflexivity ].
Qed.

End ChunkingProofs.
(** ** Soundness of the matcher *)

Module RegexProofs.
Import Py Regex.

Lemma extends_refl (ids : list nat) (cs : caps) : extends ids cs cs.
Proof. exists []. split; [reflexivity | constructor]. Qed.

Lemma extends_trans (ids : list nat) (cs1 cs2 cs3 : caps) :
  extends ids cs1 cs2 -> extends ids cs2 cs3 -> extends ids cs1 cs3.
Proof.
  intros [a1 [-> F1]] [a2 [-> F2]]. exists (a2 ++ a1). split.
  - now rewrite app_assoc.
  - apply Forall_app. now split.
Qed.

Lemma extends_mono (ids ids' : list nat) (cs cs1 : caps) :
  (forall n, In n ids -> In n ids') -> extends ids cs cs1 -> extends ids' cs cs1.
Proof.
  intros H [a [-> F]]. exists a. split; [reflexivity|].
  eapply List.Forall_impl; [|exact F]. intros b Hb. now apply H.
Qed.

Lemma extends_cons (ids : list nat) (n : nat) (t : list ascii) (cs cs1 : caps) :
  In n ids -> extends ids cs cs1 -> extends ids cs ((n, t) :: cs1).
Proof.
  intros Hn [a [-> F]]. exists ((n, t) :: a). split; [reflexivity|].
  constructor; [exact Hn | exact F].
Qed.

(** What a successful run of a matcher means: it consumed a text [t]
    with property [P], added bindings for groups in [ids] only, and the
    continuation succeeded on the rest. *)
Definition sound_for {X} (P : list ascii -> Prop) (ids : list nat)
    (m : list ascii -> caps -> cont X -> option X) : Prop :=
  forall s cs k x,
    m s cs k = Some x ->
    exists t s1 cs1,
      s = t ++ s1 /\ P t /\ extends ids cs cs1 /\ k s1 cs1 = Some x.

Lemma star_loop_sound {X} (P : list ascii -> Prop) (ids : list nat)
    (m : list ascii -> caps -> cont X -> option X) :
  sound_for P ids m ->
  forall fuel,
    sound_for (fun t => exists ts, t = concat ts /\ Forall P ts) ids
      (star_loop m fuel).
Proof.
  intros Hm. induction fuel as [|fuel IH]; intros s cs k x H; simpl in H.
  - exists [], s, cs. repeat split; [|apply extends_refl|exact H].
    exists []. split; [reflexivity | constructor].
  - destruct (m s cs _) as [y|] eqn:E.
    + injection H as <-. apply Hm in E.
      destruct E as [t [s1 [cs1 [-> [Pt [Ext Hk]]]]]].
      destruct (List.length s1 <? List.length (t ++ s1))%nat; [|discriminate].
      apply IH in Hk. destruct Hk as [t' [s2 [cs2 [-> [[ts [-> Fts]] [Ext' Hk]]]]]].
      exists (t ++ concat ts), s2, cs2. repeat split.
      * now rewrite app_assoc.
      * exists (t :: ts). split; [reflexivity | now constructor].
      * eapply extends_trans; eassumption.
      * exact Hk.
    + exists [], s, cs. repeat split; [|apply extends_refl|exact H].
      exists []. split; [reflexivity | constructor].
Qed.

(** Soundness of [rmatch]: the text consumed belongs to the language of
    the pattern and the bindings added are for its own groups. *)
Lemma rmatch_sound {X} (r : regex) :
  sound_for (lang r) (group_ids r) (@rmatch X r).
Proof.
  induction r as [|n| | |r1 IH1 r2 IH2|r1 IH1 r2 IH2|r1 IH1|r1 IH1|r1 IH1|n r1 IH1];
    intros s cs k x H.
  - exists [], s, cs. repeat split; [apply extends_refl | exact H].
  - simpl in H. destruct s as [|c s']; [discriminate|].
    destruct (ci_eq n c) eqn:E; [|discriminate].
    exists [c], s', cs. repeat split; [now exists c | apply extends_refl | exact H].
  - simpl in H. destruct s as [|c s']; [discriminate|].
    destruct (is_digit c) eqn:E; [|discriminate].
    exists [c], s', cs. repeat split; [now exists c | apply extends_refl | exact H].
  - simpl in H. destruct s as [|c s']; [discriminate|].
    destruct (is_space c) eqn:E; [|discriminate].
    exists [c], s', cs. repeat split; [now exists c | apply extends_refl | exact H].
  - simpl in H. apply IH1 in H. destruct H as [t1 [s1 [cs1 [-> [L1 [E1 H]]]]]].
    apply IH2 in H. destruct H as [t2 [s2 [cs2 [-> [L2 [E2 H]]]]]].
    exists (t1 ++ t2), s2, cs2. repeat split.
    + now rewrite app_assoc.
    + simpl. now exists t1, t2.
    + simpl. eapply extends_trans.
      * eapply extends_mono; [|exact E1]. intros; apply in_or_app; now left.
      * eapply extends_mono; [|exact E2]. intros; apply in_or_app; now right.
    + exact H.
  - simpl in H. destruct (rmatch r1 s cs k) as [y|] eqn:E.
    + injection H as <-. apply IH1 in E.
      destruct E as [t [s1 [cs1 [-> [L [Ex Hk]]]]]].
      exists t, s1, cs1. repeat split; [now left | | exact Hk].
      simpl. eapply extends_mono; [|exact Ex]. intros; apply in_or_app; now left.
    + apply IH2 in H. destruct H as [t [s1 [cs1 [-> [L [Ex Hk]]]]]].
      exists t, s1, cs1. repeat split; [now right | | exact Hk].
      simpl. eapply extends_mono; [|exact Ex]. intros; apply in_or_app; now right.
  - simpl in H. destruct (rmatch r1 s cs k) as [y|] eqn:E.
    + injection H as <-. apply IH1 in E.
      destruct E as [t [s1 [cs1 [-> [L [Ex Hk]]]]]].
      exists t, s1, cs1. repeat split; [now right | exact Ex | exact Hk].
    + exists [], s, cs. repeat split; [now left | apply extends_refl | exact H].
  - change (star_loop (rmatch r1) (S (List.length s)) s cs k = Some x) in H.
    apply (star_loop_sound _ _ _ IH1) in H. exact H.
  - change (rmatch r1 s cs
              (fun s1 cs1 => star_loop (rmatch r1) (S (List.length s1)) s1 cs1 k)
            = Some x) in H.
    apply IH1 in H. destruct H as [t1 [s1 [cs1 [-> [L1 [E1 H]]]]]].
    apply (star_loop_sound _ _ _ IH1) in H.
    destruct H as [t2 [s2 [cs2 [-> [[ts [-> Fts]] [E2 H]]]]]].
    exists (t1 ++ concat ts), s2, cs2. repeat split.
    + now rewrite app_assoc.
    + simpl. now exists t1, ts.
    + eapply extends_trans; eassumption.
    + exact H.
  - simpl in H. apply IH1 in H. destruct H as [t [s1 [cs1 [-> [L [Ex Hk]]]]]].
    exists t, s1, ((n, firstn (List.length (t ++ s1) - List.length s1) (t ++ s1)) :: cs1).
    repeat split.
    + exact L.
    + simpl. apply extends_cons; [now left|].
      eapply extends_mono; [|exact Ex]. intros; now right.
    + exact Hk.
Qed.

End RegexProofs.
(** ** Properties of metadata_extraction.py *)

Module ExtractionProofs.
Import Py Regex RegexProofs MetadataExtraction.

Lemma firstn_consumed (t s1 : list ascii) :
  firstn (List.length (t ++ s1) - List.length s1) (t ++ s1) = t.
Proof.
  rewrite length_app.
  replace (List.length t + List.length s1 - List.length s1)%nat
    with (List.length t + 0)%nat by lia.
  rewrite firstn_app_2. simpl. apply app_nil_r.
Qed.

(** Every element of a [findall] result comes from a successful match. *)
Lemma findall_list_items (r : regex) (it : findall_item) :
  forall (fuel : nat) (s : list ascii),
    In it (findall_list fuel r s) ->
    exists s0 s1 cs1,
      rmatch r s0 [] (fun a b => Some (a, b)) = Some (s1, cs1)
      /\ it = item_of r (firstn (List.length s0 - List.length s1) s0) cs1.
Proof.
  induction fuel as [|fuel IH]; intros s H; simpl in H; [contradiction|].
  destruct (rmatch r s [] _) as [[s1 cs1]|] eqn:E.
  - destruct H as [<-|H]; [now exists s, s1, cs1|].
    destruct (List.length s1 <? List.length s)%nat; [now apply IH in H|].
    destruct s as [|c t]; [contradiction | now apply IH in H].
  - destruct s as [|c t]; [contradiction | now apply IH in H].
Qed.

Lemma digit_not_period (c : ascii) : is_digit c = true -> Ascii.eqb c "." = false.
Proof.
  intros H. destruct (Ascii.eqb_spec c "."%char) as [->|]; [discriminate H | reflexivity].
Qed.

Lemma period_literal (c : ascii) : ci_eq (N_of_ascii ".") c = true -> c = "."%char.
Proof.
  destruct c as [[] [] [] [] [] [] [] []]; intros H;
    (reflexivity || (vm_compute in H; discriminate H)).
Qed.

Lemma digits_value_total (l : list ascii) :
  forallb is_digit l = true -> forall acc, exists v, digits_value acc l = Some v.
Proof.
  induction l as [|c l IH]; intros H acc; simpl; [eauto|].
  simpl in H. apply andb_true_iff in H as [Hc Hl].
  rewrite Hc. now apply IH.
Qed.

Lemma split_period_digits (l rest : list ascii) :
  forallb is_digit l = true ->
  split_period (l ++ rest) = (l ++ fst (split_period rest), snd (split_period rest)).
Proof.
  induction l as [|c l IH]; intros H; simpl.
  - now destruct (split_period rest).
  - simpl in H. apply andb_true_iff in H as [Hc Hl].
    rewrite (digit_not_period c Hc), (IH Hl). reflexivity.
Qed.

Lemma digits_of_runs (ts : list (list ascii)) :
  Forall (lang Digit) ts -> forallb is_digit (concat ts) = true.
Proof.
  induction 1 as [|t ts [c [-> Hc]] _ IH]; simpl; [reflexivity|].
  now rewrite Hc, IH.
Qed.

(** A text matched by [number]: digits, at least one, then possibly a
    period, then digits. *)
Lemma number_shape (t : list ascii) :
  lang number t ->
  exists d1 d2,
    d1 <> [] /\ forallb is_digit d1 = true /\ forallb is_digit d2 = true
    /\ (t = d1 ++ d2 \/ t = d1 ++ "."%char :: d2).
Proof.
  intros [t1 [t23 [-> [[d [ds [-> [[c [-> Hc]] Fds]]]] [t2 [t3 [-> [Hopt [ts [-> Fts]]]]]]]]]].
  apply digits_of_runs in Fds. apply digits_of_runs in Fts.
  exists ([c] ++ concat ds), (concat ts). split; [discriminate|].
  split; [simpl; now rewrite Hc, Fds|]. split; [exact Fts|].
  destruct Hopt as [->|[p [-> Hp]]]; [now left|].
  apply period_literal in Hp. subst p. now right.
Qed.

Lemma split_period_no_period (d : list ascii) :
  forallb is_digit d = true -> split_period d = (d, None).
Proof.
  intros H. pose proof (split_period_digits d [] H) as E.
  rewrite app_nil_r in E. simpl in E. now rewrite app_nil_r in E.
Qed.

Lemma py_float_digits (d1 d2 : list ascii) :
  d1 <> [] -> forallb is_digit d1 = true -> forallb is_digit d2 = true ->
  (exists q, py_float (string_of_list_ascii (d1 ++ d2)) = Ok q)
  /\ (exists q, py_float (string_of_list_ascii (d1 ++ "."%char :: d2)) = Ok q).
Proof.
  intros Hne H1 H2.
  assert (Hall : forallb is_digit (d1 ++ d2) = true)
    by (rewrite forallb_app; now rewrite H1, H2).
  destruct (digits_value_total _ Hall 0) as [v Hv].
  assert (Hne' : d1 ++ d2 <> []) by (destruct d1; [contradiction | discriminate]).
  split; unfold py_float; rewrite list_ascii_of_string_of_list_ascii.
  - rewrite (split_period_no_period _ Hall), app_nil_r.
    remember (d1 ++ d2) as ds eqn:Ed. destruct ds; [contradiction|].
    rewrite Hv. eauto.
  - rewrite (split_period_digits d1 ("."%char :: d2) H1). simpl.
    rewrite app_nil_r.
    remember (d1 ++ d2) as ds eqn:Ed. destruct ds; [contradiction|].
    simpl in Hv. rewrite Hv. eauto.
Qed.

(** [float] accepts every text that the pattern [number] matches. *)
Lemma py_float_number (t : list ascii) :
  lang number t -> exists q, py_float (string_of_list_ascii t) = Ok q.
Proof.
  intros H. apply number_shape in H.
  destruct H as [d1 [d2 [Hne [H1 [H2 [->| ->]]]]]];
    now apply (py_float_digits d1 d2 Hne H1 H2).
Qed.

(** [float] raises nothing but [ValueError]. *)
Lemma py_float_raises (s : string) (e : exn) : py_float s = Raise e -> e = ValueError.
Proof.
  unfold py_float. destruct (split_period _) as [ip fp].
  destruct (ip ++ _); [congruence|].
  destruct (digits_value _ _); congruence.
Qed.

(** The loop over the patterns catches whatever [float] raises. *)
Lemma scan_patterns_total (patterns : list regex) (text : string) :
  exists v, scan_patterns patterns text = Ok v.
Proof.
  induction patterns as [|p rest IH]; simpl; [eauto|].
  destruct (findall p text) as [|m0 ms]; [exact IH|].
  destruct (item_len m0 =? 2).
  - destruct (py_float (item_get m0 0)) as [lo|e] eqn:E0; simpl.
    + destruct (py_float (item_get m0 1)) as [hi|e] eqn:E1; simpl; [eauto|].
      apply py_float_raises in E1. now subst e.
    + apply py_float_raises in E0. now subst e.
  - destruct m0 as [s|l]; [|exact IH].
    destruct (py_float s) as [v|e] eqn:E; [eauto|].
    apply py_float_raises in E. now subst e.
Qed.

Lemma group_text_added (n : nat) (added cs : caps) :
  Forall (fun b => fst b <> n) added ->
  group_text n (added ++ cs) = group_text n cs.
Proof.
  induction 1 as [|[m t] added Hm _ IH]; simpl; [reflexivity|].
  simpl in Hm. destruct (Nat.eqb_spec m n); [contradiction | exact IH].
Qed.

(** In a match of the concentration pattern, group 1 holds a number. *)
Lemma concentration_group_1 (s0 s1 : list ascii) (cs1 : caps) :
  rmatch concentration_pattern s0 [] (fun a b => Some (a, b)) = Some (s1, cs1) ->
  exists t, lang number t /\ group_text 1 cs1 = string_of_list_ascii t.
Proof.
  intros H.
  change (rmatch number s0 []
            (fun a b =>
               rmatch (seq_of [Star Space;
                               Group 2 (alt_of [ word "ppm"; word "mg/kg"; word "%";
                                                 word "g/kg";
                                                 seq_of [Lit micro_sign; word "L/g"] ])])
                 a ((1%nat, firstn (List.length s0 - List.length a) s0) :: b)
                 (fun a b => Some (a, b)))
          = Some (s1, cs1)) in H.
  apply rmatch_sound in H. destruct H as [t [s2 [cs2 [-> [Lt [[a [-> Fa]] H]]]]]].
  assert (a = []) as -> by (destruct a as [|b a]; [reflexivity | inversion Fa as [|? ? []]]).
  rewrite firstn_consumed in H.
  apply rmatch_sound in H. destruct H as [t' [s3 [cs3 [-> [_ [[a' [-> Fa']] H]]]]]].
  injection H as <- <-.
  exists t. split; [exact Lt|].
  rewrite group_text_added; [simpl; reflexivity|].
  eapply List.Forall_impl; [|exact Fa']. simpl.
  intros b [<-|[]]. discriminate.
Qed.

(** [extract_concentration] never raises. *)
Lemma extract_concentration_total (self : MetadataExtractor) (text : string) :
  exists v, extract_concentration self text = Ok v.
Proof.
  unfold extract_concentration.
  destruct (findall concentration_pattern text) as [|m0 ms] eqn:E; [eauto|].
  assert (Hin : In m0 (findall concentration_pattern text)) by (rewrite E; now left).
  apply findall_list_items in Hin. destruct Hin as [s0 [s1 [cs1 [Hm ->]]]].
  apply concentration_group_1 in Hm. destruct Hm as [t [Lt Hg]].
  change (item_get (item_of concentration_pattern
                      (firstn (List.length s0 - List.length s1) s0) cs1) 0)
    with (group_text 1 cs1).
  rewrite Hg. destruct (py_float_number t Lt) as [q Hq]. rewrite Hq. simpl. eauto.
Qed.

(** The metadata of a text is always produced. *)
Lemma extract_metadata_total (self : MetadataExtractor) (text : string) :
  exists m, extract_metadata self text = Ok m.
Proof.
  unfold extract_metadata, extract_ph_range, extract_aw.
  destruct (scan_patterns_total ph_patterns text) as [v1 ->].
  destruct (scan_patterns_total aw_patterns text) as [v2 ->].
  destruct (extract_concentration_total self text) as [v3 ->].
  simpl. eauto.
Qed.

Lemma extract_chunk_metadata_ok (w : world) (c : nat) (d : chunk_dict)
    (text : string) (m : ExtractedMetadata) :
  store w !! c = Some d -> default (VStr "") (d !! "content") = VStr text ->
  extract_metadata (extractor w) text = Ok m ->
  extract_chunk_metadata w c = Ok (List.length (store w), with_metadata w d m).
Proof.
  intros Hc Hd Hm. unfold extract_chunk_metadata.
  rewrite Hc, Hd. rewrite Hm. reflexivity.
Qed.

(** The record is made of what the sub-rules return on the text. *)
Lemma extract_metadata_fields (self : MetadataExtractor) (text : string)
    (m : ExtractedMetadata) :
  extract_metadata self text = Ok m ->
  extract_ph_range self text = Ok (ph m)
  /\ extract_aw self text = Ok (aw m)
  /\ extract_concentration self text = Ok (concentration_of m)
  /\ extract_microorganism self text = microorganisms_of m
  /\ extract_conservant self text = conservants_of m
  /\ has_numeric_data m = bool_of_option (concentration_of m).
Proof.
  unfold extract_metadata.
  destruct (extract_ph_range self text) as [v1|]; [|discriminate].
  destruct (extract_aw self text) as [v2|]; [|discriminate].
  destruct (extract_concentration self text) as [v3|]; [|discriminate].
  simpl. intros H. injection H as <-. simpl. auto 10.
Qed.

(** C2, as the code computes it. On the sample text the range pattern of
    the pH rule matches "pH 4.2" with the groups "4." and "2", so the
    acidity is the range from 4 to 2 and not the scalar 4.2; the water
    activity is the scalar 0.97, the concentration is 800 "ppm", the
    organism list is ["Zygosaccharomyces bailii"], no conservant is found
    and has_numeric_data is true. *)
Theorem extract_sample_metadata :
  findall (nth 0 ph_patterns Eps) sample = [ItemTuple ["4."; "2"]]
  /\ extract_ph_range init sample = Ok (Some (Range 4 2))
  /\ extract_metadata init sample
     = Ok {| ph := Some (Range 4 2);
             aw := Some (Value (97 # 100));
             concentration_of :=
               Some {| concentration_value := 800; concentration_unit := "ppm" |};
             microorganisms_of := Some ["Zygosaccharomyces bailii"];
             conservants_of := None;
             has_numeric_data := true |}.
Proof.
  split; [|split]; vm_compute; reflexivity.
Qed.

(** C8. Extraction is a function of the content. Two calls of
    [extract_chunk_metadata], on any two chunk dictionaries with the same
    content ([chunk.get("content", "")] is the same string), in any two
    stores, with extractors in the same state, both return, and attach the
    same metadata record. That record is made of
    what each sub-rule returns on the content. A call changes neither the
    extractor nor any dictionary of the store, its input among them: the
    result is a new dictionary. *)
Theorem extraction_pure_and_deterministic
    (w1 w2 : world) (c1 c2 : nat) (d1 d2 : chunk_dict) (text : string) :
  extractor w1 = extractor w2 ->
  store w1 !! c1 = Some d1 -> store w2 !! c2 = Some d2 ->
  default (VStr "") (d1 !! "content") = VStr text ->
  default (VStr "") (d2 !! "content") = VStr text ->
  exists m : ExtractedMetadata,
    extract_chunk_metadata w1 c1 = Ok (List.length (store w1), with_metadata w1 d1 m)
    /\ extract_chunk_metadata w2 c2 = Ok (List.length (store w2), with_metadata w2 d2 m)
    /\ (extract_ph_range (extractor w2) text = Ok (ph m)
        /\ extract_aw (extractor w2) text = Ok (aw m)
        /\ extract_concentration (extractor w2) text = Ok (concentration_of m)
        /\ extract_microorganism (extractor w2) text = microorganisms_of m
        /\ extract_conservant (extractor w2) text = conservants_of m
        /\ has_numeric_data m = bool_of_option (concentration_of m))
    /\ extractor (with_metadata w1 d1 m) = extractor w1
    /\ (forall i d, store w1 !! i = Some d -> store (with_metadata w1 d1 m) !! i = Some d)
    /\ store (with_metadata w1 d1 m) !! List.length (store w1)
       = Some (<["extracted_metadata" := VMeta m]> d1).
Proof.
  intros He Hc1 Hc2 Hd1 Hd2.
  destruct (extract_metadata_total (extractor w1) text) as [m Hm].
  exists m. split; [|split; [|split; [|split; [|split]]]].
  - now apply (extract_chunk_metadata_ok w1 c1 d1 text m).
  - apply (extract_chunk_metadata_ok w2 c2 d2 text m); try assumption.
    now rewrite <- He.
  - apply extract_metadata_fields. now rewrite <- He.
  - reflexivity.
  - intros i d Hi. simpl. rewrite lookup_app_l; [exact Hi|].
    now apply lookup_lt_Some in Hi.
  - simpl. now apply list_lookup_middle.
Qed.

Lemma extraction_pure_and_deterministic_witness :
  (extractor sample_world = extractor sample_world
   /\ store sample_world !! 0%nat = Some sample_chunk_a
   /\ store sample_world !! 1%nat = Some sample_chunk_b
   /\ default (VStr "") (sample_chunk_a !! "content") = VStr sample
   /\ default (VStr "") (sample_chunk_b !! "content") = VStr sample)
  /\ exists m : ExtractedMetadata,
       extract_chunk_metadata sample_world 0
       = Ok (2%nat, with_metadata sample_world sample_chunk_a m)
       /\ extract_chunk_metadata sample_world 1
          = Ok (2%nat, with_metadata sample_world sample_chunk_b m).
Proof.
  assert (H0 : extractor sample_world = extractor sample_world) by reflexivity.
  assert (H1 : store sample_world !! 0%nat = Some sample_chunk_a) by reflexivity.
  assert (H2 : store sample_world !! 1%nat = Some sample_chunk_b) by reflexivity.
  assert (H3 : default (VStr "") (sample_chunk_a !! "content") = VStr sample)
    by (vm_compute; reflexivity).
  assert (H4 : default (VStr "") (sample_chunk_b !! "content") = VStr sample)
    by (vm_compute; reflexivity).
  split; [auto|].
  destruct (extraction_pure_and_deterministic
              sample_world sample_world 0 1 sample_chunk_a sample_chunk_b sample
              H0 H1 H2 H3 H4) as [m [Ha [Hb _]]].
  exists m. split; [exact Ha | exact Hb].
Defined.

End ExtractionProofs.
Module ExtractionExamples.
Import Py Regex MetadataExtraction.

Example ex_float_trailing_period : py_float "4." = Ok 4%Q.
Proof. reflexivity. Qed.

Example ex_float_period_alone : py_float "." = Raise ValueError.
Proof. reflexivity. Qed.

Example ex_sample_aw_range : findall (nth 0 aw_patterns Eps) sample = [].
Proof. vm_compute. reflexivity. Qed.

Example ex_sample_aw_value : findall (nth 1 aw_patterns Eps) sample = [ItemStr "0.97"].
Proof. vm_compute. reflexivity. Qed.

Example ex_sample_concentration :
  findall concentration_pattern sample = [ItemTuple ["800"; "ppm"]].
Proof. vm_compute. reflexivity. Qed.

Example ex_ph_true_range :
  extract_ph_range init "pH between 3.5-4.5" = Ok (Some (Range (7 # 2) (9 # 2))).
Proof. vm_compute. reflexivity. Qed.

Example ex_ph_one_digit : extract_ph_range init "pH 7" = Ok (Some (Value 7)).
Proof. vm_compute. reflexivity. Qed.

(** A two-character match of the second pattern is read as a pair of
    characters, and [float(".")] sends the loop to its end. *)
Example ex_ph_two_characters : extract_ph_range init "pH 4. " = Ok None.
Proof. vm_compute. reflexivity. Qed.

Example ex_organisms_any_case :
  extract_microorganism init "cultures of E. COLI and of salmonella"
  = Some ["E. coli"; "Salmonella"].
Proof. vm_compute. reflexivity. Qed.

Example ex_no_conservant : extract_conservant init sample = None.
Proof. vm_compute. reflexivity. Qed.

End ExtractionExamples.
(** ** Properties of benchmark.py *)

Module BenchmarkProofs.
Import Py PyFacts Benchmark.

Lemma is_relevant_In (relevant : list string) (rid : string) :
  is_relevant relevant rid = true <-> In rid relevant.
Proof.
  unfold is_relevant. rewrite existsb_exists. split.
  - intros [y [Hy E]]. apply String.eqb_eq in E. now subst.
  - intros H. exists rid. split; [exact H | apply String.eqb_refl].
Qed.

(** Membership is all that [is_relevant] sees of the relevant list. *)
Lemma is_relevant_ext (rel1 rel2 : list string) :
  (forall x, In x rel1 <-> In x rel2) ->
  forall rid, is_relevant rel1 rid = is_relevant rel2 rid.
Proof.
  intros H rid.
  destruct (is_relevant rel1 rid) eqn:E1, (is_relevant rel2 rid) eqn:E2;
    try reflexivity.
  - apply is_relevant_In, H, is_relevant_In in E1. congruence.
  - apply is_relevant_In, H, is_relevant_In in E2. congruence.
Qed.

Lemma is_relevant_nodup (relevant : list string) (rid : string) :
  is_relevant (nodup String.string_dec relevant) rid = is_relevant relevant rid.
Proof. apply is_relevant_ext. intros x. apply nodup_In. Qed.

Lemma count_relevant_ext (rel1 rel2 ids : list string) :
  (forall x, In x rel1 <-> In x rel2) ->
  count_relevant ids rel1 = count_relevant ids rel2.
Proof.
  intros H. unfold count_relevant. f_equal.
  apply filter_ext. intros a. now apply is_relevant_ext.
Qed.

Lemma mrr_loop_ext (rel1 rel2 : list string) (retrieved : list Retrieved) :
  (forall x, In x rel1 <-> In x rel2) ->
  forall rank, mrr_loop rank retrieved rel1 = mrr_loop rank retrieved rel2.
Proof.
  intros H. induction retrieved as [|r rest IH]; intros rank; simpl; [reflexivity|].
  rewrite (is_relevant_ext rel1 rel2 H). now rewrite IH.
Qed.

Lemma dcg_loop_ext (rel1 rel2 : list string) (items : list Retrieved) :
  (forall x, In x rel1 <-> In x rel2) ->
  forall dcg rank, dcg_loop dcg rank items rel1 = dcg_loop dcg rank items rel2.
Proof.
  intros H. induction items as [|r rest IH]; intros dcg rank; simpl; [reflexivity|].
  rewrite (is_relevant_ext rel1 rel2 H). now rewrite IH.
Qed.

Lemma count_relevant_nonneg (ids relevant : list string) :
  0 <= count_relevant ids relevant.
Proof. unfold count_relevant, llen. lia. Qed.

Lemma truediv_ok (a b : Z) : b <> 0 -> truediv a b = Ok (IZR a / IZR b)%R.
Proof.
  intros H. unfold truediv. destruct (Z.eqb_spec b 0); [contradiction | reflexivity].
Qed.

(** [l[:k]] keeps a prefix whose length depends on [k] and [len(l)] only. *)
Lemma slice_to_firstn {A} (l : list A) (k : Z) :
  slice_to l k = firstn (Z.to_nat (adjust_index (llen l) k)) l.
Proof.
  unfold slice_to, lslice, llen.
  set (n := Z.of_nat (List.length l)).
  assert (H0 : adjust_index n 0 = 0).
  { unfold adjust_index. replace (0 <? 0) with false by reflexivity.
    subst n. lia. }
  rewrite H0, Z.sub_0_r. reflexivity.
Qed.

Lemma slice_to_nil {A} (k : Z) : slice_to (@nil A) k = [].
Proof. rewrite slice_to_firstn. apply firstn_nil. Qed.

(** [mrr_loop] finds nothing when no retrieved id is relevant. *)
Lemma mrr_loop_no_hit (retrieved : list Retrieved) (relevant : list string) :
  (forall r, In r retrieved -> ~ In (r_id r) relevant) ->
  forall rank, mrr_loop rank retrieved relevant = Ok 0%R.
Proof.
  induction retrieved as [|r rest IH]; intros H rank; simpl; [reflexivity|].
  destruct (is_relevant relevant (r_id r)) eqn:E.
  - apply is_relevant_In in E. exfalso. apply (H r); [now left | exact E].
  - apply IH. intros r' Hr'. apply H. now right.
Qed.

(** The reciprocal rank is never computed with a zero rank. *)
Lemma mrr_loop_total (retrieved : list Retrieved) (relevant : list string) :
  forall rank, 1 <= rank -> exists v, mrr_loop rank retrieved relevant = Ok v.
Proof.
  induction retrieved as [|r rest IH]; intros rank Hr; simpl; [eauto|].
  destruct (is_relevant relevant (r_id r)).
  - rewrite truediv_ok by lia. eauto.
  - apply IH. lia.
Qed.

(** C3, as the code behaves. Duplicates in relevant_ids leave precision@k
    and MRR unchanged, since both only test membership. Recall@k and NDCG@k
    keep the same hit count and the same DCG, but recall divides by
    [len(relevant_ids)] and the ideal DCG runs over
    [min(len(relevant_ids), k)] ranks, duplicates counted. *)
Theorem duplicates_in_relevant_ids
    (retrieved : list Retrieved) (relevant : list string) (k : Z) :
  let dedup := nodup String.string_dec relevant in
  calculate_precision_at_k retrieved relevant k
  = calculate_precision_at_k retrieved dedup k
  /\ calculate_mrr retrieved relevant = calculate_mrr retrieved dedup
  /\ count_relevant (map r_id (slice_to retrieved k)) relevant
     = count_relevant (map r_id (slice_to retrieved k)) dedup
  /\ dcg_loop 0%R 1 (slice_to retrieved k) relevant
     = dcg_loop 0%R 1 (slice_to retrieved k) dedup.
Proof.
  intros dedup.
  assert (H : forall x, In x relevant <-> In x dedup).
  { intros x. symmetry. apply nodup_In. }
  split; [|split; [|split]].
  - unfold calculate_precision_at_k.
    now rewrite (count_relevant_ext relevant dedup _ H).
  - unfold calculate_mrr. now apply mrr_loop_ext.
  - now apply count_relevant_ext.
  - now apply dcg_loop_ext.
Qed.

(** C3 as stated fails for recall@k: one retrieved document "a" scores
    1/2 against the relevant list ["a"; "a"] and 1 against its
    deduplicated form. *)
Lemma recall_counts_duplicates :
  calculate_recall_at_k [doc "a"] ["a"; "a"] 5 = Ok (1 / 2)%R
  /\ calculate_recall_at_k [doc "a"] (nodup String.string_dec ["a"; "a"]) 5
     = Ok (1 / 1)%R
  /\ calculate_recall_at_k [doc "a"] ["a"; "a"] 5
     <> calculate_recall_at_k [doc "a"] (nodup String.string_dec ["a"; "a"]) 5.
Proof.
  assert (H1 : calculate_recall_at_k [doc "a"] ["a"; "a"] 5 = Ok (1 / 2)%R)
    by reflexivity.
  assert (H2 : calculate_recall_at_k [doc "a"] (nodup String.string_dec ["a"; "a"]) 5
               = Ok (1 / 1)%R) by reflexivity.
  split; [exact H1 | split; [exact H2 |]].
  rewrite H1, H2. intros E. injection E as E. lra.
Qed.

(** C7. Precision@k of an empty retrieved list is 0 for every k > 0;
    recall@k with no relevant id is 0, returned without dividing; MRR is 0
    when no retrieved id is relevant and 1 when the first retrieved id is
    relevant. *)
Theorem metric_boundary_values :
  (forall (relevant : list string) (k : Z),
      0 < k -> calculate_precision_at_k [] relevant k = Ok 0%R)
  /\ (forall (retrieved : list Retrieved) (k : Z),
        calculate_recall_at_k retrieved [] k = Ok 0%R)
  /\ (forall (retrieved : list Retrieved) (relevant : list string),
        (forall r, In r retrieved -> ~ In (r_id r) relevant) ->
        calculate_mrr retrieved relevant = Ok 0%R)
  /\ (forall (first : Retrieved) (rest : list Retrieved) (relevant : list string),
        In (r_id first) relevant ->
        calculate_mrr (first :: rest) relevant = Ok 1%R).
Proof.
  split; [|split; [|split]].
  - intros relevant k Hk. unfold calculate_precision_at_k.
    rewrite slice_to_nil. simpl.
    destruct (Z.ltb_spec 0 k); [|lia].
    rewrite truediv_ok by lia. f_equal. unfold count_relevant, llen. simpl.
    unfold Rdiv. apply Rmult_0_l.
  - intros retrieved k. reflexivity.
  - intros retrieved relevant H. now apply mrr_loop_no_hit.
  - intros first rest relevant H. unfold calculate_mrr. simpl.
    apply is_relevant_In in H. rewrite H.
    rewrite truediv_ok by lia. f_equal. lra.
Qed.

Lemma metric_boundary_values_witness :
  calculate_precision_at_k [] ["a"] 5 = Ok 0%R
  /\ calculate_recall_at_k [doc "a"] [] 5 = Ok 0%R
  /\ calculate_mrr [doc "x"; doc "y"] ["a"] = Ok 0%R
  /\ calculate_mrr [doc "a"; doc "x"] ["a"] = Ok 1%R.
Proof.
  destruct metric_boundary_values as [Hp [Hr [Hm0 Hm1]]].
  split; [|split; [|split]].
  - apply Hp. lia.
  - apply Hr.
  - apply Hm0. intros r [<-|[<-|[]]] [E|[]]; discriminate E.
  - apply Hm1. left. reflexivity.
Defined.

(** C10. [calculate_precision_at_k] never raises for k >= 0: with k = 0 the
    guard returns 0 without dividing, and with k > 0 the quotient of the
    hit count by k is returned. *)
Theorem precision_total_in_k
    (retrieved : list Retrieved) (relevant : list string) (k : Z) :
  0 <= k ->
  (k = 0 -> calculate_precision_at_k retrieved relevant k = Ok 0%R)
  /\ (0 < k ->
      calculate_precision_at_k retrieved relevant k
      = Ok (IZR (count_relevant (map r_id (slice_to retrieved k)) relevant) / IZR k)%R)
  /\ (exists v, calculate_precision_at_k retrieved relevant k = Ok v).
Proof.
  intros Hk. unfold calculate_precision_at_k.
  destruct (Z.ltb_spec 0 k) as [Hp|Hz].
  - rewrite truediv_ok by lia. split; [lia | split; [reflexivity | eauto]].
  - split; [reflexivity | split; [lia | eauto]].
Qed.

Lemma precision_total_in_k_witness :
  0 <= 0
  /\ calculate_precision_at_k [doc "a"; doc "b"] ["a"] 0 = Ok 0%R.
Proof.
  assert (H : 0 <= 0) by lia.
  split; [exact H|].
  exact (proj1 (precision_total_in_k [doc "a"; doc "b"] ["a"] 0 H) eq_refl).
Defined.

(** C5. With no accumulated record, [get_aggregated_metrics] answers with
    the dictionary [{"error": "No results to aggregate"}], which holds no
    aggregate field, and leaves the benchmark object as it was;
    [evaluate_multiple_queries] with no pair does the same. *)
Theorem aggregation_of_empty_accumulator (self : RAGBenchmark) :
  results self = [] ->
  get_aggregated_metrics self
  = ({[ "error" := AStr "No results to aggregate" ]}, self)
  /\ evaluate_multiple_queries self []
     = Ok ({[ "error" := AStr "No results to aggregate" ]}, self)
  /\ fst (get_aggregated_metrics self) !! "total_queries" = None
  /\ results (snd (get_aggregated_metrics self)) = [].
Proof.
  intros H.
  assert (E : get_aggregated_metrics self
              = ({[ "error" := AStr "No results to aggregate" ]}, self)).
  { unfold get_aggregated_metrics. now rewrite H. }
  split; [|split; [|split]].
  - exact E.
  - unfold evaluate_multiple_queries. simpl. now rewrite E.
  - rewrite E. simpl. now apply lookup_singleton_ne.
  - rewrite E. exact H.
Qed.

Lemma aggregation_of_empty_accumulator_witness :
  results (init (fun _ _ => [])) = []
  /\ get_aggregated_metrics (init (fun _ _ => []))
     = ({[ "error" := AStr "No results to aggregate" ]}, init (fun _ _ => [])).
Proof.
  assert (H : results (init (fun _ _ => [])) = []) by reflexivity.
  split; [exact H|].
  exact (proj1 (aggregation_of_empty_accumulator (init (fun _ _ => [])) H)).
Defined.

End BenchmarkProofs.
(** ** Monotonicity of NDCG *)

Module NdcgProofs.
Import Py PyFacts Benchmark BenchmarkProofs.

Section Discount.
Local Open Scope R_scope.

Lemma ln_2_pos : 0 < ln 2.
Proof. rewrite <- ln_1. apply ln_increasing; lra. Qed.

Lemma np_log2_pos (x : R) : 1 < x -> 0 < np_log2 x.
Proof.
  intros H. unfold np_log2. apply Rdiv_lt_0_compat; [|apply ln_2_pos].
  rewrite <- ln_1. apply ln_increasing; lra.
Qed.

Lemma np_log2_le (x y : R) : 0 < x -> x <= y -> np_log2 x <= np_log2 y.
Proof.
  intros Hx [Hlt|<-]; [|lra]. unfold np_log2, Rdiv.
  apply Rmult_le_compat_r.
  - left. apply Rinv_0_lt_compat, ln_2_pos.
  - left. now apply ln_increasing.
Qed.

Lemma discount_pos (rank : Z) : (1 <= rank)%Z -> 0 < discount rank.
Proof.
  intros H. unfold discount, Rdiv. rewrite Rmult_1_l.
  apply Rinv_0_lt_compat, np_log2_pos.
  apply (IZR_lt 1). lia.
Qed.

(** A later rank never has a larger discount. *)
Lemma discount_antitone (r1 r2 : Z) :
  (1 <= r1)%Z -> (r1 <= r2)%Z -> discount r2 <= discount r1.
Proof.
  intros H1 H2. unfold discount, Rdiv. rewrite !Rmult_1_l.
  apply Rinv_le_contravar.
  - apply np_log2_pos. apply (IZR_lt 1). lia.
  - apply np_log2_le; [apply (IZR_lt 0); lia | apply IZR_le; lia].
Qed.

Lemma gain_nonneg (relevant : list string) (rank : Z) (x : Retrieved) :
  (1 <= rank)%Z -> 0 <= gain relevant rank x.
Proof.
  intros H. unfold gain. destruct (is_relevant relevant (r_id x)); [|lra].
  left. now apply discount_pos.
Qed.

(** The accumulator of [dcg_loop] ends as the start value plus the sum. *)
Lemma dcg_loop_sum (items : list Retrieved) (relevant : list string) :
  forall (dcg : R) (rank : Z),
    dcg_loop dcg rank items relevant = dcg + dcg_sum rank items relevant.
Proof.
  induction items as [|x rest IH]; intros dcg rank; simpl; [lra|].
  rewrite IH. unfold gain. destruct (is_relevant relevant (r_id x)); lra.
Qed.

Variable relevant : list string.
Variables x y : Retrieved.
Hypothesis x_not_relevant : is_relevant relevant (r_id x) = false.
Hypothesis y_relevant : is_relevant relevant (r_id y) = true.

(** Behind the swapped pair: what the relevant item still earns at its old
    place is at most the discount of the earlier rank [r0]. *)
Lemma dcg_sum_swap_tail (l2 l3 : list Retrieved) (r0 : Z) :
  (1 <= r0)%Z ->
  forall (m : nat) (rank : Z),
    (r0 < rank)%Z ->
    dcg_sum rank (firstn m (l2 ++ y :: l3)) relevant
    <= discount r0 + dcg_sum rank (firstn m (l2 ++ x :: l3)) relevant.
Proof.
  intros H0. induction l2 as [|a l2 IH]; intros m rank Hr.
  - destruct m as [|m]; simpl.
    + pose proof (discount_pos r0 H0). lra.
    + unfold gain. rewrite x_not_relevant, y_relevant.
      pose proof (discount_antitone r0 rank H0 ltac:(lia)). lra.
  - destruct m as [|m]; simpl.
    + pose proof (discount_pos r0 H0). lra.
    + specialize (IH m (rank + 1)%Z ltac:(lia)). lra.
Qed.

(** Swapping the relevant item [y] ahead of the item [x] that is not
    relevant does not lower the sum of the gains of any prefix. *)
Lemma dcg_sum_swap (l1 l2 l3 : list Retrieved) :
  forall (m : nat) (rank : Z),
    (1 <= rank)%Z ->
    dcg_sum rank (firstn m (l1 ++ x :: l2 ++ y :: l3)) relevant
    <= dcg_sum rank (firstn m (l1 ++ y :: l2 ++ x :: l3)) relevant.
Proof.
  induction l1 as [|a l1 IH]; intros m rank Hr.
  - destruct m as [|m]; simpl; [lra|].
    unfold gain. rewrite x_not_relevant, y_relevant.
    pose proof (dcg_sum_swap_tail l2 l3 rank Hr m (rank + 1)%Z ltac:(lia)). lra.
  - destruct m as [|m]; simpl; [lra|].
    specialize (IH m (rank + 1)%Z ltac:(lia)). lra.
Qed.

Lemma swap_same_length (l1 l2 l3 : list Retrieved) :
  llen (l1 ++ x :: l2 ++ y :: l3) = llen (l1 ++ y :: l2 ++ x :: l3).
Proof. unfold llen. now rewrite !length_app; simpl; rewrite !length_app. Qed.

Lemma calculate_ndcg_swap (l1 l2 l3 : list Retrieved) (k : Z) :
  calculate_ndcg (l1 ++ x :: l2 ++ y :: l3) relevant k
  <= calculate_ndcg (l1 ++ y :: l2 ++ x :: l3) relevant k.
Proof.
  unfold calculate_ndcg.
  destruct (Rlt_dec 0 (ideal_dcg relevant k)) as [Hpos|_]; [|lra].
  rewrite !dcg_loop_sum, !slice_to_firstn, (swap_same_length l1 l2 l3).
  rewrite !Rplus_0_l. unfold Rdiv. apply Rmult_le_compat_r.
  - left. now apply Rinv_0_lt_compat.
  - apply dcg_sum_swap. lia.
Qed.

End Discount.

(** [calculate_ndcg] sees of the retrieved list only which items are
    relevant. *)
Lemma dcg_loop_pattern (relevant : list string) (l l' : list Retrieved) :
  map (fun r => is_relevant relevant (r_id r)) l
  = map (fun r => is_relevant relevant (r_id r)) l' ->
  forall dcg rank, dcg_loop dcg rank l relevant = dcg_loop dcg rank l' relevant.
Proof.
  revert l'. induction l as [|a l IH]; intros [|a' l'] H dcg rank;
    try discriminate H; [reflexivity|].
  simpl in H. injection H as Ha Hl. simpl. rewrite Ha. now apply IH.
Qed.

Lemma calculate_ndcg_pattern (relevant : list string) (l l' : list Retrieved) (k : Z) :
  map (fun r => is_relevant relevant (r_id r)) l
  = map (fun r => is_relevant relevant (r_id r)) l' ->
  calculate_ndcg l relevant k = calculate_ndcg l' relevant k.
Proof.
  intros H. unfold calculate_ndcg.
  assert (Hlen : llen l = llen l').
  { unfold llen. f_equal. rewrite <- (length_map (fun r => is_relevant relevant (r_id r)) l).
    rewrite H. apply length_map. }
  rewrite !slice_to_firstn, Hlen.
  rewrite (dcg_loop_pattern relevant
             (firstn (Z.to_nat (adjust_index (llen l') k)) l)
             (firstn (Z.to_nat (adjust_index (llen l') k)) l')); [reflexivity|].
  rewrite <- !firstn_map. now rewrite H.
Qed.

(** A relevant item that steps over its predecessor, relevant or not. *)
Lemma calculate_ndcg_step_earlier (relevant : list string) (a y : Retrieved)
    (l1 l3 : list Retrieved) (k : Z) :
  is_relevant relevant (r_id y) = true ->
  (calculate_ndcg (l1 ++ a :: y :: l3) relevant k
   <= calculate_ndcg (l1 ++ y :: a :: l3) relevant k)%R.
Proof.
  intros Hy. destruct (is_relevant relevant (r_id a)) eqn:Ha.
  - right. apply calculate_ndcg_pattern.
    rewrite !map_app. simpl. now rewrite Ha, Hy.
  - exact (calculate_ndcg_swap relevant a y Ha Hy l1 [] l3 k).
Qed.

(** The same for a relevant item taken out of its place and put back any
    number of ranks earlier, the items in between moving one rank down. *)
Lemma calculate_ndcg_move_earlier (relevant : list string) (y : Retrieved)
    (l1 l2 : list Retrieved) (k : Z) :
  is_relevant relevant (r_id y) = true ->
  forall l3,
    (calculate_ndcg (l1 ++ l2 ++ y :: l3) relevant k
     <= calculate_ndcg (l1 ++ y :: l2 ++ l3) relevant k)%R.
Proof.
  intros Hy. induction l2 as [|a l2 IH] using rev_ind; intros l3.
  - simpl. apply Rle_refl.
  - eapply Rle_trans; [|eapply Rle_trans; [apply (IH (a :: l3))|]].
    + replace (l1 ++ (l2 ++ [a]) ++ y :: l3) with ((l1 ++ l2) ++ a :: y :: l3)
        by (now rewrite <- !app_assoc).
      replace (l1 ++ l2 ++ y :: a :: l3) with ((l1 ++ l2) ++ y :: a :: l3)
        by (now rewrite <- !app_assoc).
      now apply calculate_ndcg_step_earlier.
    + right. now rewrite <- !app_assoc.
Qed.

(** Duplicates in the relevant list lengthen the ideal DCG: one relevant
    document retrieved first scores less than 1 against ["a"; "a"] and 1
    against ["a"]. *)
Lemma ndcg_counts_duplicates :
  (calculate_ndcg [doc "a"] ["a"; "a"] 5
   < calculate_ndcg [doc "a"] (nodup String.string_dec ["a"; "a"]) 5)%R.
Proof.
  pose proof (discount_pos 1 ltac:(lia)) as H1.
  pose proof (discount_pos 2 ltac:(lia)) as H2.
  assert (E1 : calculate_ndcg [doc "a"] ["a"; "a"] 5
               = if Rlt_dec 0 (0 + discount 1 + discount 2)
                 then ((0 + discount 1) / (0 + discount 1 + discount 2))%R
                 else 0%R) by reflexivity.
  assert (E2 : calculate_ndcg [doc "a"] (nodup String.string_dec ["a"; "a"]) 5
               = if Rlt_dec 0 (0 + discount 1)
                 then ((0 + discount 1) / (0 + discount 1))%R
                 else 0%R) by reflexivity.
  rewrite E1, E2.
  destruct (Rlt_dec 0 (0 + discount 1 + discount 2)) as [_|N]; [|exfalso; lra].
  destruct (Rlt_dec 0 (0 + discount 1)) as [_|N]; [|exfalso; lra].
  rewrite !Rplus_0_l.
  replace (discount 1 / discount 1)%R with 1%R by (field; lra).
  apply (Rmult_lt_reg_r (discount 1 + discount 2)); [lra|].
  unfold Rdiv. rewrite Rmult_assoc, Rinv_l by lra. lra.
Qed.

(** C9. For a fixed relevant list and a fixed k > 0, swapping a relevant
    retrieved item ahead of an item that is not relevant, wherever the two
    stand in the retrieved list, never lowers the NDCG@k computed by
    [calculate_ndcg]. *)
Theorem ndcg_monotone
    (relevant : list string) (k : Z)
    (l1 l2 l3 : list Retrieved) (x y : Retrieved) :
  0 < k ->
  ~ In (r_id x) relevant ->
  In (r_id y) relevant ->
  (calculate_ndcg (l1 ++ x :: l2 ++ y :: l3) relevant k
   <= calculate_ndcg (l1 ++ y :: l2 ++ x :: l3) relevant k)%R.
Proof.
  intros _ Hx Hy. apply calculate_ndcg_swap.
  - destruct (is_relevant relevant (r_id x)) eqn:E; [|reflexivity].
    apply is_relevant_In in E. contradiction.
  - now apply is_relevant_In.
Qed.

Lemma ndcg_monotone_witness :
  (0 < 5 /\ ~ In (r_id (doc "x")) ["a"; "b"] /\ In (r_id (doc "b")) ["a"; "b"])
  /\ (calculate_ndcg ([doc "a"] ++ doc "x" :: [doc "z"] ++ doc "b" :: [doc "w"]) ["a"; "b"] 5
      <= calculate_ndcg ([doc "a"] ++ doc "b" :: [doc "z"] ++ doc "x" :: [doc "w"]) ["a"; "b"] 5)%R.
Proof.
  assert (H1 : 0 < 5) by lia.
  assert (H2 : ~ In (r_id (doc "x")) ["a"; "b"]).
  { simpl. intros [E|[E|[]]]; discriminate E. }
  assert (H3 : In (r_id (doc "b")) ["a"; "b"]) by (simpl; auto).
  split; [auto|].
  exact (ndcg_monotone ["a"; "b"] 5 [doc "a"] [doc "z"] [doc "w"] (doc "x") (doc "b") H1 H2 H3).
Defined.

End NdcgProofs.
Module BenchmarkExamples.
Import Py Benchmark.

Example ex_precision_half :
  calculate_precision_at_k [doc "a"; doc "x"; doc "b"] ["a"; "b"] 2 = Ok (1 / 2)%R.
Proof. reflexivity. Qed.

Example ex_precision_short_list :
  calculate_precision_at_k [doc "a"] ["a"] 5 = Ok (1 / 5)%R.
Proof. reflexivity. Qed.

Example ex_precision_negative_k :
  calculate_precision_at_k [doc "a"; doc "x"] ["a"] (-1) = Ok 0%R.
Proof. reflexivity. Qed.

Example ex_recall_two_thirds :
  calculate_recall_at_k [doc "a"; doc "x"; doc "b"] ["a"; "b"; "c"] 5 = Ok (2 / 3)%R.
Proof. reflexivity. Qed.

Example ex_mrr_second_rank :
  calculate_mrr [doc "x"; doc "a"] ["a"] = Ok (1 / 2)%R.
Proof. reflexivity. Qed.

Example ex_ndcg_no_relevant : calculate_ndcg [doc "x"] [] 5 = 0%R.
Proof.
  unfold calculate_ndcg.
  change (ideal_dcg [] 5) with 0%R.
  destruct (Rlt_dec 0 0) as [H|_]; [lra | reflexivity].
Qed.

End BenchmarkExamples.
(** ** Facts about [strip], [slice] and [rfind] *)

Module StripFacts.
Import Py PyMore PyFacts.

Lemma lstrip_head (l : list ascii) (c : ascii) (r : list ascii) :
  lstrip_list l = c :: r -> is_space c = false.
Proof.
  induction l as [|x l IH]; simpl; [discriminate|].
  destruct (is_space x) eqn:E; [exact IH|].
  intros H. injection H as <- _. exact E.
Qed.

Lemma lstrip_fixed (c : ascii) (r : list ascii) :
  is_space c = false -> lstrip_list (c :: r) = c :: r.
Proof. intros H. simpl. now rewrite H. Qed.

Lemma lstrip_idempotent (l : list ascii) : lstrip_list (lstrip_list l) = lstrip_list l.
Proof.
  destruct (lstrip_list l) as [|c r] eqn:E; [reflexivity|].
  apply lstrip_fixed. eapply lstrip_head. exact E.
Qed.

(** What [lstrip_list] removes is white space. *)
Lemma lstrip_split (l : list ascii) :
  exists p, l = p ++ lstrip_list l /\ forallb is_space p = true.
Proof.
  induction l as [|x l [p [Hp Hs]]]; simpl.
  - now exists [].
  - destruct (is_space x) eqn:E.
    + exists (x :: p). simpl. rewrite E, Hs. split; [now f_equal | reflexivity].
    + now exists [].
Qed.

Lemma lstrip_nil_all_space (l : list ascii) :
  lstrip_list l = [] -> forallb is_space l = true.
Proof.
  intros H. destruct (lstrip_split l) as [p [Hp Hs]].
  rewrite H, app_nil_r in Hp. now subst p.
Qed.

Lemma forallb_rev_eq {A} (f : A -> bool) (l : list A) :
  forallb f (rev l) = forallb f l.
Proof.
  induction l as [|x l IH]; simpl; [reflexivity|].
  rewrite forallb_app, IH. simpl. rewrite andb_true_r. apply andb_comm.
Qed.

Lemma strip_as_list (s : string) :
  strip s = string_of_list_ascii (strip_list (list_ascii_of_string s)).
Proof. reflexivity. Qed.

Lemma strip_list_head (l : list ascii) (c : ascii) (r : list ascii) :
  strip_list l = c :: r -> is_space c = false.
Proof.
  unfold strip_list. intros H.
  destruct (lstrip_list l) as [|a t] eqn:Ea; [discriminate H|].
  pose proof (lstrip_head l a t Ea) as Ha.
  destruct (lstrip_split (rev (a :: t))) as [p [Hp Hs]].
  set (b := lstrip_list (rev (a :: t))) in *.
  assert (Hrev : a :: t = rev b ++ rev p).
  { rewrite <- rev_app_distr, <- Hp. now rewrite rev_involutive. }
  rewrite H in Hrev. simpl in Hrev. injection Hrev as -> _. exact Ha.
Qed.

Lemma strip_list_idempotent (l : list ascii) : strip_list (strip_list l) = strip_list l.
Proof.
  destruct (strip_list l) as [|c r] eqn:E; [reflexivity|].
  pose proof (strip_list_head l c r E) as Hc.
  unfold strip_list at 1. rewrite (lstrip_fixed c r Hc).
  rewrite <- E. unfold strip_list. rewrite rev_involutive, lstrip_idempotent.
  reflexivity.
Qed.

(** Stripping twice is stripping once. *)
Lemma strip_idempotent (s : string) : strip (strip s) = strip s.
Proof.
  rewrite !strip_as_list, list_ascii_of_string_of_list_ascii.
  now rewrite strip_list_idempotent.
Qed.

(** A text that strips to nothing is white space throughout. *)
Lemma strip_empty_all_space (s : string) :
  strip s = "" -> forallb is_space (list_ascii_of_string s) = true.
Proof.
  rewrite strip_as_list. intros H.
  assert (Hl : strip_list (list_ascii_of_string s) = []).
  { destruct (strip_list (list_ascii_of_string s)); [reflexivity | discriminate H]. }
  unfold strip_list in Hl.
  apply lstrip_nil_all_space.
  destruct (lstrip_list (list_ascii_of_string s)) as [|a t] eqn:Ea; [reflexivity|].
  exfalso.
  assert (Hb : lstrip_list (rev (a :: t)) = []).
  { destruct (lstrip_list (rev (a :: t))) as [|x y] eqn:Eb; [reflexivity|].
    simpl in Hl. destruct (rev y); discriminate Hl. }
  apply lstrip_nil_all_space in Hb. rewrite forallb_rev_eq in Hb. simpl in Hb.
  rewrite (lstrip_head _ a t Ea) in Hb. discriminate Hb.
Qed.

(** [s[a:b]] for [0 <= a <= b <= len(s)]. *)
Lemma slice_inside (s : string) (a b : Z) :
  0 <= a <= b -> b <= len s ->
  list_ascii_of_string (slice s a b)
  = firstn (Z.to_nat (b - a)) (skipn (Z.to_nat a) (list_ascii_of_string s)).
Proof.
  intros Hab Hb. unfold slice. rewrite list_ascii_of_string_of_list_ascii.
  unfold lslice, adjust_index. rewrite length_list_ascii_of_string.
  fold (len s).
  destruct (Z.ltb_spec a 0); [lia|]. destruct (Z.ltb_spec b 0); [lia|].
  now rewrite !Z.min_l by lia.
Qed.

(** Inside the text, [rfind] answers -1 or an index before [stop]. *)
Lemma rfind_before_stop (s : string) (c : ascii) (a stop : Z) :
  0 <= stop <= len s -> rfind s c a stop + 1 <= stop.
Proof.
  intros Hs. unfold rfind.
  destruct (Z.ltb_spec (len s) stop); [lia|].
  destruct (Z.ltb_spec stop 0); [lia|].
  set (lo := if a <? 0 then Z.max 0 (a + len s) else a).
  destruct (Z.ltb_spec (stop - lo) 1); [lia|].
  destruct (last_index c _) as [i|] eqn:Hi; [|lia].
  apply last_index_lt in Hi.
  pose proof (firstn_le_length (Z.to_nat (stop - lo))
                (skipn (Z.to_nat lo) (list_ascii_of_string s))) as Hf.
  lia.
Qed.

Lemma lstrip_length (l : list ascii) : (List.length (lstrip_list l) <= List.length l)%nat.
Proof.
  destruct (lstrip_split l) as [p [Hp _]].
  rewrite Hp at 2. rewrite length_app. lia.
Qed.

(** Stripping never lengthens. *)
Lemma strip_length (s : string) : len (strip s) <= len s.
Proof.
  unfold len. rewrite <- !length_list_ascii_of_string, strip_as_list,
    list_ascii_of_string_of_list_ascii.
  unfold strip_list. rewrite length_rev.
  pose proof (lstrip_length (rev (lstrip_list (list_ascii_of_string s)))) as H1.
  rewrite length_rev in H1.
  pose proof (lstrip_length (list_ascii_of_string s)). lia.
Qed.

Lemma slice_length_inside (s : string) (a b : Z) :
  0 <= a <= b -> b <= len s -> len (slice s a b) = b - a.
Proof.
  intros Hab Hb. unfold len at 1.
  rewrite <- length_list_ascii_of_string, slice_inside by assumption.
  rewrite length_firstn, length_skipn, length_list_ascii_of_string.
  unfold len in Hb. lia.
Qed.

(** The characters of a slice are those of the text at the same offsets. *)
Lemma slice_nth (s : string) (a b i : Z) :
  0 <= a <= i -> i < b -> b <= len s ->
  nth_error (list_ascii_of_string (slice s a b)) (Z.to_nat (i - a))
  = nth_error (list_ascii_of_string s) (Z.to_nat i).
Proof.
  intros Ha Hi Hb. rewrite slice_inside by lia.
  rewrite nth_error_firstn.
  destruct (Nat.ltb_spec (Z.to_nat (i - a)) (Z.to_nat (b - a))) as [_|N]; [|lia].
  rewrite nth_error_skipn. f_equal. lia.
Qed.

End StripFacts.
(** ** Facts about rounding *)

Module RoundingFacts.
Import Py Benchmark.
Local Open Scope R_scope.

Lemma int_part_bounds (y : R) : IZR (Int_part y) <= y < IZR (Int_part y) + 1.
Proof. destruct (base_Int_part y) as [H1 H2]. lra. Qed.

Lemma round_half_even_choice (y : R) :
  round_half_even y = Int_part y \/ round_half_even y = (Int_part y + 1)%Z.
Proof.
  unfold round_half_even.
  destruct (Rlt_dec (frac_part y) (1 / 2)); [now left|].
  destruct (Rlt_dec (1 / 2) (frac_part y)); [now right|].
  destruct (Z.even (Int_part y)); [now left | now right].
Qed.

(** The rounded value is at most one half away. *)
Lemma round_half_even_near (y : R) : Rabs (IZR (round_half_even y) - y) <= 1 / 2.
Proof.
  pose proof (int_part_bounds y) as Hb.
  unfold round_half_even, frac_part.
  destruct (Rlt_dec (y - IZR (Int_part y)) (1 / 2)) as [H1|H1].
  - apply Rabs_le. lra.
  - destruct (Rlt_dec (1 / 2) (y - IZR (Int_part y))) as [H2|H2].
    + rewrite plus_IZR. apply Rabs_le. simpl. lra.
    + destruct (Z.even (Int_part y)).
      * apply Rabs_le. lra.
      * rewrite plus_IZR. apply Rabs_le. simpl. lra.
Qed.

(** Rounding does not cross an integer. *)
Lemma round_half_even_ge (y : R) (N : Z) : IZR N <= y -> (N <= round_half_even y)%Z.
Proof.
  intros H. pose proof (int_part_bounds y) as Hb.
  assert (HN : (N <= Int_part y)%Z).
  { apply Z.lt_succ_r. apply lt_IZR. rewrite succ_IZR. lra. }
  destruct (round_half_even_choice y) as [-> | ->]; lia.
Qed.

Lemma round_half_even_le (y : R) (N : Z) : y <= IZR N -> (round_half_even y <= N)%Z.
Proof.
  intros H. pose proof (int_part_bounds y) as Hb.
  assert (HN : (Int_part y <= N)%Z) by (apply le_IZR; lra).
  destruct (Z.eq_dec (Int_part y) N) as [E|E].
  - unfold round_half_even, frac_part.
    destruct (Rlt_dec (y - IZR (Int_part y)) (1 / 2)) as [_|H1]; [lia|].
    exfalso. apply H1. rewrite E. lra.
  - destruct (round_half_even_choice y) as [-> | ->]; lia.
Qed.

Lemma pow10_pos (n : Z) : (0 <= n)%Z -> 0 < IZR (10 ^ n).
Proof. intros H. apply (IZR_lt 0). apply Z.pow_pos_nonneg; lia. Qed.

(** [round(x, n)] stays on the same side of every integer as [x]. *)
Lemma py_round_ge_int (x : R) (n m : Z) :
  (0 <= n)%Z -> IZR m <= x -> IZR m <= py_round x n.
Proof.
  intros Hn Hm. pose proof (pow10_pos n Hn) as Hp. unfold py_round.
  apply (Rmult_le_reg_r (IZR (10 ^ n))); [exact Hp|].
  unfold Rdiv. rewrite Rmult_assoc, Rinv_l, Rmult_1_r by lra.
  rewrite <- mult_IZR. apply IZR_le. apply round_half_even_ge.
  rewrite mult_IZR. apply Rmult_le_compat_r; lra.
Qed.

Lemma py_round_le_int (x : R) (n m : Z) :
  (0 <= n)%Z -> x <= IZR m -> py_round x n <= IZR m.
Proof.
  intros Hn Hm. pose proof (pow10_pos n Hn) as Hp. unfold py_round.
  apply (Rmult_le_reg_r (IZR (10 ^ n))); [exact Hp|].
  unfold Rdiv. rewrite Rmult_assoc, Rinv_l, Rmult_1_r by lra.
  rewrite <- mult_IZR. apply IZR_le. apply round_half_even_le.
  rewrite mult_IZR. apply Rmult_le_compat_r; lra.
Qed.

(** [round(x, n)] is within half a unit of the n-th decimal of [x]. *)
Lemma py_round_error (x : R) (n : Z) :
  (0 <= n)%Z -> Rabs (py_round x n - x) <= 1 / (2 * IZR (10 ^ n)).
Proof.
  intros Hn. pose proof (pow10_pos n Hn) as Hp. unfold py_round.
  set (p := IZR (10 ^ n)) in *.
  pose proof (round_half_even_near (x * p)) as H.
  replace (IZR (round_half_even (x * p)) / p - x)
    with ((IZR (round_half_even (x * p)) - x * p) * / p) by (field; lra).
  rewrite Rabs_mult, (Rabs_right (/ p)).
  - replace (1 / (2 * p)) with (1 / 2 * / p) by (field; lra).
    apply Rmult_le_compat_r; [|exact H].
    left. now apply Rinv_0_lt_compat.
  - left. now apply Rinv_0_lt_compat.
Qed.

(** A value with at most [n] decimals is left as it is. *)
Lemma py_round_exact (a n : Z) :
  (0 <= n)%Z -> py_round (IZR a / IZR (10 ^ n)) n = IZR a / IZR (10 ^ n).
Proof.
  intros Hn. pose proof (pow10_pos n Hn) as Hp. unfold py_round.
  replace (IZR a / IZR (10 ^ n) * IZR (10 ^ n)) with (IZR a) by (field; lra).
  f_equal. f_equal. apply Z.le_antisymm.
  - apply round_half_even_le. lra.
  - apply round_half_even_ge. lra.
Qed.

End RoundingFacts.
(** ** Invariants of the chunk sequence *)

Module ChunkingInvariants.
Import Py PyFacts Chunking ChunkingProofs ChunkingSpec.

(** A property kept by the body is kept by the loop, and the loop ends with
    the guard false. *)
Lemma while_loop_invariant (self : DocumentChunker) (text pre : string)
    (I : loop_state -> Prop) :
  (forall st, I st -> start st < len text -> I (loop_body self text pre st)) ->
  forall (fuel : nat) (st st' : loop_state),
    I st -> while_loop fuel self text pre st = Some st' ->
    I st' /\ len text <= start st'.
Proof.
  intros Hstep. induction fuel as [|fuel IH]; intros st st' HI H; simpl in H.
  - destruct (Z.ltb_spec (start st) (len text)); [discriminate|].
    injection H as <-. split; [exact HI | lia].
  - destruct (Z.ltb_spec (start st) (len text)).
    + eapply IH; [|exact H]. now apply Hstep.
    + injection H as <-. split; [exact HI | lia].
Qed.

Lemma iterate_invariant (self : DocumentChunker) (text pre : string)
    (I : loop_state -> Prop) :
  (forall st, I st -> I (loop_body self text pre st)) ->
  forall (n : nat) (st : loop_state), I st -> I (iterate n self text pre st).
Proof.
  intros Hstep. induction n as [|n IH]; intros st HI; simpl; [exact HI|].
  apply IH. now apply Hstep.
Qed.

(** The two shapes of the state after one iteration. *)
Lemma loop_body_cases (self : DocumentChunker) (text pre : string) (st : loop_state) :
  let e := choose_end self text (start st) in
  let t := strip (slice text (start st) e) in
  (t = "" /\ loop_body self text pre st
             = {| chunks := chunks st; start := e - overlap self;
                  chunk_count := chunk_count st |})
  \/ (t <> "" /\ loop_body self text pre st
                = {| chunks := chunks st ++
                       [ {| chunk_id := pre +:+ "_chunk_" +:+ str_of_int (chunk_count st);
                            chunk_content := t;
                            start_char := start st;
                            end_char := e;
                            chunk_length := len t |} ];
                     start := e - overlap self;
                     chunk_count := chunk_count st + 1 |}).
Proof.
  intros e t. unfold loop_body. fold e. fold t.
  destruct t as [|c r] eqn:E; simpl.
  - left. split; [reflexivity|]. now destruct st.
  - right. split; [discriminate | reflexivity].
Qed.

Lemma append_cancel_l (p a b : string) : p +:+ a = p +:+ b -> a = b.
Proof.
  induction p as [|c p IH]; simpl; intros H; [exact H|].
  injection H as H. now apply IH.
Qed.

Lemma to_int_not_nil (z : Z) :
  Z.to_int z <> Decimal.Pos Decimal.Nil /\ Z.to_int z <> Decimal.Neg Decimal.Nil.
Proof.
  destruct z as [|p|p]; simpl; split; try discriminate;
    intros H; injection H as H; now apply DecimalPos.Unsigned.to_uint_nonnil in H.
Qed.

(** Different integers print differently. *)
Lemma str_of_int_inj (a b : Z) : str_of_int a = str_of_int b -> a = b.
Proof.
  unfold str_of_int. intros H.
  destruct (to_int_not_nil a) as [Ha1 Ha2]. destruct (to_int_not_nil b) as [Hb1 Hb2].
  pose proof (NilZero.isi _ Ha1 Ha2) as Ea. pose proof (NilZero.isi _ Hb1 Hb2) as Eb.
  rewrite H, Eb in Ea. injection Ea as Ea.
  symmetry. now apply DecimalZ.to_int_inj.
Qed.

Lemma nth_chunk_id_inj (pre : string) (a b : nat) :
  nth_chunk_id pre a = nth_chunk_id pre b -> a = b.
Proof.
  unfold nth_chunk_id. intros H.
  apply append_cancel_l, append_cancel_l, str_of_int_inj in H. lia.
Qed.

Lemma NoDup_map_injective {A B} (f : A -> B) (l : list A) :
  (forall a b, f a = f b -> a = b) -> List.NoDup l -> List.NoDup (map f l).
Proof.
  intros Hf. induction 1 as [|x l Hx _ IH]; simpl; constructor; [|exact IH].
  intros Hin. apply in_map_iff in Hin. destruct Hin as [y [Hy Hin]].
  apply Hf in Hy. now subst y.
Qed.

Lemma numbered_step (self : DocumentChunker) (text pre : string) (st : loop_state) :
  numbered pre st -> numbered pre (loop_body self text pre st).
Proof.
  intros [Hc Hid].
  destruct (loop_body_cases self text pre st) as [[_ ->]|[_ ->]]; unfold numbered; simpl.
  - now split.
  - split.
    + unfold llen in *. rewrite length_app. simpl. lia.
    + rewrite length_app, map_app. simpl.
      rewrite Nat.add_1_r, seq_S, map_app. simpl. rewrite Hid.
      unfold nth_chunk_id at 3. rewrite Hc. reflexivity.
Qed.

Lemma numbered_initial (pre : string) : numbered pre initial_state.
Proof. split; reflexivity. Qed.

Lemma well_formed_step (self : DocumentChunker) (text pre : string) (st : loop_state) :
  Forall (well_formed_chunk text) (chunks st) ->
  Forall (well_formed_chunk text) (chunks (loop_body self text pre st)).
Proof.
  intros H.
  destruct (loop_body_cases self text pre st) as [[_ ->]|[Hne ->]]; simpl; [exact H|].
  apply Forall_app. split; [exact H|]. constructor; [|constructor].
  unfold well_formed_chunk. simpl.
  split; [exact Hne|]. split; [reflexivity|]. split; [reflexivity|].
  apply StripFacts.strip_idempotent.
Qed.

(** What the loop returns is a state reached by iterating the body. *)
Lemma while_loop_iterate (self : DocumentChunker) (text pre : string) :
  forall (fuel : nat) (st st' : loop_state),
    while_loop fuel self text pre st = Some st' ->
    exists n, st' = iterate n self text pre st.
Proof.
  induction fuel as [|fuel IH]; intros st st' H; simpl in H.
  - destruct (start st <? len text); [discriminate|].
    injection H as <-. now exists 0%nat.
  - destruct (start st <? len text).
    + apply IH in H. destruct H as [n ->]. now exists (S n).
    + injection H as <-. now exists 0%nat.
Qed.

Lemma returned_is_iterate (self : DocumentChunker) (text pre : string)
    (fuel : nat) (l : list Chunk) :
  chunk_text fuel self text pre = Some l ->
  exists n, l = chunks (iterate n self text pre initial_state).
Proof.
  unfold chunk_text. intros H.
  destruct (while_loop fuel self text pre initial_state) as [st'|] eqn:E; [|discriminate].
  injection H as <-. apply while_loop_iterate in E. destruct E as [n ->]. now exists n.
Qed.

Lemma iterate_numbered (self : DocumentChunker) (text pre : string) (n : nat) :
  let l := chunks (iterate n self text pre initial_state) in
  map chunk_id l = map (nth_chunk_id pre) (seq 0 (List.length l))
  /\ List.NoDup (map chunk_id l).
Proof.
  intros l.
  assert (Hnum : numbered pre (iterate n self text pre initial_state)).
  { apply iterate_invariant; [apply numbered_step | apply numbered_initial]. }
  destruct Hnum as [_ Hid]. fold l in Hid. split; [exact Hid|].
  rewrite Hid. apply NoDup_map_injective; [|apply seq_NoDup].
  intros a b. apply nth_chunk_id_inj.
Qed.

Lemma iterate_well_formed (self : DocumentChunker) (text pre : string) (n : nat) :
  Forall (well_formed_chunk text) (chunks (iterate n self text pre initial_state)).
Proof.
  apply (iterate_invariant self text pre
           (fun st => Forall (well_formed_chunk text) (chunks st)));
    [apply well_formed_step | constructor].
Qed.

(** X1. The chunks accumulated by [chunk_text], after any number of
    iterations and therefore in any returned list, carry the ids
    prefix_chunk_0, prefix_chunk_1, ... in this order, without gap; these
    ids are pairwise distinct. *)
Theorem chunk_ids_numbered (self : DocumentChunker) (text pre : string) :
  (forall n : nat,
      let l := chunks (iterate n self text pre initial_state) in
      map chunk_id l = map (nth_chunk_id pre) (seq 0 (List.length l))
      /\ List.NoDup (map chunk_id l))
  /\ (forall (fuel : nat) (l : list Chunk),
        chunk_text fuel self text pre = Some l ->
        map chunk_id l = map (nth_chunk_id pre) (seq 0 (List.length l))
        /\ List.NoDup (map chunk_id l)).
Proof.
  split; [apply iterate_numbered|].
  intros fuel l H. apply returned_is_iterate in H. destruct H as [n ->].
  apply iterate_numbered.
Qed.

Lemma chunk_ids_numbered_witness :
  chunk_text 20 (init 16 0) "Sentence one. Sentence two." "doc"
  = Some (default [] (chunk_text 20 (init 16 0) "Sentence one. Sentence two." "doc"))
  /\ map chunk_id (default [] (chunk_text 20 (init 16 0) "Sentence one. Sentence two." "doc"))
     = ["doc_chunk_0"; "doc_chunk_1"].
Proof.
  assert (H : chunk_text 20 (init 16 0) "Sentence one. Sentence two." "doc"
              = Some (default [] (chunk_text 20 (init 16 0)
                                    "Sentence one. Sentence two." "doc")))
    by (vm_compute; reflexivity).
  split; [exact H|].
  rewrite (proj1 (proj2 (chunk_ids_numbered (init 16 0) "Sentence one. Sentence two." "doc")
                    20%nat _ H)).
  vm_compute. reflexivity.
Defined.

(** X2. Every chunk accumulated by [chunk_text] has a content that is not
    empty, is the slice of the text between its two offsets with the outer
    white space removed (so that stripping it again changes nothing), and
    a length field equal to the length of that content. *)
Theorem chunks_well_formed (self : DocumentChunker) (text pre : string) :
  (forall n : nat,
      Forall (well_formed_chunk text) (chunks (iterate n self text pre initial_state)))
  /\ (forall (fuel : nat) (l : list Chunk),
        chunk_text fuel self text pre = Some l ->
        Forall (well_formed_chunk text) l).
Proof.
  split; [apply iterate_well_formed|].
  intros fuel l H. apply returned_is_iterate in H. destruct H as [n ->].
  apply iterate_well_formed.
Qed.

Lemma chunks_well_formed_witness :
  chunk_text 20 (init 16 0) "Sentence one. Sentence two." "doc"
  = Some (default [] (chunk_text 20 (init 16 0) "Sentence one. Sentence two." "doc"))
  /\ Forall (well_formed_chunk "Sentence one. Sentence two.")
       (default [] (chunk_text 20 (init 16 0) "Sentence one. Sentence two." "doc")).
Proof.
  assert (H : chunk_text 20 (init 16 0) "Sentence one. Sentence two." "doc"
              = Some (default [] (chunk_text 20 (init 16 0)
                                    "Sentence one. Sentence two." "doc")))
    by (vm_compute; reflexivity).
  split; [exact H|].
  exact (proj2 (chunks_well_formed (init 16 0) "Sentence one. Sentence two." "doc")
           20%nat _ H).
Defined.

Lemma ordered_from_snoc (lo : Z) (l : list Chunk) (c : Chunk) :
  ordered_from lo l -> span_end lo l <= start_char c -> start_char c < end_char c ->
  ordered_from lo (l ++ [c]).
Proof.
  revert lo. induction l as [|x l IH]; simpl; intros lo H Hs Hc.
  - now split.
  - destruct H as [H1 [H2 H3]]. split; [exact H1|]. split; [exact H2|]. now apply IH.
Qed.

Lemma span_end_snoc (lo : Z) (l : list Chunk) (c : Chunk) :
  span_end lo (l ++ [c]) = end_char c.
Proof. revert lo. induction l as [|x l IH]; simpl; intros lo; [reflexivity | apply IH]. Qed.

(** Inside the text an iteration takes at most [chunk_size] characters. *)
Lemma choose_end_le_size (self : DocumentChunker) (text : string) (s : Z) :
  0 < chunk_size self -> 0 <= s < len text ->
  choose_end self text s <= s + chunk_size self.
Proof.
  intros Hc Hs. unfold choose_end.
  set (e0 := Z.min (s + chunk_size self) (len text)).
  assert (H0 : 0 <= e0 <= len text) by (subst e0; lia).
  pose proof (StripFacts.rfind_before_stop text period s e0 H0).
  pose proof (StripFacts.rfind_before_stop text newline s e0 H0).
  destruct (e0 <? len text); [|lia].
  destruct (s <? rfind text period s e0); [lia|].
  destruct (s <? rfind text newline s e0); lia.
Qed.

(** A slice that strips to nothing holds white space only. *)
Lemma blank_slice (text : string) (s e i : Z) (c : ascii) :
  0 <= s <= i -> i < e -> e <= len text ->
  strip (slice text s e) = "" ->
  char_at text i = Some c -> is_space c = true.
Proof.
  intros Hs Hi He Hblank Hc.
  apply StripFacts.strip_empty_all_space in Hblank.
  unfold char_at in Hc. destruct (Z.ltb_spec i 0); [lia|].
  rewrite <- (StripFacts.slice_nth text s e i) in Hc by lia.
  apply nth_error_In in Hc.
  rewrite forallb_forall in Hblank. now apply Hblank.
Qed.

Lemma tiling_initial (self : DocumentChunker) (text : string) :
  tiling self text initial_state.
Proof.
  unfold tiling, covered_upto. simpl. pose proof (len_nonneg text).
  repeat split; try lia; try constructor.
  intros i c Hi Hc. unfold char_at in Hc.
  destruct (Z.ltb_spec i 0); [discriminate | lia].
Qed.

Lemma tiling_step (self : DocumentChunker) (text pre : string) (st : loop_state) :
  0 < chunk_size self -> overlap self = 0 ->
  tiling self text st -> start st < len text ->
  tiling self text (loop_body self text pre st).
Proof.
  intros Hcs Hov [Hst [Hord [Hspan [Hb Hcov]]]] Hlt.
  pose proof (choose_end_le_len self text (start st)) as He1.
  pose proof (choose_end_gt_start self text (start st) Hcs Hlt) as He2.
  pose proof (choose_end_le_size self text (start st) Hcs ltac:(lia)) as He3.
  set (e := choose_end self text (start st)) in *.
  destruct (loop_body_cases self text pre st) as [[Hblank ->]|[Hne ->]];
    fold e in Hblank || fold e in Hne; fold e; unfold tiling; simpl; rewrite Hov, Z.sub_0_r.
  - split; [lia|]. split; [exact Hord|]. split; [lia|]. split; [exact Hb|].
    intros i c Hi Hc Hsp.
    destruct (Z_lt_ge_dec i (start st)) as [Hlo|Hhi]; [now apply (Hcov i c)|].
    rewrite (blank_slice text (start st) e i c) in Hsp; [discriminate | lia | lia | lia | exact Hblank | exact Hc].
  - split; [lia|]. split; [apply ordered_from_snoc; simpl; [exact Hord | lia | lia]|].
    split; [rewrite span_end_snoc; simpl; lia|].
    split.
    + apply Forall_app. split; [exact Hb|]. constructor; [|constructor].
      unfold within_bounds. simpl.
      pose proof (StripFacts.strip_length (slice text (start st) e)) as Hl.
      rewrite StripFacts.slice_length_inside in Hl by lia. lia.
    + intros i c Hi Hc Hsp. apply Exists_app.
      destruct (Z_lt_ge_dec i (start st)) as [Hlo|Hhi]; [left; now apply (Hcov i c)|].
      right. constructor. unfold covers. simpl. unfold char_at in Hc.
      destruct (Z.ltb_spec i 0); [discriminate | lia].
Qed.

(** With a positive chunk size and no overlap, [chunk_text] returns a list
    that keeps the invariant up to the end of the text. *)
Lemma chunk_text_tiling (self : DocumentChunker) (text pre : string) :
  0 < chunk_size self -> overlap self = 0 ->
  exists l : list Chunk,
    chunk_text (Z.to_nat (len text)) self text pre = Some l
    /\ ordered_from 0 l
    /\ Forall (within_bounds text (chunk_size self)) l
    /\ covered_upto text (len text) l.
Proof.
  intros Hcs Hov.
  destruct (while_loop_terminates_no_overlap self text pre Hcs Hov
              (Z.to_nat (len text)) initial_state) as [st' E].
  { simpl. pose proof (len_nonneg text). lia. }
  destruct (while_loop_invariant self text pre (tiling self text)
              (fun st H Hlt => tiling_step self text pre st Hcs Hov H Hlt)
              _ _ _ (tiling_initial self text) E)
    as [[Hst [Hord [Hspan [Hb Hcov]]]] Hexit].
  exists (chunks st'). unfold chunk_text. rewrite E. simpl.
  split; [reflexivity|]. split; [exact Hord|]. split; [exact Hb|].
  intros i c Hi. apply Hcov. lia.
Qed.

(** X3. With chunk_size > 0 and overlap = 0, [chunk_text] returns chunks in
    increasing order that do not overlap: each one starts at or after the
    end of the one before it. Every chunk lies inside the text,
    [0 <= start_char < end_char <= len(text)], spans at most chunk_size
    characters, and its length field is at most chunk_size. *)
Theorem chunks_ordered_and_bounded (self : DocumentChunker) (text pre : string) :
  0 < chunk_size self -> overlap self = 0 ->
  exists l : list Chunk,
    chunk_text (Z.to_nat (len text)) self text pre = Some l
    /\ ordered_from 0 l
    /\ Forall (fun c => 0 <= start_char c /\ start_char c < end_char c
                        /\ end_char c <= len text
                        /\ end_char c - start_char c <= chunk_size self
                        /\ chunk_length c <= chunk_size self) l.
Proof.
  intros Hcs Hov.
  destruct (chunk_text_tiling self text pre Hcs Hov) as [l [E [Hord [Hb _]]]].
  exists l. split; [exact E|]. split; [exact Hord | exact Hb].
Qed.

Lemma chunks_ordered_and_bounded_witness :
  (0 < chunk_size (init 16 0) /\ overlap (init 16 0) = 0)
  /\ exists l : list Chunk,
       chunk_text (Z.to_nat (len "Sentence one. Sentence two.")) (init 16 0)
         "Sentence one. Sentence two." "doc" = Some l
       /\ ordered_from 0 l.
Proof.
  assert (H1 : 0 < chunk_size (init 16 0)) by (simpl; lia).
  assert (H2 : overlap (init 16 0) = 0) by reflexivity.
  split; [auto|].
  destruct (chunks_ordered_and_bounded (init 16 0) "Sentence one. Sentence two." "doc" H1 H2)
    as [l [E [Hord _]]].
  exists l. split; [exact E | exact Hord].
Defined.

(** X4. With chunk_size > 0 and overlap = 0, no text is lost: every
    character of the text that is not white space lies between start_char
    and end_char of one of the returned chunks. *)
Theorem chunks_cover_text (self : DocumentChunker) (text pre : string) :
  0 < chunk_size self -> overlap self = 0 ->
  exists l : list Chunk,
    chunk_text (Z.to_nat (len text)) self text pre = Some l
    /\ forall (i : Z) (c : ascii),
         char_at text i = Some c -> is_space c = false ->
         Exists (fun ch => start_char ch <= i < end_char ch) l.
Proof.
  intros Hcs Hov.
  destruct (chunk_text_tiling self text pre Hcs Hov) as [l [E [_ [_ Hcov]]]].
  exists l. split; [exact E|].
  intros i c Hc Hsp. apply (Hcov i c); [|exact Hc | exact Hsp].
  unfold char_at in Hc. destruct (Z.ltb_spec i 0); [discriminate|].
  assert (Hsome : nth_error (list_ascii_of_string text) (Z.to_nat i) <> None)
    by (rewrite Hc; discriminate).
  apply nth_error_Some in Hsome. rewrite length_list_ascii_of_string in Hsome.
  unfold len. lia.
Qed.

Lemma chunks_cover_text_witness :
  (0 < chunk_size (init 16 0) /\ overlap (init 16 0) = 0)
  /\ exists l : list Chunk,
       chunk_text (Z.to_nat (len "Sentence one. Sentence two.")) (init 16 0)
         "Sentence one. Sentence two." "doc" = Some l
       /\ Exists (fun ch => start_char ch <= 14 < end_char ch) l.
Proof.
  assert (H1 : 0 < chunk_size (init 16 0)) by (simpl; lia).
  assert (H2 : overlap (init 16 0) = 0) by reflexivity.
  split; [auto|].
  destruct (chunks_cover_text (init 16 0) "Sentence one. Sentence two." "doc" H1 H2)
    as [l [E Hcov]].
  exists l. split; [exact E|].
  apply (Hcov 14 "S"%char); reflexivity.
Defined.

End ChunkingInvariants.
(** ** Properties of [chunk_documents] *)

Module ChunkDocumentsProofs.
Import Py PyMore PyFacts Chunking ChunkingProofs ChunkingSpec ChunkingInvariants ChunkDocuments.

Lemma stamp_loop_spec (doc : Document) (cs : list Chunk) (acc : list DocChunk) :
  stamp_loop doc cs acc = acc ++ map (stamp doc) cs.
Proof.
  revert acc. induction cs as [|c cs IH]; intros acc; simpl.
  - now rewrite app_nil_r.
  - rewrite IH, <- app_assoc. reflexivity.
Qed.

(** The accumulator ends as the chunks of the documents, document after
    document. *)
Lemma documents_loop_spec (fuel : nat) (self : DocumentChunker) :
  forall (docs : list Document) (acc r : list DocChunk),
    documents_loop fuel self docs acc = Some r ->
    exists lss : list (list DocChunk),
      Forall2 (fun doc l => doc_chunks fuel self doc = Some l) docs lss
      /\ r = acc ++ concat lss.
Proof.
  induction docs as [|doc docs IH]; intros acc r H; simpl in H.
  - injection H as <-. exists []. split; [constructor | now rewrite app_nil_r].
  - destruct (chunk_text fuel self (content doc) (doc_prefix doc)) as [cs|] eqn:E;
      [|discriminate].
    apply IH in H. destruct H as [lss [HF ->]].
    exists (map (stamp doc) cs :: lss). split.
    + constructor; [|exact HF]. unfold doc_chunks. now rewrite E.
    + rewrite stamp_loop_spec. simpl. now rewrite app_assoc.
Qed.

(** More fuel does not change what the loop returns. *)
Lemma while_loop_more_fuel (self : DocumentChunker) (text pre : string) :
  forall (fuel fuel' : nat) (st st' : loop_state),
    (fuel <= fuel')%nat ->
    while_loop fuel self text pre st = Some st' ->
    while_loop fuel' self text pre st = Some st'.
Proof.
  induction fuel as [|fuel IH]; intros fuel' st st' Hle H; simpl in H.
  - destruct (start st <? len text) eqn:E; [discriminate|].
    destruct fuel'; simpl; now rewrite E.
  - destruct fuel' as [|fuel']; [lia|]. simpl.
    destruct (start st <? len text); [|exact H].
    apply (IH fuel'); [lia | exact H].
Qed.

Lemma chunk_text_more_fuel (self : DocumentChunker) (text pre : string)
    (fuel fuel' : nat) (l : list Chunk) :
  (fuel <= fuel')%nat ->
  chunk_text fuel self text pre = Some l -> chunk_text fuel' self text pre = Some l.
Proof.
  unfold chunk_text. intros Hle H.
  destruct (while_loop fuel self text pre initial_state) as [st'|] eqn:E; [|discriminate].
  now rewrite (while_loop_more_fuel self text pre fuel fuel' _ _ Hle E).
Qed.

(** Without overlap, fuel for the longest document is fuel for all. *)
Lemma documents_loop_returns (self : DocumentChunker) (fuel : nat) :
  0 < chunk_size self -> overlap self = 0 ->
  forall (docs : list Document) (acc : list DocChunk),
    Forall (fun doc => len (content doc) <= Z.of_nat fuel) docs ->
    exists r, documents_loop fuel self docs acc = Some r.
Proof.
  intros Hcs Hov. induction docs as [|doc docs IH]; intros acc HF; simpl; [eauto|].
  apply List.Forall_cons_iff in HF. destruct HF as [Hd HF'].
  destruct (chunk_text_returns_no_overlap self (content doc) (doc_prefix doc) Hcs Hov)
    as [l Hl].
  simpl in Hd.
  assert (Hfuel : (Z.to_nat (len (content doc)) <= fuel)%nat) by lia.
  rewrite (chunk_text_more_fuel self _ _ _ fuel l Hfuel Hl).
  now apply IH.
Qed.

Lemma enough_fuel_bound (docs : list Document) :
  Forall (fun doc => len (content doc) <= Z.of_nat (enough_fuel docs)) docs.
Proof.
  unfold enough_fuel.
  assert (H : forall m, fold_right Z.max 0 (map (fun doc => len (content doc)) docs) <= m ->
                        Forall (fun doc => len (content doc) <= m) docs).
  { induction docs as [|d docs IH]; intros m Hm; constructor; simpl in Hm; [lia|].
    apply IH. lia. }
  apply H.
  assert (0 <= fold_right Z.max 0 (map (fun doc => len (content doc)) docs)).
  { clear H. induction docs; simpl; lia. }
  lia.
Qed.

(** The stamped chunks of one document come from that document. *)
Lemma doc_chunks_cut_from (fuel : nat) (self : DocumentChunker) (doc : Document)
    (l : list DocChunk) :
  doc_chunks fuel self doc = Some l -> Forall (cut_from doc) l.
Proof.
  unfold doc_chunks. intros H.
  destruct (chunk_text fuel self (content doc) (doc_prefix doc)) as [cs|] eqn:E;
    [|discriminate].
  injection H as <-.
  apply returned_is_iterate in E. destruct E as [n ->].
  pose proof (iterate_well_formed self (content doc) (doc_prefix doc) n) as Hwf.
  destruct (iterate_numbered self (content doc) (doc_prefix doc) n) as [Hid _].
  set (cs := chunks (iterate n self (content doc) (doc_prefix doc) initial_state)) in *.
  apply List.Forall_forall. intros dc Hin. apply in_map_iff in Hin.
  destruct Hin as [c [<- Hc]]. unfold cut_from. simpl.
  repeat (split; [reflexivity|]).
  split; [now apply (proj1 (List.Forall_forall _ _) Hwf)|].
  assert (Hcid : In (chunk_id c) (map chunk_id cs)) by now apply in_map.
  rewrite Hid in Hcid. apply in_map_iff in Hcid. destruct Hcid as [k [Hk _]].
  now exists k.
Qed.

(** X5. With chunk_size > 0 and overlap = 0, [chunk_documents] returns.
    Its result is the chunks of the first document, then those of the
    second, and so on; every chunk carries the file name, the path, the
    title and the author of the document it was cut from ("Unknown" for a
    missing title or author), is a well-formed chunk of that document's
    content, and has an id made of the file name without ".pdf". *)
Theorem chunk_documents_provenance (self : DocumentChunker) (docs : list Document) :
  0 < chunk_size self -> overlap self = 0 ->
  exists (r : list DocChunk) (lss : list (list DocChunk)),
    chunk_documents (enough_fuel docs) self docs = Some r
    /\ r = concat lss
    /\ Forall2 (fun doc l => doc_chunks (enough_fuel docs) self doc = Some l
                             /\ Forall (cut_from doc) l) docs lss.
Proof.
  intros Hcs Hov.
  destruct (documents_loop_returns self (enough_fuel docs) Hcs Hov docs []
              (enough_fuel_bound docs)) as [r Hr].
  destruct (documents_loop_spec _ _ _ _ _ Hr) as [lss [HF ->]].
  exists (concat lss), lss. split; [exact Hr|]. split; [reflexivity|].
  eapply Forall2_impl; [exact HF|]. simpl.
  intros doc l Hl. split; [exact Hl | now apply doc_chunks_cut_from in Hl].
Qed.

Lemma chunk_documents_provenance_witness :
  (0 < chunk_size (init 16 0) /\ overlap (init 16 0) = 0)
  /\ exists r : list DocChunk,
       chunk_documents (enough_fuel [report_doc; blank_doc]) (init 16 0)
         [report_doc; blank_doc] = Some r.
Proof.
  assert (H1 : 0 < chunk_size (init 16 0)) by (simpl; lia).
  assert (H2 : overlap (init 16 0) = 0) by reflexivity.
  split; [auto|].
  destruct (chunk_documents_provenance (init 16 0) [report_doc; blank_doc] H1 H2)
    as [r [lss [Hr _]]].
  now exists r.
Defined.

Lemma documents_loop_skip_empty (fuel : nat) (self : DocumentChunker) :
  forall (docs : list Document) (acc : list DocChunk),
    documents_loop fuel self docs acc
    = documents_loop fuel self (List.filter (fun doc => truthy (content doc)) docs) acc.
Proof.
  induction docs as [|doc docs IH]; intros acc; simpl; [reflexivity|].
  destruct (content doc) as [|c s] eqn:E; simpl.
  - rewrite chunk_text_empty. simpl. apply IH.
  - rewrite E.
    destruct (chunk_text fuel self (String c s) (doc_prefix doc)); [apply IH | reflexivity].
Qed.

(** X6. Documents whose content is empty are skipped: [chunk_documents]
    gives the same result, whatever the configuration and the fuel, when
    they are removed from its input; a batch made of such documents only
    gives the empty list. *)
Theorem chunk_documents_skips_empty (fuel : nat) (self : DocumentChunker)
    (docs : list Document) :
  chunk_documents fuel self docs
  = chunk_documents fuel self (List.filter (fun doc => truthy (content doc)) docs)
  /\ (Forall (fun doc => content doc = "") docs ->
      chunk_documents fuel self docs = Some []).
Proof.
  split; [apply documents_loop_skip_empty|].
  intros H. unfold chunk_documents. rewrite documents_loop_skip_empty.
  replace (List.filter (fun doc => truthy (content doc)) docs) with (@nil Document);
    [reflexivity|].
  induction docs as [|doc docs IH]; [reflexivity|].
  apply List.Forall_cons_iff in H. destruct H as [Hd H]. simpl.
  rewrite Hd. simpl. now apply IH.
Qed.

Lemma chunk_documents_skips_empty_witness :
  Forall (fun doc => content doc = "") [blank_doc; blank_doc]
  /\ chunk_documents 0 init_default [blank_doc; blank_doc] = Some [].
Proof.
  assert (H : Forall (fun doc => content doc = "") [blank_doc; blank_doc])
    by (repeat constructor).
  split; [exact H|].
  exact (proj2 (chunk_documents_skips_empty 0 init_default [blank_doc; blank_doc]) H).
Defined.

(** X7. With an overlap of 1 or more, [chunk_documents] never returns as
    soon as one document has a content that is not empty: the call of
    [chunk_text] on that document does not end. *)
Theorem chunk_documents_never_returns (fuel : nat) (self : DocumentChunker)
    (docs : list Document) :
  1 <= overlap self ->
  Exists (fun doc => content doc <> "") docs ->
  chunk_documents fuel self docs = None.
Proof.
  intros Hov Hex. unfold chunk_documents. generalize (@nil DocChunk).
  induction Hex as [doc docs Hne|doc docs _ IH]; intros acc; simpl.
  - now rewrite (chunk_text_diverges self (content doc) (doc_prefix doc) fuel Hov Hne).
  - destruct (chunk_text fuel self (content doc) (doc_prefix doc)); [apply IH | reflexivity].
Qed.

Lemma chunk_documents_never_returns_witness :
  (1 <= overlap init_default
   /\ Exists (fun doc => content doc <> "") [blank_doc; report_doc])
  /\ chunk_documents 1000 init_default [blank_doc; report_doc] = None.
Proof.
  assert (H1 : 1 <= overlap init_default) by (simpl; lia).
  assert (H2 : Exists (fun doc => content doc <> "") [blank_doc; report_doc])
    by (right; left; discriminate).
  split; [auto|].
  exact (chunk_documents_never_returns 1000 init_default [blank_doc; report_doc] H1 H2).
Defined.

End ChunkDocumentsProofs.
(** ** Properties of [DocumentChunker.get_stats] *)

Module ChunkStatsProofs.
Import Py PyFacts Chunking ChunkDocuments Benchmark BenchmarkProofs RoundingFacts.

Lemma count_distinct_le (items : list string) :
  count_distinct items <= llen items.
Proof.
  unfold count_distinct, llen. apply inj_le.
  induction items as [|x items IH].
  - rewrite list_to_set_nil, size_empty. simpl. lia.
  - rewrite list_to_set_cons, size_union_alt, size_singleton.
    assert (Hsub : list_to_set items ∖ {[x]} ⊆ (list_to_set items : gset string))
      by (apply subseteq_difference_l; reflexivity).
    apply subseteq_size in Hsub. simpl. lia.
Qed.

Lemma count_distinct_pos (x : string) (items : list string) :
  1 <= count_distinct (x :: items).
Proof.
  unfold count_distinct. rewrite list_to_set_cons.
  assert (H : size ({[x]} ∪ list_to_set items : gset string) <> 0%nat).
  { apply size_non_empty_iff. intros E.
    apply (not_elem_of_empty (C := gset string) x). rewrite <- E.
    apply elem_of_union_l, elem_of_singleton. reflexivity. }
  lia.
Qed.

Lemma sum_z_shift (l : list Z) (a : Z) : fold_left Z.add l a = a + sum_z l.
Proof.
  unfold sum_z. revert a. induction l as [|x l IH]; intros a; simpl; [lia|].
  rewrite IH, (IH (0 + x)). lia.
Qed.

Lemma min_z_le_first (l : list Z) (x : Z) : min_z x l <= x.
Proof.
  unfold min_z. revert x. induction l as [|y l IH]; intros x; simpl; [lia|].
  specialize (IH (Z.min x y)). lia.
Qed.

Lemma min_z_lower (l : list Z) (x : Z) : Forall (fun y => min_z x l <= y) l.
Proof.
  unfold min_z. revert x. induction l as [|y l IH]; intros x; simpl; constructor.
  - pose proof (min_z_le_first l (Z.min x y)). unfold min_z in *. lia.
  - apply IH.
Qed.

Lemma max_z_ge_first (l : list Z) (x : Z) : x <= max_z x l.
Proof.
  unfold max_z. revert x. induction l as [|y l IH]; intros x; simpl; [lia|].
  specialize (IH (Z.max x y)). lia.
Qed.

Lemma max_z_upper (l : list Z) (x : Z) : Forall (fun y => y <= max_z x l) l.
Proof.
  unfold max_z. revert x. induction l as [|y l IH]; intros x; simpl; constructor.
  - pose proof (max_z_ge_first l (Z.max x y)). unfold max_z in *. lia.
  - apply IH.
Qed.

(** A sum lies between the number of items times a lower bound and times
    an upper bound. *)
Lemma sum_z_between (l : list Z) (lo hi : Z) :
  Forall (fun y => lo <= y <= hi) l ->
  lo * llen l <= sum_z l <= hi * llen l.
Proof.
  unfold llen. induction 1 as [|y l Hy _ IH]; simpl.
  - unfold sum_z. simpl. lia.
  - unfold sum_z. simpl. rewrite sum_z_shift. lia.
Qed.

Lemma quotient_between (s n lo hi : Z) :
  0 < n -> lo * n <= s <= hi * n ->
  (IZR lo <= IZR s / IZR n <= IZR hi)%R.
Proof.
  intros Hn [H1 H2].
  assert (Hp : (0 < IZR n)%R) by now apply (IZR_lt 0).
  apply IZR_le in H1, H2. rewrite mult_IZR in H1, H2.
  split.
  - apply (Rmult_le_reg_r (IZR n)); [exact Hp|].
    unfold Rdiv. rewrite Rmult_assoc, Rinv_l, Rmult_1_r by lra. exact H1.
  - apply (Rmult_le_reg_r (IZR n)); [exact Hp|].
    unfold Rdiv. rewrite Rmult_assoc, Rinv_l, Rmult_1_r by lra. exact H2.
Qed.

(** X8. [get_stats] on an empty list returns the two keys total_chunks = 0
    and avg_chunk_size = 0 and no other. On a list that is not empty it
    never raises and returns: total_chunks, the number of chunks;
    unique_documents, between 1 and total_chunks; min_chunk_size and
    max_chunk_size, which bound the length of every chunk;
    avg_chunk_size, between the two even after rounding to 2 decimals; and
    chunks_per_document, at least 1. *)
Theorem get_stats_summary :
  (get_stats [] = Ok (<["avg_chunk_size" := SInt 0]> {[ "total_chunks" := SInt 0 ]}))
  /\ (forall (first : DocChunk) (others : list DocChunk),
        let chunks := first :: others in
        exists (d : gmap string statval) (u lo hi : Z) (avg per : R),
          get_stats chunks = Ok d
          /\ d !! "total_chunks" = Some (SInt (llen chunks))
          /\ d !! "unique_documents" = Some (SInt u)
          /\ d !! "min_chunk_size" = Some (SInt lo)
          /\ d !! "max_chunk_size" = Some (SInt hi)
          /\ d !! "avg_chunk_size" = Some (SFloat avg)
          /\ d !! "chunks_per_document" = Some (SFloat per)
          /\ 1 <= u <= llen chunks
          /\ Forall (fun c => lo <= length_of c <= hi) chunks
          /\ (IZR lo <= avg <= IZR hi)%R
          /\ (1 <= per)%R).
Proof.
  split; [reflexivity|].
  intros first others chunks.
  set (total := llen chunks).
  set (u := count_distinct (map source_file chunks)).
  set (lo := min_z (length_of first) (map length_of others)).
  set (hi := max_z (length_of first) (map length_of others)).
  assert (Htotal : 0 < total) by (subst total chunks; unfold llen; simpl; lia).
  assert (Hu : 1 <= u <= total).
  { subst u total chunks. split; [apply count_distinct_pos|].
    etransitivity; [apply count_distinct_le|]. unfold llen. now rewrite length_map. }
  assert (Hb : Forall (fun c => lo <= length_of c <= hi) chunks).
  { subst chunks. constructor.
    - split; [apply min_z_le_first | apply max_z_ge_first].
    - pose proof (min_z_lower (map length_of others) (length_of first)) as H1.
      pose proof (max_z_upper (map length_of others) (length_of first)) as H2.
      rewrite List.Forall_map in H1, H2.
      apply List.Forall_forall. intros c Hc.
      rewrite List.Forall_forall in H1, H2. split; [now apply H1 | now apply H2]. }
  assert (Hsum : lo * total <= sum_z (map length_of chunks) <= hi * total).
  { subst total. unfold llen. rewrite <- (length_map length_of chunks).
    apply sum_z_between. now rewrite List.Forall_map. }
  pose proof (quotient_between _ _ _ _ Htotal Hsum) as Havg.
  set (avg := (IZR (sum_z (map length_of chunks)) / IZR total)%R) in *.
  exists (<["chunks_per_document" := SFloat (py_round (IZR total / IZR u) 2)]>
          (<["max_chunk_size" := SInt hi]>
          (<["min_chunk_size" := SInt lo]>
          (<["avg_chunk_size" := SFloat (py_round avg 2)]>
          (<["unique_documents" := SInt u]>
          {[ "total_chunks" := SInt total ]}))))),
    u, lo, hi, (py_round avg 2), (py_round (IZR total / IZR u) 2).
  split.
  { unfold get_stats. fold chunks. fold total. fold u. fold lo. fold hi.
    rewrite (truediv_ok _ total) by lia. simpl.
    destruct (Z.ltb_spec 0 u); [|lia].
    rewrite (truediv_ok total u) by lia. reflexivity. }
  split; [reflexivity|]. split; [reflexivity|]. split; [reflexivity|].
  split; [reflexivity|]. split; [reflexivity|]. split; [reflexivity|].
  split; [exact Hu|]. split; [exact Hb|].
  split.
  - split; [apply py_round_ge_int | apply py_round_le_int]; (lia || lra).
  - apply (py_round_ge_int _ 2 1); [lia|].
    assert (Hpu : (0 < IZR u)%R) by (apply (IZR_lt 0); lia).
    apply (Rmult_le_reg_r (IZR u)); [exact Hpu|].
    unfold Rdiv. rewrite Rmult_assoc, Rinv_l, Rmult_1_r, Rmult_1_l by lra.
    apply IZR_le. lia.
Qed.

End ChunkStatsProofs.
(** ** Ranges and monotonicity of the metrics *)

Module MetricBounds.
Import Py PyFacts Benchmark BenchmarkSpec BenchmarkProofs NdcgProofs.

Lemma count_relevant_le_length (ids relevant : list string) :
  count_relevant ids relevant <= llen ids.
Proof.
  unfold count_relevant, llen. apply inj_le. apply filter_length_le.
Qed.

Lemma adjust_index_nonneg (n k : Z) : 0 <= n -> 0 <= adjust_index n k <= n.
Proof.
  intros Hn. unfold adjust_index. destruct (Z.ltb_spec k 0); lia.
Qed.

Lemma adjust_index_le (n k : Z) : 0 <= n -> 0 <= k -> adjust_index n k <= k.
Proof.
  intros Hn Hk. unfold adjust_index. destruct (Z.ltb_spec k 0); lia.
Qed.

Lemma adjust_index_mono (n k k' : Z) :
  0 <= k <= k' -> adjust_index n k <= adjust_index n k'.
Proof.
  intros H. unfold adjust_index.
  destruct (Z.ltb_spec k 0); destruct (Z.ltb_spec k' 0); lia.
Qed.

(** [retrieved[:k]] holds at most [k] items when [k >= 0]. *)
Lemma slice_to_length_le {A} (l : list A) (k : Z) :
  0 <= k -> llen (slice_to l k) <= k.
Proof.
  intros Hk. rewrite slice_to_firstn. unfold llen at 1.
  pose proof (firstn_le_length (Z.to_nat (adjust_index (llen l) k)) l) as H.
  assert (Hn : 0 <= llen l) by (unfold llen; lia).
  pose proof (adjust_index_le (llen l) k Hn Hk). lia.
Qed.

Lemma ratio_in_unit_interval (a b : Z) :
  0 <= a <= b -> 0 < b -> (0 <= IZR a / IZR b <= 1)%R.
Proof.
  intros Ha Hb.
  assert (Hp : (0 < IZR b)%R) by now apply (IZR_lt 0).
  assert (H1 : (0 <= IZR a)%R) by (apply (IZR_le 0); lia).
  assert (H2 : (IZR a <= IZR b)%R) by (apply IZR_le; lia).
  split.
  - apply Rmult_le_pos; [exact H1 | left; now apply Rinv_0_lt_compat].
  - apply (Rmult_le_reg_r (IZR b)); [exact Hp|].
    unfold Rdiv. rewrite Rmult_assoc, Rinv_l, Rmult_1_r, Rmult_1_l by lra. exact H2.
Qed.

Lemma precision_value (retrieved : list Retrieved) (relevant : list string) (k : Z) :
  0 < k ->
  exists v : R,
    calculate_precision_at_k retrieved relevant k = Ok v /\ (0 <= v <= 1)%R.
Proof.
  intros Hk. unfold calculate_precision_at_k.
  destruct (Z.ltb_spec 0 k); [|lia]. rewrite truediv_ok by lia.
  eexists. split; [reflexivity|].
  apply ratio_in_unit_interval; [|exact Hk].
  split; [apply count_relevant_nonneg|].
  etransitivity; [apply count_relevant_le_length|].
  unfold llen. rewrite length_map. apply slice_to_length_le. lia.
Qed.

(** X9. For every k > 0, [calculate_precision_at_k] returns a value
    between 0 and 1, whatever the retrieved list (shorter than k, with
    repeated ids) and the relevant list. *)
Theorem precision_in_unit_interval
    (retrieved : list Retrieved) (relevant : list string) (k : Z) :
  0 < k ->
  exists v : R,
    calculate_precision_at_k retrieved relevant k = Ok v /\ (0 <= v <= 1)%R.
Proof. apply precision_value. Qed.

Lemma precision_in_unit_interval_witness :
  0 < 5
  /\ exists v : R,
       calculate_precision_at_k [doc "a"; doc "a"; doc "x"] ["a"] 5 = Ok v
       /\ (0 <= v <= 1)%R.
Proof.
  assert (H : 0 < 5) by lia.
  split; [exact H|].
  exact (precision_in_unit_interval [doc "a"; doc "a"; doc "x"] ["a"] 5 H).
Defined.

Lemma mrr_loop_first_hit (relevant : list string) (before : list Retrieved)
    (hit : Retrieved) (after : list Retrieved) :
  (forall r, In r before -> ~ In (r_id r) relevant) ->
  In (r_id hit) relevant ->
  forall rank, 1 <= rank ->
    mrr_loop rank (before ++ hit :: after) relevant
    = Ok (1 / IZR (rank + llen before))%R.
Proof.
  intros Hb Hh. induction before as [|r before IH]; intros rank Hr; simpl.
  - apply is_relevant_In in Hh. rewrite Hh. rewrite truediv_ok by lia.
    unfold llen. simpl. now rewrite Z.add_0_r.
  - destruct (is_relevant relevant (r_id r)) eqn:E.
    + apply is_relevant_In in E. exfalso. apply (Hb r); [now left | exact E].
    + rewrite IH; [|intros r' Hr'; apply Hb; now right | lia].
      do 3 f_equal. unfold llen. simpl length. lia.
Qed.

Lemma mrr_loop_bounds (relevant : list string) (retrieved : list Retrieved) :
  forall rank, 1 <= rank ->
    exists v : R, mrr_loop rank retrieved relevant = Ok v /\ (0 <= v <= 1)%R.
Proof.
  induction retrieved as [|r rest IH]; intros rank Hr; simpl.
  - exists 0%R. split; [reflexivity | lra].
  - destruct (is_relevant relevant (r_id r)); [|apply IH; lia].
    rewrite truediv_ok by lia. eexists. split; [reflexivity|].
    apply ratio_in_unit_interval; lia.
Qed.

(** X10. [calculate_mrr] never raises and returns a value between 0 and 1.
    When the first relevant id stands after [n] retrieved items that are
    not relevant, the value is 1 / (n + 1), whatever follows. *)
Theorem mrr_is_reciprocal_rank (relevant : list string) :
  (forall retrieved : list Retrieved,
      exists v : R, calculate_mrr retrieved relevant = Ok v /\ (0 <= v <= 1)%R)
  /\ (forall (before : list Retrieved) (hit : Retrieved) (after : list Retrieved),
        (forall r, In r before -> ~ In (r_id r) relevant) ->
        In (r_id hit) relevant ->
        calculate_mrr (before ++ hit :: after) relevant
        = Ok (1 / IZR (llen before + 1))%R).
Proof.
  split.
  - intros retrieved. apply mrr_loop_bounds. lia.
  - intros before hit after Hb Hh. unfold calculate_mrr.
    rewrite (mrr_loop_first_hit relevant before hit after Hb Hh 1) by lia.
    do 3 f_equal. lia.
Qed.

Lemma mrr_is_reciprocal_rank_witness :
  ((forall r, In r [doc "x"; doc "y"] -> ~ In (r_id r) ["a"])
   /\ In (r_id (doc "a")) ["a"])
  /\ calculate_mrr ([doc "x"; doc "y"] ++ doc "a" :: [doc "z"]) ["a"]
     = Ok (1 / IZR (llen [doc "x"; doc "y"] + 1))%R.
Proof.
  assert (H1 : forall r, In r [doc "x"; doc "y"] -> ~ In (r_id r) ["a"]).
  { intros r [<-|[<-|[]]] [E|[]]; discriminate E. }
  assert (H2 : In (r_id (doc "a")) ["a"]) by (left; reflexivity).
  split; [auto|].
  exact (proj2 (mrr_is_reciprocal_rank ["a"]) [doc "x"; doc "y"] (doc "a") [doc "z"] H1 H2).
Defined.

Lemma count_relevant_firstn_mono (l : list Retrieved) (relevant : list string)
    (a b : nat) :
  (a <= b)%nat ->
  count_relevant (map r_id (firstn a l)) relevant
  <= count_relevant (map r_id (firstn b l)) relevant.
Proof.
  intros Hab. unfold count_relevant, llen. apply inj_le.
  rewrite <- (firstn_skipn a (firstn b l)).
  rewrite firstn_firstn, Nat.min_l by lia.
  rewrite map_app, List.filter_app, length_app. lia.
Qed.

Lemma NoDup_firstn {A} (l : list A) (n : nat) : List.NoDup l -> List.NoDup (firstn n l).
Proof.
  intros H. rewrite <- (firstn_skipn n l) in H. now apply NoDup_app_remove_r in H.
Qed.

(** Distinct retrieved ids cannot hit more relevant ids than there are. *)
Lemma count_relevant_le_relevant (ids relevant : list string) :
  List.NoDup ids -> count_relevant ids relevant <= llen relevant.
Proof.
  intros H. unfold count_relevant, llen. apply inj_le.
  apply NoDup_incl_length; [now apply List.NoDup_filter|].
  intros x Hx. apply filter_In in Hx. destruct Hx as [_ Hx]. now apply is_relevant_In.
Qed.

Lemma recall_value (retrieved : list Retrieved) (relevant : list string) (k : Z) :
  calculate_recall_at_k retrieved relevant k
  = Ok (if 0 <? llen relevant
        then (IZR (count_relevant (map r_id (slice_to retrieved k)) relevant)
              / IZR (llen relevant))%R
        else 0%R).
Proof.
  unfold calculate_recall_at_k.
  destruct (Z.ltb_spec 0 (llen relevant)); [|reflexivity].
  now rewrite truediv_ok by lia.
Qed.

Lemma recall_monotone (retrieved : list Retrieved) (relevant : list string) (k k' : Z) :
  0 <= k <= k' ->
  exists v v' : R,
    calculate_recall_at_k retrieved relevant k = Ok v
    /\ calculate_recall_at_k retrieved relevant k' = Ok v'
    /\ (0 <= v <= v')%R
    /\ (List.NoDup (map r_id retrieved) -> (v' <= 1)%R).
Proof.
  intros Hk. rewrite !recall_value. eexists. eexists.
  split; [reflexivity|]. split; [reflexivity|].
  destruct (Z.ltb_spec 0 (llen relevant)) as [Hpos|Hz]; [|split; [lra | intros _; lra]].
  assert (Hp : (0 < IZR (llen relevant))%R) by now apply (IZR_lt 0).
  pose proof (count_relevant_nonneg (map r_id (slice_to retrieved k)) relevant) as H0.
  assert (Hmono : count_relevant (map r_id (slice_to retrieved k)) relevant
                  <= count_relevant (map r_id (slice_to retrieved k')) relevant).
  { rewrite !slice_to_firstn. apply count_relevant_firstn_mono.
    pose proof (adjust_index_mono (llen retrieved) k k' Hk).
    pose proof (adjust_index_nonneg (llen retrieved) k ltac:(unfold llen; lia)). lia. }
  split; [split|].
  - apply Rmult_le_pos; [apply (IZR_le 0); lia | left; now apply Rinv_0_lt_compat].
  - unfold Rdiv. apply Rmult_le_compat_r; [left; now apply Rinv_0_lt_compat|].
    now apply IZR_le.
  - intros Hnd. apply ratio_in_unit_interval; [|exact Hpos].
    split.
    + apply count_relevant_nonneg.
    + apply count_relevant_le_relevant. rewrite slice_to_firstn, <- firstn_map.
      now apply NoDup_firstn.
Qed.

(** X11. [calculate_recall_at_k] never raises. For 0 <= k <= k' the recall
    at k is at least 0 and at most the recall at k'; when the retrieved
    ids are pairwise distinct the recall is at most 1. *)
Theorem recall_monotone_in_k
    (retrieved : list Retrieved) (relevant : list string) (k k' : Z) :
  0 <= k <= k' ->
  exists v v' : R,
    calculate_recall_at_k retrieved relevant k = Ok v
    /\ calculate_recall_at_k retrieved relevant k' = Ok v'
    /\ (0 <= v <= v')%R
    /\ (List.NoDup (map r_id retrieved) -> (v' <= 1)%R).
Proof. apply recall_monotone. Qed.

Lemma recall_monotone_in_k_witness :
  0 <= 1 <= 2
  /\ exists v v' : R,
       calculate_recall_at_k [doc "x"; doc "a"] ["a"; "b"] 1 = Ok v
       /\ calculate_recall_at_k [doc "x"; doc "a"] ["a"; "b"] 2 = Ok v'
       /\ (0 <= v <= v')%R.
Proof.
  assert (H : 0 <= 1 <= 2) by lia.
  split; [exact H|].
  destruct (recall_monotone_in_k [doc "x"; doc "a"] ["a"; "b"] 1 2 H)
    as [v [v' [E [E' [Hv _]]]]].
  exists v, v'. auto.
Defined.

(** With repeated retrieved ids the recall can pass 1. *)
Example recall_above_one :
  calculate_recall_at_k [doc "a"; doc "a"] ["a"] 5 = Ok (2 / 1)%R.
Proof. reflexivity. Qed.

End MetricBounds.
(** ** The range of NDCG *)

Module NdcgRange.
Import Py PyFacts Benchmark BenchmarkSpec BenchmarkProofs NdcgProofs MetricBounds.
Local Open Scope R_scope.

Lemma fold_left_Rplus_shift (l : list R) (a : R) :
  fold_left Rplus l a = a + fold_left Rplus l 0.
Proof.
  revert a. induction l as [|x l IH]; intros a; simpl; [lra|].
  rewrite IH, (IH (0 + x)). lra.
Qed.

Lemma py_sum_cons (x : R) (l : list R) : py_sum (x :: l) = x + py_sum l.
Proof. unfold py_sum. simpl. rewrite fold_left_Rplus_shift. lra. Qed.

Lemma py_sum_discounts (h : nat) :
  forall a : Z,
    py_sum (map discount (map (fun i => (a + Z.of_nat i)%Z) (seq 0 h)))
    = discount_sum a h.
Proof.
  induction h as [|h IH]; intros a; [reflexivity|].
  simpl seq. rewrite <- seq_shift. simpl map. rewrite py_sum_cons. simpl.
  rewrite Z.add_0_r. f_equal. rewrite <- (IH (a + 1)%Z). f_equal. f_equal.
  rewrite map_map. apply map_ext. intros i. lia.
Qed.

(** The ideal DCG is the sum of the first [min(len(relevant), k)] discounts. *)
Lemma ideal_dcg_as_sum (relevant : list string) (k : Z) :
  ideal_dcg relevant k = discount_sum 1 (Z.to_nat (Z.min (llen relevant) k)).
Proof.
  unfold ideal_dcg, py_range.
  replace (Z.to_nat (Z.min (llen relevant) k + 1 - 1))
    with (Z.to_nat (Z.min (llen relevant) k)) by lia.
  apply py_sum_discounts.
Qed.

Lemma discount_sum_nonneg (h : nat) : forall rank, (1 <= rank)%Z -> 0 <= discount_sum rank h.
Proof.
  induction h as [|h IH]; intros rank Hr; simpl; [lra|].
  pose proof (discount_pos rank Hr). specialize (IH (rank + 1)%Z ltac:(lia)). lra.
Qed.

Lemma discount_sum_more (h H : nat) :
  (h <= H)%nat -> forall rank, (1 <= rank)%Z -> discount_sum rank h <= discount_sum rank H.
Proof.
  revert H. induction h as [|h IH]; intros H Hle rank Hr.
  - simpl. now apply discount_sum_nonneg.
  - destruct H as [|H]; [lia|]. simpl.
    specialize (IH H ltac:(lia) (rank + 1)%Z ltac:(lia)). lra.
Qed.

Lemma discount_sum_later (h : nat) :
  forall rank, (1 <= rank)%Z -> discount_sum (rank + 1) h <= discount_sum rank h.
Proof.
  induction h as [|h IH]; intros rank Hr; simpl; [lra|].
  pose proof (discount_antitone rank (rank + 1) Hr ltac:(lia)).
  specialize (IH (rank + 1)%Z ltac:(lia)). lra.
Qed.

(** The gains of a list with [h] relevant items are at most the [h] best
    discounts from its first rank on. *)
Lemma dcg_sum_le_best (relevant : list string) (items : list Retrieved) :
  forall rank, (1 <= rank)%Z ->
    dcg_sum rank items relevant <= discount_sum rank (hits relevant items).
Proof.
  unfold hits. induction items as [|x items IH]; intros rank Hr; simpl; [lra|].
  specialize (IH (rank + 1)%Z ltac:(lia)). unfold gain.
  destruct (is_relevant relevant (r_id x)); simpl.
  - lra.
  - pose proof (discount_sum_later
                  (List.length (List.filter (fun r => is_relevant relevant (r_id r)) items))
                  rank Hr). lra.
Qed.

Lemma dcg_sum_nonneg (relevant : list string) (items : list Retrieved) :
  forall rank, (1 <= rank)%Z -> 0 <= dcg_sum rank items relevant.
Proof.
  induction items as [|x items IH]; intros rank Hr; simpl; [lra|].
  pose proof (gain_nonneg relevant rank x Hr).
  specialize (IH (rank + 1)%Z ltac:(lia)). lra.
Qed.

Lemma hits_as_count (relevant : list string) (items : list Retrieved) :
  Z.of_nat (hits relevant items) = count_relevant (map r_id items) relevant.
Proof.
  unfold hits, count_relevant, llen. f_equal.
  induction items as [|x items IH]; simpl; [reflexivity|].
  destruct (is_relevant relevant (r_id x)); simpl; now rewrite IH.
Qed.

Lemma calculate_ndcg_range (retrieved : list Retrieved) (relevant : list string) (k : Z) :
  0 <= calculate_ndcg retrieved relevant k
  /\ (List.NoDup (map r_id retrieved) -> calculate_ndcg retrieved relevant k <= 1).
Proof.
  unfold calculate_ndcg.
  destruct (Rlt_dec 0 (ideal_dcg relevant k)) as [Hpos|_]; [|split; [lra | intros _; lra]].
  rewrite dcg_loop_sum, Rplus_0_l.
  set (items := slice_to retrieved k).
  pose proof (dcg_sum_nonneg relevant items 1 ltac:(lia)) as H0.
  split.
  - apply Rmult_le_pos; [exact H0 | left; now apply Rinv_0_lt_compat].
  - intros Hnd.
    apply (Rmult_le_reg_r (ideal_dcg relevant k)); [exact Hpos|].
    unfold Rdiv. rewrite Rmult_assoc, Rinv_l, Rmult_1_r, Rmult_1_l by lra.
    etransitivity; [apply dcg_sum_le_best; lia|].
    rewrite ideal_dcg_as_sum. apply discount_sum_more; [|lia].
    destruct (Z.ltb_spec k 0) as [Hneg|Hk].
    { exfalso. rewrite ideal_dcg_as_sum in Hpos.
      replace (Z.to_nat (Z.min (llen relevant) k)) with 0%nat in Hpos by lia.
      simpl in Hpos. lra. }
    pose proof (hits_as_count relevant items) as Hh.
    pose proof (count_relevant_le_length (map r_id items) relevant) as H1.
    unfold llen in H1 at 1. rewrite length_map in H1.
    pose proof (slice_to_length_le retrieved k Hk) as H2. fold items in H2.
    unfold llen in H2 at 1.
    assert (H3 : (count_relevant (map r_id items) relevant <= llen relevant)%Z).
    { apply count_relevant_le_relevant. subst items.
      rewrite slice_to_firstn, <- firstn_map. now apply NoDup_firstn. }
    lia.
Qed.

(** X12. [calculate_ndcg] is never negative, and when the retrieved ids
    are pairwise distinct it is at most 1, for every k and every relevant
    list (0 when k <= 0 or when no id is relevant). *)
Theorem ndcg_in_unit_interval
    (retrieved : list Retrieved) (relevant : list string) (k : Z) :
  0 <= calculate_ndcg retrieved relevant k
  /\ (List.NoDup (map r_id retrieved) -> calculate_ndcg retrieved relevant k <= 1).
Proof. apply calculate_ndcg_range. Qed.

Lemma ndcg_in_unit_interval_witness :
  List.NoDup (map r_id [doc "x"; doc "a"; doc "b"])
  /\ calculate_ndcg [doc "x"; doc "a"; doc "b"] ["a"; "b"; "c"] 5 <= 1.
Proof.
  assert (H : List.NoDup (map r_id [doc "x"; doc "a"; doc "b"])).
  { simpl. constructor; [intros [E|[E|[]]]; discriminate E|].
    constructor; [intros [E|[]]; discriminate E|].
    constructor; [intros []|]. constructor. }
  split; [exact H|].
  exact (proj2 (ndcg_in_unit_interval [doc "x"; doc "a"; doc "b"] ["a"; "b"; "c"] 5) H).
Defined.

End NdcgRange.
(** ** Properties of the evaluation session *)

Module EvaluationProofs.
Import Py PyFacts Benchmark BenchmarkSpec BenchmarkProofs NdcgProofs MetricBounds
       NdcgRange RoundingFacts.

(** X13. [evaluate_query] never raises, whatever the retriever returns and
    whatever [k]. It appends exactly one record to the accumulator and
    returns it; in that record precision@5, precision@10 and MRR lie
    between 0 and 1, recall@5 is between 0 and recall@10, and both NDCG
    values are at least 0. *)
Theorem evaluate_query_record
    (self : RAGBenchmark) (q : string) (relevant_ids : list string) (k : Z) :
  exists m : MetricRecord,
    evaluate_query self q relevant_ids k
    = Ok (m, {| retriever := retriever self; results := results self ++ [m] |})
    /\ query m = q
    /\ num_relevant m = llen relevant_ids
    /\ num_retrieved m = llen (retriever self q (k * 2))
    /\ (0 <= precision_at_5 m <= 1)%R
    /\ (0 <= precision_at_10 m <= 1)%R
    /\ (0 <= recall_at_5 m <= recall_at_10 m)%R
    /\ (0 <= mrr m <= 1)%R
    /\ (0 <= ndcg_at_5 m)%R /\ (0 <= ndcg_at_10 m)%R.
Proof.
  set (retrieved := retriever self q (k * 2)).
  destruct (precision_value retrieved relevant_ids 5 ltac:(lia)) as [p5 [E5 H5]].
  destruct (precision_value retrieved relevant_ids 10 ltac:(lia)) as [p10 [E10 H10]].
  destruct (recall_monotone retrieved relevant_ids 5 10 ltac:(lia))
    as [r5 [r10 [Er5 [Er10 [Hr _]]]]].
  destruct (mrr_loop_bounds relevant_ids retrieved 1 ltac:(lia)) as [rr [Err Hrr]].
  eexists. split.
  - unfold evaluate_query. fold retrieved. unfold calculate_mrr.
    rewrite E5, E10, Er5, Er10, Err. simpl. reflexivity.
  - simpl. split; [reflexivity|]. split; [reflexivity|]. split; [reflexivity|].
    split; [exact H5|]. split; [exact H10|]. split; [exact Hr|]. split; [exact Hrr|].
    split; apply calculate_ndcg_range.
Qed.

Lemma evaluate_query_appends
    (self : RAGBenchmark) (q : string) (relevant_ids : list string) (k : Z) :
  exists m : MetricRecord,
    evaluate_query self q relevant_ids k
    = Ok (m, {| retriever := retriever self; results := results self ++ [m] |})
    /\ query m = q.
Proof.
  set (retrieved := retriever self q (k * 2)).
  destruct (precision_value retrieved relevant_ids 5 ltac:(lia)) as [p5 [E5 H5]].
  destruct (precision_value retrieved relevant_ids 10 ltac:(lia)) as [p10 [E10 H10]].
  destruct (recall_monotone retrieved relevant_ids 5 10 ltac:(lia))
    as [r5 [r10 [Er5 [Er10 _]]]].
  destruct (mrr_loop_bounds relevant_ids retrieved 1 ltac:(lia)) as [rr [Err Hrr]].
  eexists. split.
  - unfold evaluate_query. fold retrieved. unfold calculate_mrr.
    rewrite E5, E10, Er5, Er10, Err. simpl. reflexivity.
  - reflexivity.
Qed.

(** The loop over the pairs appends one record per pair, in order. *)
Lemma evaluate_all_appends (pairs : list (string * list string)) :
  forall self : RAGBenchmark,
    exists new : list MetricRecord,
      evaluate_all self pairs
      = Ok {| retriever := retriever self; results := results self ++ new |}
      /\ map query new = map fst pairs.
Proof.
  induction pairs as [|[q rel] pairs IH]; intros self; simpl.
  - exists []. rewrite app_nil_r. split; [now destruct self | reflexivity].
  - destruct (evaluate_query_appends self q rel 5) as [m [E Hq]].
    rewrite E. simpl.
    destruct (IH {| retriever := retriever self; results := results self ++ [m] |})
      as [new [E' Hnew]].
    exists (m :: new). rewrite E'. simpl. rewrite <- app_assoc. simpl.
    split; [reflexivity | now rewrite Hq, Hnew].
Qed.

Lemma aggregated_total (self : RAGBenchmark) :
  results self <> [] ->
  fst (get_aggregated_metrics self) !! "total_queries"
  = Some (AInt (llen (results self)))
  /\ fst (get_aggregated_metrics self) !! "error" = None
  /\ snd (get_aggregated_metrics self) = self.
Proof.
  intros H. unfold get_aggregated_metrics.
  destruct (results self) as [|r rs] eqn:E; [contradiction|].
  simpl fst. simpl snd. rewrite !lookup_fmap.
  repeat (rewrite lookup_insert_ne by discriminate).
  rewrite lookup_singleton_eq, lookup_singleton_ne by discriminate.
  split; [reflexivity|]. split; reflexivity.
Qed.

(** X14. [evaluate_multiple_queries] never raises. It appends one record
    per pair, in the order of the pairs, after the records that the
    session already holds, and aggregates over all of them: as soon as
    there is a record, old or new, the returned dictionary has no "error"
    key and its total_queries is the number of old records plus the
    number of pairs. *)
Theorem evaluate_multiple_queries_accumulates
    (self : RAGBenchmark) (pairs : list (string * list string)) :
  exists (new : list MetricRecord) (agg : gmap string aggval),
    evaluate_multiple_queries self pairs
    = Ok (agg, {| retriever := retriever self; results := results self ++ new |})
    /\ map query new = map fst pairs
    /\ (results self <> [] \/ pairs <> [] ->
        agg !! "total_queries" = Some (AInt (llen (results self) + llen pairs))
        /\ agg !! "error" = None).
Proof.
  destruct (evaluate_all_appends pairs self) as [new [E Hnew]].
  set (self' := {| retriever := retriever self; results := results self ++ new |}) in *.
  exists new, (fst (get_aggregated_metrics self')).
  assert (Hlen : List.length new = List.length pairs).
  { rewrite <- (length_map query new), Hnew. apply length_map. }
  split; [|split; [exact Hnew|]].
  - unfold evaluate_multiple_queries. rewrite E. simpl.
    destruct (results self') as [|r rs] eqn:Er.
    + unfold get_aggregated_metrics. rewrite Er. reflexivity.
    + assert (Hne : results self' <> []) by (rewrite Er; discriminate).
      destruct (aggregated_total self' Hne) as [_ [_ Hs]].
      rewrite (surjective_pairing (get_aggregated_metrics self')) at 1.
      now rewrite Hs.
  - intros Hsome.
    assert (Hne : results self' <> []).
    { subst self'. simpl. intros Hnil. apply app_eq_nil in Hnil. destruct Hnil as [H1 H2].
      destruct Hsome as [H|H]; [now apply H|].
      subst new. destruct pairs; [now apply H | discriminate Hlen]. }
    destruct (aggregated_total self' Hne) as [Ht [He _]].
    split; [|exact He]. rewrite Ht. do 2 f_equal.
    subst self'. simpl. unfold llen. rewrite length_app. lia.
Qed.

Lemma evaluate_multiple_queries_accumulates_witness :
  (results (init two_docs) <> [] \/ [("q", ["a"])] <> [])
  /\ exists (new : list MetricRecord) (agg : gmap string aggval),
       evaluate_multiple_queries (init two_docs) [("q", ["a"])]
       = Ok (agg, {| retriever := two_docs; results := [] ++ new |})
       /\ agg !! "total_queries" = Some (AInt 1).
Proof.
  assert (H : results (init two_docs) <> [] \/ [("q", ["a"])] <> [])
    by (right; discriminate).
  split; [exact H|].
  destruct (evaluate_multiple_queries_accumulates (init two_docs) [("q", ["a"])])
    as [new [agg [E [_ Hagg]]]].
  exists new, agg. split; [exact E|]. exact (proj1 (Hagg H)).
Defined.

Lemma py_sum_between (l : list R) (a b : R) :
  Forall (fun x => (a <= x <= b)%R) l ->
  (a * INR (List.length l) <= py_sum l <= b * INR (List.length l))%R.
Proof.
  induction 1 as [|x l Hx _ IH].
  - unfold py_sum. simpl. lra.
  - rewrite py_sum_cons. change (List.length (x :: l)) with (S (List.length l)).
    rewrite S_INR. lra.
Qed.

(** The mean of values between two bounds lies between them. *)
Lemma np_mean_between (l : list R) (a b : R) :
  l <> [] -> Forall (fun x => (a <= x <= b)%R) l -> (a <= np_mean l <= b)%R.
Proof.
  intros Hne H. apply py_sum_between in H. unfold np_mean.
  assert (Hp : (0 < INR (List.length l))%R).
  { apply lt_0_INR. destruct l; [contradiction | simpl; lia]. }
  split.
  - apply (Rmult_le_reg_r (INR (List.length l))); [exact Hp|].
    unfold Rdiv. rewrite Rmult_assoc, Rinv_l, Rmult_1_r by lra. lra.
  - apply (Rmult_le_reg_r (INR (List.length l))); [exact Hp|].
    unfold Rdiv. rewrite Rmult_assoc, Rinv_l, Rmult_1_r by lra. lra.
Qed.

Lemma rounded_mean_properties (rs : list MetricRecord) (f : MetricRecord -> R) :
  rs <> [] ->
  let v := py_round (np_mean (map f rs)) 4 in
  (Rabs (v - np_mean (map f rs)) <= 1 / 20000)%R
  /\ (Forall (fun r => (0 <= f r <= 1)%R) rs -> (0 <= v <= 1)%R)
  /\ (forall a : Z, np_mean (map f rs) = (IZR a / 10000)%R -> v = (IZR a / 10000)%R).
Proof.
  intros Hne v. subst v. split; [|split].
  - pose proof (py_round_error (np_mean (map f rs)) 4 ltac:(lia)) as H.
    replace (1 / (2 * IZR (10 ^ 4)))%R with (1 / 20000)%R in H; [exact H|].
    replace (10 ^ 4) with 10000 by reflexivity. lra.
  - intros H.
    assert (Hm : (0 <= np_mean (map f rs) <= 1)%R).
    { apply np_mean_between; [destruct rs; [contradiction | discriminate]|].
      now rewrite List.Forall_map. }
    split; [apply (py_round_ge_int _ 4 0) | apply (py_round_le_int _ 4 1)]; (lia || lra).
  - intros a Ha. rewrite Ha.
    pose proof (py_round_exact a 4 ltac:(lia)) as H.
    replace (10 ^ 4) with 10000 in H by reflexivity. exact H.
Qed.

Lemma aggregate_lookup (self : RAGBenchmark) (kf : string * (MetricRecord -> R)) :
  results self <> [] -> In kf aggregate_fields ->
  fst (get_aggregated_metrics self) !! fst kf
  = Some (AFloat (py_round (np_mean (map (snd kf) (results self))) 4)).
Proof.
  intros Hne Hin. unfold get_aggregated_metrics.
  destruct (results self) as [|r rs]; [contradiction|].
  cbn [fst]. rewrite lookup_fmap.
  unfold aggregate_fields in Hin. simpl In in Hin.
  repeat (destruct Hin as [<-|Hin];
          [ cbn [fst snd]; repeat (rewrite lookup_insert_ne by discriminate);
            rewrite lookup_insert_eq; reflexivity | ]).
  contradiction.
Qed.

(** X15. With at least one record, each of the eight averages of the
    aggregate dictionary is the mean of its field over all the records,
    rounded to 4 decimals: it is within 0.00005 of the mean, it lies
    between 0 and 1 when the field does in every record, and it is the
    mean itself when the mean has at most 4 decimals. *)
Theorem aggregates_are_rounded_means (self : RAGBenchmark) :
  results self <> [] ->
  Forall (fun kf : string * (MetricRecord -> R) =>
            exists v : R,
              fst (get_aggregated_metrics self) !! fst kf = Some (AFloat v)
              /\ (Rabs (v - np_mean (map (snd kf) (results self))) <= 1 / 20000)%R
              /\ (Forall (fun r => (0 <= snd kf r <= 1)%R) (results self) ->
                  (0 <= v <= 1)%R)
              /\ (forall a : Z,
                     np_mean (map (snd kf) (results self)) = (IZR a / 10000)%R ->
                     v = (IZR a / 10000)%R))
         aggregate_fields.
Proof.
  intros Hne. apply List.Forall_forall. intros kf Hin.
  exists (py_round (np_mean (map (snd kf) (results self))) 4).
  split; [now apply aggregate_lookup | now apply rounded_mean_properties].
Qed.

Lemma aggregates_are_rounded_means_witness :
  results {| retriever := two_docs;
             results := [ {| query := "q"; num_relevant := 1; num_retrieved := 2;
                             precision_at_5 := 0; precision_at_10 := 0;
                             recall_at_5 := 0; recall_at_10 := 0; mrr := 0;
                             ndcg_at_5 := 0; ndcg_at_10 := 0;
                             avg_similarity_score := 0 |} ] |} <> []
  /\ exists v : R,
       fst (get_aggregated_metrics
              {| retriever := two_docs;
                 results := [ {| query := "q"; num_relevant := 1; num_retrieved := 2;
                                 precision_at_5 := 0; precision_at_10 := 0;
                                 recall_at_5 := 0; recall_at_10 := 0; mrr := 0;
                                 ndcg_at_5 := 0; ndcg_at_10 := 0;
                                 avg_similarity_score := 0 |} ] |})
         !! "avg_mrr" = Some (AFloat v).
Proof.
  set (self := {| retriever := two_docs;
                  results := [ {| query := "q"; num_relevant := 1; num_retrieved := 2;
                                  precision_at_5 := 0; precision_at_10 := 0;
                                  recall_at_5 := 0; recall_at_10 := 0; mrr := 0;
                                  ndcg_at_5 := 0; ndcg_at_10 := 0;
                                  avg_similarity_score := 0 |} ] |}).
  assert (H : results self <> []) by discriminate.
  split; [exact H|].
  pose proof (aggregates_are_rounded_means self H) as HF.
  rewrite List.Forall_forall in HF.
  destruct (HF ("avg_mrr", mrr)) as [v [Hv _]].
  - unfold aggregate_fields. simpl. auto 10.
  - now exists v.
Defined.

End EvaluationProofs.
(** ** More properties of metadata_extraction.py *)

Module ExtractionMore.
Import Py Regex RegexProofs MetadataExtraction ExtractionProofs ExtractionSpec.

(** X16. No extraction rule raises, on any text: the pH and water
    activity rules catch what [float] raises, and the concentration rule,
    which has no handler, only ever passes to [float] a text that it
    accepts; so the metadata record of a text is always produced. *)
Theorem extraction_never_raises (self : MetadataExtractor) (text : string) :
  (exists v, extract_ph_range self text = Ok v)
  /\ (exists v, extract_aw self text = Ok v)
  /\ (exists v, extract_concentration self text = Ok v)
  /\ (exists m, extract_metadata self text = Ok m).
Proof.
  split; [apply scan_patterns_total|]. split; [apply scan_patterns_total|].
  split; [apply extract_concentration_total | apply extract_metadata_total].
Qed.

Lemma is_digit_value (c : ascii) :
  is_digit c = true -> 0 <= Z.of_N (N_of_ascii c) - 48 <= 9.
Proof.
  unfold is_digit. intros H. apply andb_true_iff in H. destruct H as [H1 H2].
  apply N.leb_le in H1, H2. lia.
Qed.

Lemma digits_value_nonneg (l : list ascii) :
  forall acc v, 0 <= acc -> digits_value acc l = Some v -> 0 <= v.
Proof.
  induction l as [|c l IH]; intros acc v Hacc H; simpl in H.
  - injection H as <-. exact Hacc.
  - destruct (is_digit c) eqn:Ec; [|discriminate].
    apply is_digit_value in Ec.
    apply (IH (10 * acc + (Z.of_N (N_of_ascii c) - 48)) v); [lia | exact H].
Qed.

(** [float] returns no negative number. *)
Lemma py_float_nonneg (s : string) (q : Q) : py_float s = Ok q -> (0 <= q)%Q.
Proof.
  unfold py_float. destruct (split_period _) as [ip fp].
  destruct (ip ++ _) as [|a l]; [discriminate|].
  destruct (digits_value 0 (a :: l)) as [v|] eqn:E; [|discriminate].
  intros H. injection H as <-. rewrite Qred_correct.
  apply digits_value_nonneg in E; [|lia].
  unfold Qle. simpl. lia.
Qed.

Lemma readable_grows (w : world) (d : gmap string pyval) (m : ExtractedMetadata)
    (c : nat) :
  readable w c -> readable (with_metadata w d m) c.
Proof.
  intros [d' [text [Hc Ht]]]. exists d', text. split; [|exact Ht].
  simpl. rewrite lookup_app_l; [exact Hc | now apply lookup_lt_Some in Hc].
Qed.

(** The body of the loop of [process_chunks]. *)
Lemma extract_chunk_metadata_readable (w : world) (c : nat) :
  readable w c ->
  exists (d : gmap string pyval) (text : string) (m : ExtractedMetadata),
    store w !! c = Some d
    /\ default (VStr "") (d !! "content") = VStr text
    /\ extract_metadata (extractor w) text = Ok m
    /\ extract_chunk_metadata w c = Ok (List.length (store w), with_metadata w d m).
Proof.
  intros [d [text [Hc Ht]]].
  destruct (extract_metadata_total (extractor w) text) as [m Hm].
  exists d, text, m. repeat (split; [assumption|]).
  now apply (extract_chunk_metadata_ok w c d text m).
Qed.

Lemma process_chunks_cons (w : world) (c : nat) (rest : list nat) :
  process_chunks w (c :: rest)
  = (let* r := extract_chunk_metadata w c in
     let* rs := process_chunks (snd r) rest in
     Ok (fst r :: fst rs, snd rs)).
Proof. reflexivity. Qed.

(** What was annotated from the grown store was annotated from the store. *)
Lemma annotated_from_before (w W : world) (d : gmap string pyval)
    (m : ExtractedMetadata) (chunks outs : list nat) :
  Forall (readable w) chunks ->
  Forall2 (annotated (with_metadata w d m) W) chunks outs ->
  Forall2 (annotated w W) chunks outs.
Proof.
  intros Hr HF. induction HF as [|c o chunks outs Ha _ IH]; [constructor|].
  apply List.Forall_cons_iff in Hr. destruct Hr as [[d0 [t0 [Hc0 Ht0]]] Hr].
  constructor; [|now apply IH].
  destruct Ha as [d' [text [m' [Hd [Ht [Hm Ho]]]]]].
  simpl in Hd. rewrite lookup_app_l in Hd by now apply lookup_lt_Some in Hc0.
  exists d', text, m'. repeat (split; [assumption|]). exact Ho.
Qed.

Lemma process_chunks_spec (chunks : list nat) :
  forall w : world,
    Forall (readable w) chunks ->
    exists (outs : list nat) (added : list (gmap string pyval)),
      process_chunks w chunks
      = Ok (outs, {| extractor := extractor w; store := store w ++ added |})
      /\ outs = seq (List.length (store w)) (List.length chunks)
      /\ List.length added = List.length chunks
      /\ Forall2 (annotated w {| extractor := extractor w; store := store w ++ added |})
           chunks outs.
Proof.
  induction chunks as [|c chunks IH]; intros w Hr.
  - exists [], []. simpl. rewrite app_nil_r.
    split; [now destruct w|]. split; [reflexivity|]. split; [reflexivity | constructor].
  - pose proof Hr as Hall.
    apply List.Forall_cons_iff in Hr. destruct Hr as [Hc Hr].
    destruct (extract_chunk_metadata_readable w c Hc) as [d [text [m [Hd [Ht [Hm E]]]]]].
    assert (Hr1 : Forall (readable (with_metadata w d m)) chunks).
    { eapply List.Forall_impl; [|exact Hr]. intros a. apply readable_grows. }
    destruct (IH (with_metadata w d m) Hr1) as [outs [added [E1 [Houts [Hlen HF]]]]].
    exists (List.length (store w) :: outs),
      (<["extracted_metadata" := VMeta m]> d :: added).
    assert (Hw : {| extractor := extractor (with_metadata w d m);
                    store := store (with_metadata w d m) ++ added |}
                 = {| extractor := extractor w;
                      store := store w ++ <["extracted_metadata" := VMeta m]> d :: added |}).
    { simpl. now rewrite <- app_assoc. }
    rewrite Hw in E1, HF.
    rewrite process_chunks_cons, E. unfold bind at 1. cbn [fst snd].
    rewrite E1. unfold bind. cbn [fst snd].
    split; [reflexivity|].
    split.
    { rewrite Houts. simpl. rewrite length_app. simpl. now rewrite Nat.add_1_r. }
    split; [simpl; now rewrite Hlen|].
    constructor.
    + exists d, text, m. repeat (split; [assumption|]).
      simpl. now apply list_lookup_middle.
    + now apply (annotated_from_before w _ d m).
Qed.

(** X17. [process_chunks] on chunk dictionaries whose content is a string
    (or is missing) never raises. It returns as many new dictionaries as
    it received, at fresh consecutive addresses and in the same order;
    the i-th one is the i-th input with the metadata of its content under
    "extracted_metadata"; the extractor and every dictionary that existed
    before the call are unchanged. *)
Theorem process_chunks_annotates_in_order (w : world) (chunks : list nat) :
  Forall (readable w) chunks ->
  exists (outs : list nat) (w' : world),
    process_chunks w chunks = Ok (outs, w')
    /\ outs = seq (List.length (store w)) (List.length chunks)
    /\ extractor w' = extractor w
    /\ (forall i d, store w !! i = Some d -> store w' !! i = Some d)
    /\ Forall2 (annotated w w') chunks outs.
Proof.
  intros Hr.
  destruct (process_chunks_spec chunks w Hr) as [outs [added [E [Houts [_ HF]]]]].
  exists outs, {| extractor := extractor w; store := store w ++ added |}.
  split; [exact E|]. split; [exact Houts|]. split; [reflexivity|].
  split; [|exact HF].
  intros i d Hi. simpl. rewrite lookup_app_l; [exact Hi | now apply lookup_lt_Some in Hi].
Qed.

Lemma process_chunks_annotates_in_order_witness :
  Forall (readable sample_world) [1%nat; 0%nat]
  /\ exists (outs : list nat) (w' : world),
       process_chunks sample_world [1%nat; 0%nat] = Ok (outs, w')
       /\ outs = [2%nat; 3%nat].
Proof.
  assert (H : Forall (readable sample_world) [1%nat; 0%nat]).
  { constructor; [|constructor; [|constructor]].
    - exists sample_chunk_b, sample. split; [reflexivity | vm_compute; reflexivity].
    - exists sample_chunk_a, sample. split; [reflexivity | vm_compute; reflexivity]. }
  split; [exact H|].
  destruct (process_chunks_annotates_in_order sample_world [1%nat; 0%nat] H)
    as [outs [w' [E [Houts _]]]].
  exists outs, w'. split; [exact E | exact Houts].
Defined.

Lemma extends_no_groups (r : regex) (cs cs1 : caps) :
  group_ids r = [] -> extends (group_ids r) cs cs1 -> cs1 = cs.
Proof.
  intros E [added [-> F]]. rewrite E in F.
  destruct added as [|b added]; [reflexivity|].
  apply List.Forall_cons_iff in F. destruct F as [[] _].
Qed.

Lemma rmatch_seq {X} (a b : regex) (s : list ascii) (cs : caps) (k : cont X) :
  rmatch (Seq a b) s cs k = rmatch a s cs (fun s1 cs1 => rmatch b s1 cs1 k).
Proof. reflexivity. Qed.

Lemma rmatch_group {X} (n : nat) (a : regex) (s : list ascii) (cs : caps) (k : cont X) :
  rmatch (Group n a) s cs k
  = rmatch a s cs
      (fun s1 cs1 => k s1 ((n, firstn (List.length s - List.length s1) s) :: cs1)).
Proof. reflexivity. Qed.

(** One step through a sub-pattern without group: the text it consumed
    is named, the captures are unchanged. *)
Ltac skip_plain H :=
  rewrite rmatch_seq in H; apply rmatch_sound in H;
  let t := fresh "t" in let s := fresh "s" in let cs := fresh "cs" in
  let Ext := fresh "Ext" in
  destruct H as (t & s & cs & -> & _ & Ext & H);
  match type of Ext with
  | extends (group_ids ?r) ?c0 ?c =>
      assert (c = c0) by (apply (extends_no_groups r); [reflexivity | exact Ext]);
      subst c; clear Ext
  end;
  cbv beta in H.

(** One step through a group whose body holds no group. *)
Ltac take_group H t Ht :=
  rewrite rmatch_group in H; apply rmatch_sound in H;
  let s := fresh "s" in let cs := fresh "cs" in let Ext := fresh "Ext" in
  destruct H as (t & s & cs & -> & Ht & Ext & H);
  match type of Ext with
  | extends (group_ids ?r) ?c0 ?c =>
      assert (c = c0) by (apply (extends_no_groups r); [reflexivity | exact Ext]);
      subst c; clear Ext
  end;
  cbv beta in H; rewrite firstn_consumed in H.


(** *** The unit and the value of a concentration *)








(** *** Water activities *)

Lemma zero_literal (c : ascii) : ci_eq (N_of_ascii "0") c = true -> c = "0"%char.
Proof.
  destruct c as [[] [] [] [] [] [] [] []]; intros H;
    (reflexivity || (vm_compute in H; discriminate H)).
Qed.

(** A text matched by [fraction]: 0, a period, and digits, at least one. *)
Lemma fraction_shape (t : list ascii) :
  lang fraction t ->
  exists d ds, t = "0"%char :: "."%char :: d :: ds
               /\ forallb is_digit (d :: ds) = true.
Proof.
  intros [t1 [t2 [-> [[c0 [-> H0]] [t3 [t4 [-> [[c1 [-> H1]]
            [t5 [ts [-> [[d [-> Hd]] Fts]]]]]]]]]]]].
  apply zero_literal in H0. apply period_literal in H1. subst c0 c1.
  apply digits_of_runs in Fts.
  exists d, (concat ts). split; [reflexivity|].
  simpl. now rewrite Hd, Fts.
Qed.

Lemma digits_value_lt (l : list ascii) :
  forall acc v, 0 <= acc -> digits_value acc l = Some v ->
                v < (acc + 1) * 10 ^ Z.of_nat (List.length l).
Proof.
  induction l as [|c l IH]; intros acc v Hacc H; simpl in H.
  - injection H as <-. simpl. lia.
  - destruct (is_digit c) eqn:Ec; [|discriminate].
    apply is_digit_value in Ec.
    apply IH in H; [|lia].
    change (List.length (c :: l)) with (S (List.length l)).
    rewrite Nat2Z.inj_succ, Z.pow_succ_r by lia.
    assert (0 < 10 ^ Z.of_nat (List.length l)) by (apply Z.pow_pos_nonneg; lia).
    nia.
Qed.

(** [float] of such a text: a number from 0 to 1. *)
Lemma py_float_fraction (t : list ascii) :
  lang fraction t ->
  exists q, py_float (string_of_list_ascii t) = Ok q /\ in_unit_interval q
            /\ (len (string_of_list_ascii t) =? 2) = false.
Proof.
  intros H. apply fraction_shape in H. destruct H as [d [ds [-> Hd]]].
  destruct (digits_value_total _ Hd 0) as [v Hv].
  exists (Qred (v # Z.to_pos (10 ^ Z.of_nat (List.length (d :: ds))))).
  split; [|split].
  - unfold py_float. rewrite list_ascii_of_string_of_list_ascii.
    change (split_period ("0"%char :: "."%char :: d :: ds))
      with (["0"%char], Some (d :: ds)).
    cbv iota beta.
    change (["0"%char] ++ d :: ds) with ("0"%char :: d :: ds).
    cbv iota beta.
    change (digits_value 0 ("0"%char :: d :: ds)) with (digits_value 0 (d :: ds)).
    rewrite Hv. reflexivity.
  - pose proof (digits_value_nonneg _ _ _ (Z.le_refl 0) Hv) as Hge.
    pose proof (digits_value_lt _ _ _ (Z.le_refl 0) Hv) as Hlt.
    assert (Hp : 0 < 10 ^ Z.of_nat (List.length (d :: ds)))
      by (apply Z.pow_pos_nonneg; lia).
    remember (10 ^ Z.of_nat (List.length (d :: ds))) as n.
    split; rewrite Qred_correct; unfold Qle; cbn [Qnum Qden];
      rewrite ?Z2Pos.id by exact Hp; lia.
  - apply Z.eqb_neq. unfold len. simpl String.length. lia.
Qed.

Lemma aw_range_items (text : string) (it : findall_item) :
  In it (findall (nth 0 aw_patterns Eps) text) ->
  exists t1 t2, lang fraction t1 /\ lang fraction t2
                /\ it = ItemTuple [string_of_list_ascii t1; string_of_list_ascii t2].
Proof.
  intros Hin. apply findall_list_items in Hin.
  destruct Hin as [s0 [s1 [cs1 [H ->]]]].
  cbn [nth aw_patterns seq_of] in H.
  skip_plain H. skip_plain H. skip_plain H. skip_plain H.
  rewrite rmatch_seq in H. take_group H u1 Hu1.
  skip_plain H. skip_plain H. skip_plain H.
  take_group H u2 Hu2.
  injection H as <- <-. exists u1, u2. split; [exact Hu1|]. split; [exact Hu2|].
  reflexivity.
Qed.

Lemma aw_value_items (text : string) (it : findall_item) :
  In it (findall (nth 1 aw_patterns Eps) text) ->
  exists t, lang fraction t /\ it = ItemStr (string_of_list_ascii t).
Proof.
  intros Hin. apply findall_list_items in Hin.
  destruct Hin as [s0 [s1 [cs1 [H ->]]]].
  cbn [nth aw_patterns seq_of] in H.
  skip_plain H. skip_plain H. skip_plain H. skip_plain H.
  take_group H u1 Hu1.
  injection H as <- <-. exists u1. split; [exact Hu1|]. reflexivity.
Qed.

(** X19. A water activity that [extract_aw] returns, single value or the
    two ends of a range, is at least 0 and at most 1: the patterns only
    capture texts made of 0, a period and digits. *)
Theorem extract_aw_in_unit_interval (self : MetadataExtractor) (text : string)
    (m : measure) :
  extract_aw self text = Ok (Some m) -> unit_interval_measure m.
Proof.
  unfold extract_aw.
  change aw_patterns with [nth 0 aw_patterns Eps; nth 1 aw_patterns Eps].
  cbn [scan_patterns].
  destruct (findall (nth 0 aw_patterns Eps) text) as [|m0 ms] eqn:E0.
  - destruct (findall (nth 1 aw_patterns Eps) text) as [|m1 ms] eqn:E1;
      [discriminate|].
    assert (Hin : In m1 (findall (nth 1 aw_patterns Eps) text))
      by (rewrite E1; now left).
    apply aw_value_items in Hin. destruct Hin as [t [Lt ->]].
    destruct (py_float_fraction t Lt) as [q [Hq [Fq Hlen]]].
    cbn [item_len]. rewrite Hlen, Hq.
    intros H. injection H as <-. exact Fq.
  - assert (Hin : In m0 (findall (nth 0 aw_patterns Eps) text))
      by (rewrite E0; now left).
    apply aw_range_items in Hin. destruct Hin as [t1 [t2 [L1 [L2 ->]]]].
    destruct (py_float_fraction t1 L1) as [q1 [Hq1 [F1 _]]].
    destruct (py_float_fraction t2 L2) as [q2 [Hq2 [F2 _]]].
    change (item_len (ItemTuple [string_of_list_ascii t1; string_of_list_ascii t2]) =? 2)
      with true.
    cbn [item_get nth]. rewrite Hq1, Hq2. simpl.
    intros H. injection H as <-. split; assumption.
Qed.

Lemma extract_aw_in_unit_interval_witness :
  extract_aw init "Water activity between 0.90 - 0.95" = Ok (Some (Range (9 # 10) (19 # 20)))
  /\ unit_interval_measure (Range (9 # 10) (19 # 20)).
Proof.
  split; [vm_compute; reflexivity|].
  exact (extract_aw_in_unit_interval init "Water activity between 0.90 - 0.95"
           (Range (9 # 10) (19 # 20)) ltac:(vm_compute; reflexivity)).
Defined.

(** *** text_extraction.py: [extract_numbers] *)

Lemma number_items (text : string) (it : findall_item) :
  In it (findall number text) ->
  exists t, lang number t /\ it = ItemStr (string_of_list_ascii t).
Proof.
  intros Hin. apply findall_list_items in Hin.
  destruct Hin as [s0 [s1 [cs1 [H ->]]]].
  apply rmatch_sound in H. destruct H as (t & s & cs & -> & Ht & Ext & H).
  injection H as <- <-. rewrite firstn_consumed.
  exists t. split; [exact Ht | reflexivity].
Qed.

Lemma floats_of_numbers (items : list findall_item) :
  Forall (fun it => exists t, lang number t /\ it = ItemStr (string_of_list_ascii t))
         items ->
  exists xs, TextExtraction.floats_of items = Ok xs
             /\ List.length xs = List.length items
             /\ Forall (fun x => (0 <= x)%Q) xs.
Proof.
  induction 1 as [|it items [t [Lt ->]] _ [xs [E [Hl Hx]]]]; simpl.
  - exists []. repeat split. constructor.
  - destruct (py_float_number t Lt) as [q Hq]. rewrite Hq, E. simpl.
    exists (q :: xs). split; [reflexivity|]. split; [simpl; now rewrite Hl|].
    constructor; [now apply py_float_nonneg in Hq | exact Hx].
Qed.

(** X20. [extract_numbers] raises nothing, whatever the text: every match
    of its pattern is a text that [float] accepts. It returns one number
    for each match, none of them negative. *)
Theorem extract_numbers_total (text : string) :
  exists xs, TextExtraction.extract_numbers text = Ok xs
             /\ List.length xs = List.length (findall number text)
             /\ Forall (fun x => (0 <= x)%Q) xs.
Proof.
  unfold TextExtraction.extract_numbers. apply floats_of_numbers.
  apply List.Forall_forall. intros it Hin. now apply (number_items text).
Qed.

End ExtractionMore.

(** ** Properties of vector_db_fixed.py *)

Module VectorDbProofs.
Import Py PyMore Chunking ChunkDocuments MetadataExtraction VectorDb.

Lemma lslice_batch {A} (l : list A) (i bs : Z) :
  0 <= i -> 0 < bs ->
  lslice l i (i + bs) = firstn (Z.to_nat bs) (skipn (Z.to_nat i) l).
Proof.
  intros Hi Hbs. unfold lslice, adjust_index.
  destruct (Z.ltb_spec i 0) as [|_]; [lia|].
  destruct (Z.ltb_spec (i + bs) 0) as [|_]; [lia|].
  set (n := Z.of_nat (List.length l)).
  destruct (Z.le_gt_cases n i) as [Hge|Hlt].
  - rewrite (Z.min_r i n), (Z.min_r (i + bs) n) by lia.
    replace (Z.to_nat (n - n)) with 0%nat by lia. simpl.
    assert (Hd : skipn (Z.to_nat i) l = []) by (apply skipn_all2; unfold n in Hge; lia).
    rewrite Hd. now rewrite firstn_nil.
  - rewrite (Z.min_l i n) by lia.
    destruct (Z.le_gt_cases (i + bs) n) as [Hin|Hout].
    + rewrite (Z.min_l (i + bs) n) by lia. f_equal. lia.
    + rewrite (Z.min_r (i + bs) n) by lia.
      rewrite !firstn_all2; [reflexivity| |];
        rewrite length_skipn; unfold n in *; lia.
Qed.

Lemma batch_then_rest {A} (l : list A) (i bs : Z) :
  0 <= i -> 0 < bs ->
  lslice l i (i + bs) ++ skipn (Z.to_nat (i + bs)) l = skipn (Z.to_nat i) l.
Proof.
  intros Hi Hbs. rewrite lslice_batch by lia.
  replace (Z.to_nat (i + bs)) with (Z.to_nat bs + Z.to_nat i)%nat by lia.
  rewrite <- skipn_skipn. apply firstn_skipn.
Qed.

Lemma batch_length {A} (l : list A) (i bs : Z) :
  0 <= i -> 0 < bs -> i < llen l ->
  1 <= llen (lslice l i (i + bs)) <= bs.
Proof.
  intros Hi Hbs Hlt. rewrite lslice_batch by lia. unfold llen in *.
  rewrite length_firstn, length_skipn. lia.
Qed.

Lemma batch_count_step (r bs : Z) :
  0 < bs -> 0 < r ->
  (Z.max 0 r + bs - 1) / bs = 1 + (Z.max 0 (r - bs) + bs - 1) / bs.
Proof.
  intros Hbs Hr. rewrite (Z.max_r 0 r) by lia.
  destruct (Z.le_gt_cases bs r) as [Hge|Hlt].
  - rewrite (Z.max_r 0 (r - bs)) by lia.
    replace (r + bs - 1) with (r - bs + bs - 1 + 1 * bs) by lia.
    rewrite Z.div_add by lia. lia.
  - rewrite (Z.max_l 0 (r - bs)) by lia.
    rewrite (Z.div_small (0 + bs - 1) bs) by lia.
    replace (r + bs - 1) with (r - 1 + 1 * bs) by lia.
    rewrite Z.div_add by lia. rewrite Z.div_small by lia. lia.
Qed.

(** The batches from position [i] on: together the chunks from [i] on, each
    of one to [batch_size] chunks, as many as the rounded-up quotient. *)
Lemma batches_from (chunks : list StoredChunk) (bs : Z) :
  0 < bs ->
  forall (fuel : nat) (i : Z),
    0 <= i -> llen chunks - i <= Z.of_nat fuel ->
    let batches := map (batch_at chunks bs) (range_loop fuel i (llen chunks) bs) in
    concat batches = skipn (Z.to_nat i) chunks
    /\ Forall (fun b => 1 <= llen b <= bs) batches
    /\ llen batches = (Z.max 0 (llen chunks - i) + bs - 1) / bs.
Proof.
  intros Hbs. induction fuel as [|fuel IH]; intros i Hi Hfuel.
  - simpl. split; [|split].
    + rewrite skipn_all2; [reflexivity | unfold llen in Hfuel; lia].
    + constructor.
    + rewrite Z.max_l by lia. rewrite Z.div_small by lia. reflexivity.
  - cbn [range_loop]. destruct (Z.ltb_spec 0 bs) as [_|]; [|lia].
    destruct (Z.ltb_spec i (llen chunks)) as [Hlt|Hge].
    + destruct (IH (i + bs)) as [Hc [Hf Hn]]; [lia | lia |].
      cbn [map concat]. split; [|split].
      * rewrite Hc. unfold batch_at. now apply batch_then_rest.
      * constructor; [|exact Hf]. unfold batch_at. now apply batch_length.
      * unfold llen in *. cbn [List.length]. rewrite Nat2Z.inj_succ, Hn.
        rewrite (batch_count_step (Z.of_nat (List.length chunks) - i) bs) by lia.
        replace (Z.of_nat (List.length chunks) - (i + bs))
          with (Z.of_nat (List.length chunks) - i - bs) by lia.
        lia.
    + simpl. split; [|split].
      * rewrite skipn_all2; [reflexivity | unfold llen in Hge; lia].
      * constructor.
      * rewrite Z.max_l by lia. rewrite Z.div_small by lia. reflexivity.
Qed.

Lemma fold_left_batches {C B} (f : C -> list B -> C) (g : Z -> list B)
    (starts : list Z) (col : C) :
  fold_left (fun col i => f col (g i)) starts col = fold_left f (map g starts) col.
Proof.
  revert col. induction starts as [|i starts IH]; intros col; simpl;
    [reflexivity | apply IH].
Qed.

(** X21. With a positive batch size [add_chunks] hands the chunks to the
    embedder and the collection batch after batch: the batches, in order,
    make up the list of chunks, none lost or repeated; each holds between
    one and [batch_size] chunks; and there are as many as the progress
    line announces. *)
Theorem add_chunks_batches {E C : Type} (encode : list string -> option (list E))
    (collection_add : C -> list string -> list E -> list string ->
                      list metadata_dict -> C)
    (col : C) (chunks : list StoredChunk) (batch_size : Z) :
  0 < batch_size ->
  exists batches : list (list StoredChunk),
    add_chunks E encode C collection_add col chunks batch_size
    = Ok (fold_left (add_batch E encode C collection_add) batches col)
    /\ concat batches = chunks
    /\ Forall (fun b => 1 <= llen b <= batch_size) batches
    /\ llen batches = total_batches chunks batch_size.
Proof.
  intros Hbs.
  destruct (batches_from chunks batch_size Hbs
              (Z.to_nat (Z.abs (llen chunks - 0))) 0) as [Hc [Hf Hn]];
    [lia | lia |].
  exists (map (batch_at chunks batch_size)
            (range_loop (Z.to_nat (Z.abs (llen chunks - 0))) 0 (llen chunks) batch_size)).
  split; [|split; [exact Hc | split; [exact Hf|]]].
  - unfold add_chunks, py_range_step.
    destruct (Z.eqb_spec batch_size 0) as [|_]; [lia|].
    destruct chunks as [|c chunks].
    + reflexivity.
    + unfold bind. now rewrite fold_left_batches.
  - rewrite Hn. unfold total_batches. f_equal. unfold llen. lia.
Qed.

Lemma add_chunks_batches_witness :
  exists batches : list (list StoredChunk),
    add_chunks nat sample_encode (list string) sample_collection_add []
      [stored_sample 0 None; stored_sample 1 None; stored_sample 2 None] 2
    = Ok (fold_left (add_batch nat sample_encode (list string) sample_collection_add)
            batches [])
    /\ concat batches = [stored_sample 0 None; stored_sample 1 None; stored_sample 2 None]
    /\ Forall (fun b => 1 <= llen b <= 2) batches
    /\ llen batches
       = total_batches [stored_sample 0 None; stored_sample 1 None; stored_sample 2 None] 2.
Proof.
  apply (add_chunks_batches sample_encode sample_collection_add []
           [stored_sample 0 None; stored_sample 1 None; stored_sample 2 None] 2).
  lia.
Defined.

(** X22. A batch size that is not positive: with 0, [add_chunks] on a list
    that is not empty raises the [ValueError] of [range]; with a negative
    one it returns without a call of the embedder or of the collection,
    which stays as it was. *)
Theorem add_chunks_batch_size_not_positive {E C : Type}
    (encode : list string -> option (list E))
    (collection_add : C -> list string -> list E -> list string ->
                      list metadata_dict -> C)
    (col : C) (chunks : list StoredChunk) :
  chunks <> [] ->
  add_chunks E encode C collection_add col chunks 0 = Raise ValueError
  /\ forall batch_size, batch_size < 0 ->
       add_chunks E encode C collection_add col chunks batch_size = Ok col.
Proof.
  intros Hne. destruct chunks as [|c chunks]; [contradiction|]. split.
  - reflexivity.
  - intros bs Hbs. unfold add_chunks, py_range_step.
    destruct (Z.eqb_spec bs 0) as [|_]; [lia|].
    assert (Hr : forall fuel, range_loop fuel 0 (llen (c :: chunks)) bs = []).
    { intros [|fuel]; [reflexivity|]. cbn [range_loop].
      destruct (Z.ltb_spec 0 bs) as [|_]; [lia|].
      destruct (Z.ltb_spec (llen (c :: chunks)) 0) as [Hneg|_]; [|reflexivity].
      unfold llen in Hneg. lia. }
    rewrite Hr. reflexivity.
Qed.

Lemma add_chunks_batch_size_not_positive_witness :
  add_chunks nat sample_encode (list string) sample_collection_add []
    [stored_sample 0 None] 0 = Raise ValueError
  /\ forall batch_size, batch_size < 0 ->
       add_chunks nat sample_encode (list string) sample_collection_add []
         [stored_sample 0 None] batch_size = Ok [].
Proof.
  apply (add_chunks_batch_size_not_positive sample_encode sample_collection_add []
           [stored_sample 0 None]).
  discriminate.
Defined.

End VectorDbProofs.

(** ** Properties of retriever.py *)

Module RetrieverProofs.
Import Py VectorDb Retriever BenchmarkProofs.

Lemma filter_loop_satisfies (metadata_filter : list (string * meta_value))
    (r : SearchResult) :
  filter_loop metadata_filter (metadata r) = satisfies metadata_filter r.
Proof.
  unfold satisfies.
  induction metadata_filter as [|[key value] rest IH]; [reflexivity|].
  cbn [filter_loop forallb fst snd].
  destruct (metadata r !! key) as [v|]; [|reflexivity].
  destruct (py_eq v value); [exact IH | reflexivity].
Qed.

Lemma results_loop_filter (metadata_filter : list (string * meta_value))
    (all_results filtered : list SearchResult) :
  results_loop all_results metadata_filter filtered
  = filtered ++ List.filter (satisfies metadata_filter) all_results.
Proof.
  revert filtered. induction all_results as [|r rest IH]; intros filtered.
  - simpl. now rewrite app_nil_r.
  - cbn [results_loop List.filter]. rewrite IH, filter_loop_satisfies.
    destruct (satisfies metadata_filter r); [|reflexivity].
    now rewrite <- app_assoc.
Qed.

Lemma satisfies_meets (metadata_filter : list (string * meta_value))
    (r : SearchResult) :
  satisfies metadata_filter r = true -> Forall (meets (metadata r)) metadata_filter.
Proof.
  unfold satisfies. intros H. apply List.Forall_forall. intros c Hc.
  rewrite forallb_forall in H. specialize (H c Hc). unfold meets.
  destruct (metadata r !! fst c) as [v|]; [eauto | discriminate].
Qed.

Lemma slice_to_prefix {A} (l : list A) (k : Z) :
  0 <= k -> slice_to l k = firstn (Z.to_nat k) l.
Proof.
  intros Hk. rewrite slice_to_firstn. unfold adjust_index, llen.
  destruct (Z.ltb_spec k 0) as [|_]; [lia|].
  destruct (Z.le_gt_cases k (Z.of_nat (List.length l))) as [Hle|Hgt].
  - now rewrite Z.min_l by lia.
  - rewrite Z.min_r by lia. rewrite !firstn_all2; [reflexivity | lia | lia].
Qed.

Lemma in_prefix {A} (x : A) (n : nat) (l : list A) : In x (firstn n l) -> In x l.
Proof.
  intros H. rewrite <- (firstn_skipn n l). apply in_or_app. now left.
Qed.

Lemma firstn_llen {A} (l : list A) (n : Z) : 0 <= n -> llen (firstn (Z.to_nat n) l) <= n.
Proof. intros Hn. unfold llen. rewrite length_firstn. lia. Qed.

Lemma py_eq_str (v : meta_value) (s : string) : py_eq v (MStr s) = true -> v = MStr s.
Proof.
  destruct v as [t| |]; simpl; try discriminate.
  intros H. apply String.eqb_eq in H. now subst.
Qed.

(** X23. [retrieve_with_metadata] asks the search for three times
    [n_results] results and returns, in the order of the search, the first
    [n_results] of those that meet every condition of the filter: at most
    [n_results] results, each with every key of the filter present and its
    value equal to the one asked for. *)
Theorem retrieve_with_metadata_filtered (search : string -> Z -> list SearchResult)
    (query : string) (metadata_filter : list (string * meta_value)) (n_results : Z) :
  0 <= n_results ->
  retrieve_with_metadata search query metadata_filter n_results
  = firstn (Z.to_nat n_results)
      (List.filter (satisfies metadata_filter) (search query (n_results * 3)))
  /\ llen (retrieve_with_metadata search query metadata_filter n_results) <= n_results
  /\ Forall (fun r => Forall (meets (metadata r)) metadata_filter)
       (retrieve_with_metadata search query metadata_filter n_results).
Proof.
  intros Hn.
  assert (E : retrieve_with_metadata search query metadata_filter n_results
              = firstn (Z.to_nat n_results)
                  (List.filter (satisfies metadata_filter)
                     (search query (n_results * 3)))).
  { unfold retrieve_with_metadata. rewrite results_loop_filter. simpl app.
    now apply slice_to_prefix. }
  split; [exact E|]. rewrite E. split; [now apply firstn_llen|].
  apply List.Forall_forall. intros r Hr.
  apply in_prefix, filter_In in Hr. destruct Hr as [_ Hr].
  now apply satisfies_meets.
Qed.

Lemma retrieve_with_metadata_filtered_witness :
  retrieve_with_metadata sample_search "pH" [("has_ph", MStr "true")] 5
  = firstn (Z.to_nat 5)
      (List.filter (satisfies [("has_ph", MStr "true")]) (sample_search "pH" (5 * 3)))
  /\ llen (retrieve_with_metadata sample_search "pH" [("has_ph", MStr "true")] 5) <= 5
  /\ Forall (fun r => Forall (meets (metadata r)) [("has_ph", MStr "true")])
       (retrieve_with_metadata sample_search "pH" [("has_ph", MStr "true")] 5).
Proof.
  apply (retrieve_with_metadata_filtered sample_search "pH" [("has_ph", MStr "true")] 5).
  lia.
Defined.

(** X24. [retrieve_by_source] asks the search for twice [n_results]
    results and returns at most [n_results] of them, the first ones, in the
    order of the search, whose metadata names the source file asked for. *)
Theorem retrieve_by_source_filtered (search : string -> Z -> list SearchResult)
    (query source_file : string) (n_results : Z) :
  0 <= n_results ->
  retrieve_by_source search query source_file n_results
  = firstn (Z.to_nat n_results)
      (List.filter (from_source source_file) (search query (n_results * 2)))
  /\ llen (retrieve_by_source search query source_file n_results) <= n_results
  /\ Forall (fun r => metadata r !! "source_file" = Some (MStr source_file))
       (retrieve_by_source search query source_file n_results).
Proof.
  intros Hn.
  assert (E : retrieve_by_source search query source_file n_results
              = firstn (Z.to_nat n_results)
                  (List.filter (from_source source_file)
                     (search query (n_results * 2))))
    by (unfold retrieve_by_source; now apply slice_to_prefix).
  split; [exact E|]. rewrite E. split; [now apply firstn_llen|].
  apply List.Forall_forall. intros r Hr.
  apply in_prefix, filter_In in Hr. destruct Hr as [_ Hr].
  unfold from_source in Hr.
  destruct (metadata r !! "source_file") as [v|]; [|discriminate].
  now rewrite (py_eq_str v source_file Hr).
Qed.

Lemma retrieve_by_source_filtered_witness :
  retrieve_by_source sample_search "pH" "report.pdf" 5
  = firstn (Z.to_nat 5)
      (List.filter (from_source "report.pdf") (sample_search "pH" (5 * 2)))
  /\ llen (retrieve_by_source sample_search "pH" "report.pdf" 5) <= 5
  /\ Forall (fun r => metadata r !! "source_file" = Some (MStr "report.pdf"))
       (retrieve_by_source sample_search "pH" "report.pdf" 5).
Proof.
  apply (retrieve_by_source_filtered sample_search "pH" "report.pdf" 5). lia.
Defined.

(** *** Filters on the flags that [add_chunks] stores *)

Lemma add_flag_flag_like {A} (key k : string) (found : option A) (md : metadata_dict) :
  flag_like key md -> flag_like key (add_flag k found md).
Proof.
  intros H. unfold add_flag. destruct (MetadataExtraction.bool_of_option found);
    [|exact H].
  unfold flag_like. destruct (decide (k = key)) as [->|Hne].
  - right. apply lookup_insert_eq.
  - now rewrite lookup_insert_ne.
Qed.

Lemma add_names_flag_like (key k : string) (names : option (list string))
    (md : metadata_dict) :
  k <> key -> flag_like key md -> flag_like key (add_names k names md).
Proof.
  intros Hne H. unfold add_names. destruct names as [[|n ns]|]; try exact H.
  unfold flag_like. now rewrite lookup_insert_ne.
Qed.

Lemma chunk_metadata_flag (c : StoredChunk) (key : string) :
  key = "has_ph" \/ key = "has_aw" -> flag_like key (chunk_metadata c).
Proof.
  intros Hkey.
  assert (Hbase : flag_like key
            (<["chunk_length" := MInt (Chunking.chunk_length
                                         (ChunkDocuments.chunk (doc_chunk c)))]>
               (<["doc_title" := MStr (ChunkDocuments.doc_title (doc_chunk c))]>
                  (<["source_file" := MStr (ChunkDocuments.source_file (doc_chunk c))]>
                     (∅ : metadata_dict))))).
  { left. rewrite !lookup_insert_ne by (destruct Hkey as [->| ->]; discriminate).
    apply lookup_empty. }
  unfold chunk_metadata. destruct (extracted c) as [m|]; [|exact Hbase].
  apply add_names_flag_like; [destruct Hkey as [->| ->]; discriminate|].
  apply add_names_flag_like; [destruct Hkey as [->| ->]; discriminate|].
  now do 2 apply add_flag_flag_like.
Qed.

(** X25. The filter of the docstring, a flag with a boolean value such as
    [{"has_ph": True}], finds nothing among results whose metadata
    [add_chunks] prepared: the flags are stored as the string "true", which
    is equal to no boolean. *)
Theorem boolean_flag_filter_finds_nothing (search : string -> Z -> list SearchResult)
    (query key : string) (b : bool) (n_results : Z) :
  (key = "has_ph" \/ key = "has_aw") ->
  Forall stored_by_add_chunks (search query (n_results * 3)) ->
  retrieve_with_metadata search query [(key, MBool b)] n_results = [].
Proof.
  intros Hkey Hall. unfold retrieve_with_metadata.
  rewrite results_loop_filter. simpl app.
  assert (E : List.filter (satisfies [(key, MBool b)]) (search query (n_results * 3)) = []).
  { induction Hall as [|r rs [c Hc] _ IH]; [reflexivity|].
    cbn [List.filter]. rewrite IH.
    unfold satisfies. cbn [forallb fst snd]. rewrite Hc.
    destruct (chunk_metadata_flag c key Hkey) as [-> | ->]; reflexivity. }
  rewrite E. apply slice_to_nil.
Qed.

Lemma boolean_flag_filter_finds_nothing_witness :
  Forall stored_by_add_chunks (sample_search "pH" (5 * 3))
  /\ retrieve_with_metadata sample_search "pH" [("has_ph", MBool true)] 5 = []
  /\ List.length (retrieve_with_metadata sample_search "pH" [("has_ph", MStr "true")] 5)
     = 1%nat.
Proof.
  assert (H : Forall stored_by_add_chunks (sample_search "pH" (5 * 3))).
  { constructor; [|constructor].
    exists (stored_sample 0 (Some sample_metadata)). reflexivity. }
  split; [exact H|]. split.
  - exact (boolean_flag_filter_finds_nothing sample_search "pH" "has_ph" true 5
             (or_introl eq_refl) H).
  - vm_compute. reflexivity.
Defined.

End RetrieverProofs.

(** ** Properties of the statistics of metadata_extraction.py *)

Module ExtractionStatsProofs.
Import Py MetadataExtraction ChunkDocuments ExtractionStats RoundingFacts.

Lemma count_with_bounds (field : ExtractedMetadata -> bool) (chunks : list chunk_dict) :
  Forall carries_metadata chunks ->
  exists n, count_with field chunks = Some n /\ 0 <= n <= llen chunks.
Proof.
  induction 1 as [|c chunks Hc _ [n [E Hn]]].
  - exists 0. split; [reflexivity | unfold llen; simpl; lia].
  - cbn [count_with]. rewrite E.
    assert (He : exists e, extracted_metadata_of c = Some e).
    { unfold extracted_metadata_of. destruct Hc as [-> | [m ->]]; eauto. }
    destruct He as [e ->].
    eexists. split; [reflexivity|].
    unfold llen in *. cbn [List.length]. rewrite Nat2Z.inj_succ.
    destruct (match e with Some m => field m | None => false end); lia.
Qed.

Lemma coverage_bounds (s n : Z) :
  0 < n -> 0 <= s <= n * 4 ->
  (0 <= Benchmark.py_round (IZR s / IZR (n * 4) * 100) 2 <= 100)%R.
Proof.
  intros Hn Hs.
  assert (Hd : (0 < IZR (n * 4))%R) by (apply (IZR_lt 0); lia).
  assert (H0 : (0 <= IZR s)%R) by (apply (IZR_le 0); lia).
  assert (H1 : (IZR s <= IZR (n * 4))%R) by (apply IZR_le; lia).
  assert (Hq : (0 <= IZR s / IZR (n * 4) <= 1)%R).
  { split.
    - apply Rmult_le_pos; [exact H0 | left; now apply Rinv_0_lt_compat].
    - apply (Rmult_le_reg_r (IZR (n * 4))); [exact Hd|].
      unfold Rdiv. rewrite Rmult_assoc, Rinv_l, Rmult_1_r, Rmult_1_l by lra.
      exact H1. }
  split.
  - apply (py_round_ge_int _ 2 0); [lia | lra].
  - apply (py_round_le_int _ 2 100); [lia | lra].
Qed.

(** X26. On chunks whose "extracted_metadata", when present, is a metadata
    dictionary, [get_stats] returns its dictionary: the total is the
    number of chunks, each of the four counts lies between 0 and the
    total, and the coverage is the integer 0 for no chunk and otherwise a
    percentage from 0 to 100; no division by zero occurs. *)
Theorem metadata_stats_bounds (chunks : list chunk_dict) :
  Forall carries_metadata chunks ->
  exists stats,
    get_stats chunks = Some stats
    /\ stats !! "total_chunks" = Some (SInt (llen chunks))
    /\ Forall (fun key => exists n, stats !! key = Some (SInt n) /\ 0 <= n <= llen chunks)
         count_keys
    /\ match chunks with
       | [] => stats !! "metadata_coverage_pct" = Some (SInt 0)
       | _ => exists x, stats !! "metadata_coverage_pct" = Some (SFloat x)
                        /\ (0 <= x <= 100)%R
       end.
Proof.
  intros H.
  destruct (count_with_bounds has_ph chunks H) as [a [Ea Ha]].
  destruct (count_with_bounds has_aw chunks H) as [b [Eb Hb]].
  destruct (count_with_bounds has_microorganisms chunks H) as [c [Ec Hc]].
  destruct (count_with_bounds has_conservants chunks H) as [d [Ed Hd]].
  unfold get_stats. rewrite Ea, Eb, Ec, Ed.
  eexists. split; [reflexivity|]. split; [reflexivity|]. split.
  - unfold count_keys.
    repeat (constructor; [eexists; split; [reflexivity | assumption]|]).
    constructor.
  - destruct chunks as [|c0 chunks]; [reflexivity|].
    eexists. split; [reflexivity|].
    apply coverage_bounds; [unfold llen; simpl; lia | lia].
Qed.

Lemma metadata_stats_bounds_witness :
  exists stats,
    get_stats [sample_chunk_a; <["extracted_metadata" := VMeta Retriever.sample_metadata]> sample_chunk_b]
    = Some stats
    /\ stats !! "total_chunks" = Some (SInt 2)
    /\ Forall (fun key => exists n, stats !! key = Some (SInt n) /\ 0 <= n <= 2) count_keys
    /\ exists x, stats !! "metadata_coverage_pct" = Some (SFloat x) /\ (0 <= x <= 100)%R.
Proof.
  apply (metadata_stats_bounds
           [sample_chunk_a;
            <["extracted_metadata" := VMeta Retriever.sample_metadata]> sample_chunk_b]).
  constructor; [left; reflexivity|].
  constructor; [right; eexists; reflexivity | constructor].
Defined.

End ExtractionStatsProofs.

(** ** Chunk ids across documents *)

Module ChunkIdsUnique.
Import Py PyMore Chunking ChunkingSpec ChunkDocuments.
Import ChunkingInvariants ChunkDocumentsProofs.

Lemma uint_digits_empty (d : Decimal.uint) :
  forallb is_digit (list_ascii_of_string (NilEmpty.string_of_uint d)) = true.
Proof. induction d; simpl; try reflexivity; exact IHd. Qed.

Lemma uint_digits (d : Decimal.uint) :
  forallb is_digit (list_ascii_of_string (NilZero.string_of_uint d)) = true.
Proof.
  destruct d; try reflexivity;
    apply (uint_digits_empty (_ d)) || apply uint_digits_empty.
Qed.

Lemma str_of_nat_digits (n : nat) :
  forallb is_digit (list_ascii_of_string (str_of_int (Z.of_nat n))) = true.
Proof.
  unfold str_of_int. destruct (Z.of_nat n) as [|p|p] eqn:E; [reflexivity | | lia].
  simpl. apply uint_digits.
Qed.

(** The separator of an id is found at one place only: before the digits. *)
Lemma separator_first (x d1 d2 : string) :
  forallb is_digit (list_ascii_of_string d1) = true ->
  "_chunk_" +:+ d1 = x +:+ "_chunk_" +:+ d2 -> x = "".
Proof.
  intros Hd H.
  destruct x as [|a1 x]; [reflexivity|]. exfalso.
  cbv [String.app] in H. injection H as <- H.
  destruct x as [|a2 x]; cbv [String.app] in H; [discriminate H|]. injection H as <- H.
  destruct x as [|a3 x]; cbv [String.app] in H; [discriminate H|]. injection H as <- H.
  destruct x as [|a4 x]; cbv [String.app] in H; [discriminate H|]. injection H as <- H.
  destruct x as [|a5 x]; cbv [String.app] in H; [discriminate H|]. injection H as <- H.
  destruct x as [|a6 x]; cbv [String.app] in H; [discriminate H|]. injection H as <- H.
  destruct x as [|a7 x]; cbv [String.app] in H.
  - injection H as H. subst d1. discriminate Hd.
  - injection H as <- H. subst d1. clear -Hd.
    induction x as [|c x IH]; cbv [String.app] in Hd; [discriminate Hd|].
    apply andb_true_iff in Hd. destruct Hd as [_ Hd]. now apply IH.
Qed.

(** An id determines its prefix and its number. *)
Lemma chunk_id_inj (p1 p2 : string) (n1 n2 : nat) :
  nth_chunk_id p1 n1 = nth_chunk_id p2 n2 -> p1 = p2 /\ n1 = n2.
Proof.
  unfold nth_chunk_id. revert p2.
  induction p1 as [|c p1 IH]; intros p2 H.
  - assert (E : p2 = "").
    { apply (separator_first p2 (str_of_int (Z.of_nat n1)) (str_of_int (Z.of_nat n2)));
        [apply str_of_nat_digits | exact H]. }
    subst p2. split; [reflexivity|].
    apply (nth_chunk_id_inj ""). exact H.
  - destruct p2 as [|c2 p2].
    + symmetry in H.
      apply (separator_first (String c p1) (str_of_int (Z.of_nat n2))
               (str_of_int (Z.of_nat n1))) in H; [discriminate H|].
      apply str_of_nat_digits.
    + simpl in H. injection H as -> H. apply IH in H. destruct H as [-> ->].
      now split.
Qed.

Lemma numbered_ids_NoDup (runs : list (string * nat)) :
  List.NoDup (map fst runs) ->
  List.NoDup (concat (map (fun run => map (nth_chunk_id (fst run)) (seq 0 (snd run)))
                        runs)).
Proof.
  induction runs as [|[p n] runs IH]; intros H; simpl; [constructor|].
  inversion H as [|? ? Hp Hrest]; subst.
  apply List.NoDup_app.
  - apply NoDup_map_injective; [|apply seq_NoDup]. intros a b. apply nth_chunk_id_inj.
  - now apply IH.
  - intros id H1 H2. apply in_map_iff in H1. destruct H1 as [a [<- _]].
    apply in_concat in H2. destruct H2 as [l [Hl Hin]].
    apply in_map_iff in Hl. destruct Hl as [[q m] [<- Hq]].
    apply in_map_iff in Hin. destruct Hin as [b [Hb _]]. simpl in Hb.
    apply chunk_id_inj in Hb. destruct Hb as [-> _].
    apply Hp. apply in_map_iff. now exists (p, m).
Qed.

Lemma doc_chunks_ids (fuel : nat) (self : DocumentChunker) (doc : Document)
    (l : list DocChunk) :
  doc_chunks fuel self doc = Some l ->
  map (fun dc => chunk_id (chunk dc)) l
  = map (nth_chunk_id (doc_prefix doc)) (seq 0 (List.length l)).
Proof.
  unfold doc_chunks. intros H.
  destruct (chunk_text fuel self (content doc) (doc_prefix doc)) as [cs|] eqn:E;
    [|discriminate].
  injection H as <-.
  apply returned_is_iterate in E. destruct E as [n ->].
  destruct (iterate_numbered self (content doc) (doc_prefix doc) n) as [Hid _].
  rewrite map_map. simpl. rewrite length_map.
  rewrite <- Hid. reflexivity.
Qed.

Lemma documents_ids (fuel : nat) (self : DocumentChunker) :
  forall (docs : list Document) (lss : list (list DocChunk)),
    Forall2 (fun doc l => doc_chunks fuel self doc = Some l) docs lss ->
    exists runs : list (string * nat),
      map fst runs = map doc_prefix docs
      /\ map (fun dc => chunk_id (chunk dc)) (concat lss)
         = concat (map (fun run => map (nth_chunk_id (fst run)) (seq 0 (snd run))) runs).
Proof.
  induction 1 as [|doc l docs lss Hl _ [runs [Hp Hids]]].
  - exists []. now split.
  - exists ((doc_prefix doc, List.length l) :: runs). split.
    + simpl. now rewrite Hp.
    + simpl. rewrite map_app, Hids, (doc_chunks_ids fuel self doc l Hl). reflexivity.
Qed.

(** X27. When the documents have pairwise distinct prefixes (their file
    names with ".pdf" removed), the ids of the chunks that
    [chunk_documents] returns are pairwise distinct, over all documents. *)
Theorem chunk_documents_ids_unique (fuel : nat) (self : DocumentChunker)
    (docs : list Document) (r : list DocChunk) :
  chunk_documents fuel self docs = Some r ->
  List.NoDup (map doc_prefix docs) ->
  List.NoDup (map (fun dc => chunk_id (chunk dc)) r).
Proof.
  intros Hr Hp. unfold chunk_documents in Hr.
  apply documents_loop_spec in Hr. destruct Hr as [lss [HF ->]]. simpl app.
  destruct (documents_ids fuel self docs lss HF) as [runs [Hruns ->]].
  apply numbered_ids_NoDup. now rewrite Hruns.
Qed.

Lemma chunk_documents_ids_unique_witness :
  exists r,
    chunk_documents 30 (init 16 0) [report_doc; blank_doc] = Some r
    /\ List.NoDup (map doc_prefix [report_doc; blank_doc])
    /\ List.NoDup (map (fun dc => chunk_id (chunk dc)) r).
Proof.
  assert (Hp : List.NoDup (map doc_prefix [report_doc; blank_doc])).
  { constructor; [intros [H|[]]; discriminate H|].
    constructor; [intros []|constructor]. }
  eexists. split; [vm_compute; reflexivity|]. split; [exact Hp|].
  exact (chunk_documents_ids_unique 30 (init 16 0) [report_doc; blank_doc] _
           ltac:(vm_compute; reflexivity) Hp).
Defined.

(** X28. Two documents with the same prefix that both give chunks: the
    list that [chunk_documents] returns for them holds the id
    prefix_chunk_0 twice. *)
Theorem chunk_documents_ids_repeat (fuel : nat) (self : DocumentChunker)
    (d1 d2 : Document) (c1 c2 : DocChunk) (l1 l2 : list DocChunk) :
  doc_prefix d1 = doc_prefix d2 ->
  doc_chunks fuel self d1 = Some (c1 :: l1) ->
  doc_chunks fuel self d2 = Some (c2 :: l2) ->
  chunk_documents fuel self [d1; d2] = Some (c1 :: l1 ++ c2 :: l2)
  /\ chunk_id (chunk c1) = nth_chunk_id (doc_prefix d1) 0
  /\ chunk_id (chunk c2) = nth_chunk_id (doc_prefix d1) 0
  /\ ~ List.NoDup (map (fun dc => chunk_id (chunk dc)) (c1 :: l1 ++ c2 :: l2)).
Proof.
  intros Hp H1 H2.
  pose proof (doc_chunks_ids fuel self d1 _ H1) as I1.
  pose proof (doc_chunks_ids fuel self d2 _ H2) as I2.
  simpl in I1, I2. injection I1 as I1 _. injection I2 as I2 _.
  rewrite <- Hp in I2.
  split; [|split; [exact I1 | split; [exact I2|]]].
  - unfold chunk_documents. cbn [documents_loop].
    unfold doc_chunks in H1, H2.
    destruct (chunk_text fuel self (content d1) (doc_prefix d1)) as [cs1|];
      [|discriminate]. simpl in H1. injection H1 as H1.
    destruct (chunk_text fuel self (content d2) (doc_prefix d2)) as [cs2|];
      [|discriminate]. simpl in H2. injection H2 as H2.
    rewrite !stamp_loop_spec, H1, H2. reflexivity.
  - intros Hnd. simpl in Hnd. inversion Hnd as [|? ? Hnotin _]; subst.
    apply Hnotin. rewrite map_app. apply in_or_app. right. left.
    now rewrite I1, I2.
Qed.

Lemma chunk_documents_ids_repeat_witness :
  exists c1 l1 c2 l2,
    doc_chunks 30 (init 16 0) report_doc = Some (c1 :: l1)
    /\ doc_chunks 30 (init 16 0) report_copy = Some (c2 :: l2)
    /\ ~ List.NoDup (map (fun dc => chunk_id (chunk dc)) (c1 :: l1 ++ c2 :: l2)).
Proof.
  do 4 eexists.
  split; [vm_compute; reflexivity|]. split; [vm_compute; reflexivity|].
  exact (proj2 (proj2 (proj2
           (chunk_documents_ids_repeat 30 (init 16 0) report_doc report_copy _ _ _ _
              ltac:(vm_compute; reflexivity) ltac:(vm_compute; reflexivity)
              ltac:(vm_compute; reflexivity))))).
Defined.

End ChunkIdsUnique.
